(** * Geofence attendance engine: lib/geofence.ts

    A shallow embedding of the background geofence task of the attendance
    application (lib/geofence.ts) and of the offline queue it drives
    (lib/syncQueue.ts), with the properties its specification states.

    Layout: the JavaScript values the module handles, the runtime it calls
    into (dates, JSON, digest), the device state and the answers of the
    outside world, a small monad for code that awaits and throws, then the
    functions of the module in source order, and finally the theorems. *)

From Stdlib Require Import ZArith Lia Ascii.
From stdpp Require Import gmap strings list pretty.

Local Open Scope Z_scope.

(* ===================================================================== *)
(** ** JavaScript values *)
(* ===================================================================== *)

(** The two directions of a geofence transition: the string literals
    "ENTER" and "EXIT" of the source. *)
Inductive Direction := ENTER | EXIT.

Definition dir_string (d : Direction) : string :=
  match d with ENTER => "ENTER" | EXIT => "EXIT" end.

Global Instance Direction_eq_dec : EqDecision Direction.
Proof. solve_decision. Defined.

(** The JSON documents the module reads back from storage.  The module
    writes objects whose properties are strings or null; numbers, booleans
    and arrays never appear in what it writes and are left out. *)
#[warnings="-register-all"] Inductive json :=
| JNull
| JStr (s : string)
| JObj (props : list (string * json)).

(** [o.k] on a parsed document: [None] is [undefined]. *)
Fixpoint lookup_prop (k : string) (props : list (string * json)) : option json :=
  match props with
  | [] => None
  | (k', v) :: rest => if String.eqb k k' then Some v else lookup_prop k rest
  end.

Definition get_prop (j : json) (k : string) : option json :=
  match j with
  | JObj props => lookup_prop k props
  | _ => None
  end.

(** [String(v)]. *)
Definition ToString (v : option json) : string :=
  match v with
  | None => "undefined"
  | Some JNull => "null"
  | Some (JStr s) => s
  | Some (JObj _) => "[object Object]"
  end.

(** Truthiness of a string: only the empty string is falsy. *)
Definition truthy (s : string) : bool := negb (String.eqb s "").

(** Truthiness of a parsed document. *)
Definition json_truthy (j : json) : bool :=
  match j with
  | JNull => false
  | JStr s => truthy s
  | JObj _ => true
  end.

(** [typeof j === "object"]; [typeof null] is "object" as well. *)
Definition typeof_object (j : json) : bool :=
  match j with
  | JStr _ => false
  | _ => true
  end.

(** Strings hold the UTF-8 text of the JavaScript string.  [utf8] is the
    encoding of one code point. *)
Definition utf8 (cp : N) : string :=
  (if cp <? 0x80 then String (ascii_of_N cp) ""
   else if cp <? 0x800 then
     String (ascii_of_N (0xC0 + cp / 0x40))
       (String (ascii_of_N (0x80 + cp mod 0x40)) "")
   else if cp <? 0x10000 then
     String (ascii_of_N (0xE0 + cp / 0x1000))
       (String (ascii_of_N (0x80 + (cp / 0x40) mod 0x40))
          (String (ascii_of_N (0x80 + cp mod 0x40)) ""))
   else
     String (ascii_of_N (0xF0 + cp / 0x40000))
       (String (ascii_of_N (0x80 + (cp / 0x1000) mod 0x40))
          (String (ascii_of_N (0x80 + (cp / 0x40) mod 0x40))
             (String (ascii_of_N (0x80 + cp mod 0x40)) ""))))%N.

(** The code points [String.prototype.trim] strips: the WhiteSpace and the
    LineTerminator productions of ECMAScript (tab, vertical tab, form
    feed, zero width no-break space, the space separators of Unicode; line
    feed, carriage return, line and paragraph separator). *)
Definition WhiteSpace : list N :=
  [0x0009; 0x000B; 0x000C; 0xFEFF; 0x0020; 0x00A0; 0x1680; 0x2000; 0x2001;
   0x2002; 0x2003; 0x2004; 0x2005; 0x2006; 0x2007; 0x2008; 0x2009; 0x200A;
   0x202F; 0x205F; 0x3000]%N.

Definition LineTerminator : list N := [0x000A; 0x000D; 0x2028; 0x2029]%N.

Definition white (s : string) : bool :=
  existsb (fun cp => String.eqb (utf8 cp) s) (WhiteSpace ++ LineTerminator).

(** The rest of [s] behind a leading white-space code point, if it starts
    with one; their encodings take one, two or three bytes. *)
Definition white_prefix (s : string) : option string :=
  match s with
  | String a r1 =>
      if white (String a "") then Some r1
      else
        match r1 with
        | String b r2 =>
            if white (String a (String b "")) then Some r2
            else
              match r2 with
              | String c r3 =>
                  if white (String a (String b (String c ""))) then Some r3
                  else None
              | EmptyString => None
              end
        | EmptyString => None
        end
  | EmptyString => None
  end.

Fixpoint trim_start (s : string) : string :=
  match s with
  | String a r1 =>
      if white (String a "") then trim_start r1
      else
        match r1 with
        | String b r2 =>
            if white (String a (String b "")) then trim_start r2
            else
              match r2 with
              | String c r3 =>
                  if white (String a (String b (String c ""))) then trim_start r3
                  else s
              | EmptyString => s
              end
        | EmptyString => s
        end
  | EmptyString => EmptyString
  end.

(** A suffix is stripped when it is white space throughout. *)
Fixpoint trim_end (s : string) : string :=
  match s with
  | String c rest =>
      if String.eqb (trim_start s) "" then EmptyString
      else String c (trim_end rest)
  | EmptyString => EmptyString
  end.

(** [String.prototype.trim]. *)
Definition trim (s : string) : string := trim_end (trim_start s).

(** [s.startsWith(p)] and [s.slice(n)] for [0 <= n]. *)
Definition startsWith (s p : string) : bool := String.prefix p s.

Fixpoint slice_from (n : nat) (s : string) : string :=
  match n, s with
  | O, _ => s
  | S n', String _ rest => slice_from n' rest
  | S _, EmptyString => EmptyString
  end.

(** [s.slice(0, n)]: the first [n] UTF-16 code units.  A code point of one,
    two or three bytes is one unit, one of four bytes is two; when the cut
    falls inside such a pair the slice ends with its first half, written
    here as the three bytes of that surrogate. *)
Definition high_surrogate (a b c : ascii) : string :=
  (let cp := (N_of_ascii a mod 0x08) * 0x40000 + (N_of_ascii b mod 0x40) * 0x1000
             + (N_of_ascii c mod 0x40) * 0x40 in
   let hs := 0xD800 + (cp - 0x10000) / 0x400 in
   String (ascii_of_N (0xE0 + hs / 0x1000))
     (String (ascii_of_N (0x80 + (hs / 0x40) mod 0x40))
        (String (ascii_of_N (0x80 + hs mod 0x40)) "")))%N.

Fixpoint slice_to (n : nat) (s : string) : string :=
  match n, s with
  | S n', String a r1 =>
      if (N_of_ascii a <? 0xC0)%N then String a (slice_to n' r1)
      else
        match r1 with
        | String b r2 =>
            if (N_of_ascii a <? 0xE0)%N then String a (String b (slice_to n' r2))
            else
              match r2 with
              | String c r3 =>
                  if (N_of_ascii a <? 0xF0)%N
                  then String a (String b (String c (slice_to n' r3)))
                  else
                    match n', r3 with
                    | S n'', String d r4 =>
                        String a (String b (String c (String d (slice_to n'' r4))))
                    | O, String _ _ => high_surrogate a b c
                    | _, EmptyString => s
                    end
              | EmptyString => s
              end
        | EmptyString => s
        end
  | _, _ => EmptyString
  end.

(* ===================================================================== *)
(** ** The JavaScript runtime *)
(* ===================================================================== *)

(** The pure library functions the module calls.  They are not part of the
    repository; the module is verified for every runtime, and each theorem
    names the property of the runtime it needs, if any. *)
Class Platform := {
  (** [Date.parse]: milliseconds since the epoch, [None] for [NaN]. *)
  Date_parse : string -> option Z;
  (** [new Date(ms).toISOString()]. *)
  toISOString : Z -> string;
  (** [JSON.parse]; [None] when it throws. *)
  JSON_parse : string -> option json;
  (** [JSON.stringify]. *)
  JSON_stringify : json -> string;
  (** [Crypto.digestStringAsync(SHA256, .)]. *)
  digestStringAsync : string -> string;
}.

(* ===================================================================== *)
(** ** The device and the outside world *)
(* ===================================================================== *)

(** [GeoEventPayload], the record that travels to the server and through
    the offline queue.  The type is declared in lib/syncQueue.ts, which is
    not among the sources; its fields are those the task fills in when it
    builds the payload and those [postToServer] reads.  [at_] is the field
    [at]. *)
Record GeoEventPayload := {
  event_id : string;
  dir : Direction;
  at_ : string;
  region_id : option string;
  acc_m : option Z;
  device : option string;
  idem : string;
}.

(** A request sent to the backend: the remote procedure [geofence_log], or
    the insert into the table [geofence_events]. *)
Inductive Request :=
| Rpc (p : GeoEventPayload)
| Insert (p : GeoEventPayload).

(** What survives between two runs of the task, and what the task leaves
    in the world: the key-value store, the offline queue, the requests sent
    so far (oldest first), whether a region is registered with the
    platform, and the local notifications scheduled. *)
Record World := {
  storage : gmap string string;
  queue : list GeoEventPayload;
  requests : list Request;
  geofencing : bool;
  notifications : list (string * string);
}.

Definition set_storage (m : gmap string string) (w : World) : World :=
  {| storage := m; queue := queue w; requests := requests w;
     geofencing := geofencing w; notifications := notifications w |}.

Definition set_queue (q : list GeoEventPayload) (w : World) : World :=
  {| storage := storage w; queue := q; requests := requests w;
     geofencing := geofencing w; notifications := notifications w |}.

Definition set_requests (r : list Request) (w : World) : World :=
  {| storage := storage w; queue := queue w; requests := r;
     geofencing := geofencing w; notifications := notifications w |}.

Definition set_geofencing (b : bool) (w : World) : World :=
  {| storage := storage w; queue := queue w; requests := requests w;
     geofencing := b; notifications := notifications w |}.

Definition set_notifications (n : list (string * string)) (w : World) : World :=
  {| storage := storage w; queue := queue w; requests := requests w;
     geofencing := geofencing w; notifications := n |}.

(** The calls on AsyncStorage, by key. *)
Inductive StorageCall :=
| GetItem (key : string)
| SetItem (key : string)
| RemoveItem (key : string).

(** The places where the module reads the clock. *)
Inductive ClockRead :=
| Clock_shouldDebounce          (* Date.now() in shouldDebounce *)
| Clock_nowIso                  (* nowIso(), called by the task *)
| Clock_getActiveEventId        (* Date.now() in getActiveEventId *)
| Clock_setActiveEventMeta      (* safeIsoNow(), called by setActiveEventMeta *)
| Clock_getActiveEventMetaUnsafe. (* safeIsoNow(), called by getActiveEventMetaUnsafe *)

(** Why a call to the backend failed. *)
Inductive Failure :=
| ProcedureUnavailable
| NetworkError
| Timeout
| AuthFailure
| MalformedResponse
| InsertRefused.

(** The outcome of an awaited call to the backend client: it resolves to a
    response whose [error] is null or set, or it rejects. *)
Inductive Reply :=
| Resolved (error : option Failure)
| Rejected (reason : Failure).

(** The answer of [Notifications.getPermissionsAsync]. *)
Inductive PermissionReply :=
| PermissionStatus (granted : bool)
| PermissionRejected.

(** The answers of the outside world during one call into the module.
    Every storage call is made at most once per key in a call, and the
    clock is read at most once at each place, so one answer each is all a
    call can observe.  The backend is asked once per request; its answer
    may depend on how many requests were sent before. *)
Record Env := {
  rejects : StorageCall -> bool;
  Date_now : ClockRead -> Z;
  rpc_reply : nat -> GeoEventPayload -> Reply;
  insert_reply : nat -> GeoEventPayload -> Reply;
  hasStartedGeofencingAsync_rejects : bool;
  stopGeofencingAsync_rejects : bool;
  notiAvailable : bool;
  getPermissionsAsync : PermissionReply;
  scheduleNotificationAsync_rejects : bool;
}.

(* ===================================================================== *)
(** ** Awaiting and throwing *)
(* ===================================================================== *)

(** How a call completes: with a value, or by throwing (a rejected
    promise, once awaited). *)
Inductive completion (A : Type) :=
| Normal (a : A)
| Throw.
Arguments Normal {A} a.
Arguments Throw {A}.

(** An async function: it reads the answers of the outside world, changes
    the world, and completes. *)
Definition M (A : Type) : Type := Env -> World -> completion A * World.

Definition ret {A} (a : A) : M A := fun _ w => (Normal a, w).

Definition throw {A} : M A := fun _ w => (Throw, w).

Definition bind {A B} (m : M A) (k : A -> M B) : M B :=
  fun e w =>
    match m e w with
    | (Normal a, w') => k a e w'
    | (Throw, w') => (Throw, w')
    end.

(** [try { m } catch { h }]: what [m] did before it threw stays done. *)
Definition try_catch {A} (m : M A) (h : M A) : M A :=
  fun e w =>
    match m e w with
    | (Normal a, w') => (Normal a, w')
    | (Throw, w') => h e w'
    end.

Declare Scope js_scope.
Delimit Scope js_scope with js.
Notation "x <- m ;; k" := (bind m (fun x => k))
  (at level 100, m at next level, right associativity) : js_scope.
Notation "m ;; k" := (bind m (fun _ => k))
  (at level 100, right associativity) : js_scope.
Local Open Scope js_scope.

(** The answers of the environment, and the state, as computations. *)
Definition ask {A} (f : Env -> A) : M A := fun e w => (Normal (f e), w).
Definition get {A} (f : World -> A) : M A := fun _ w => (Normal (f w), w).
Definition modify (f : World -> World) : M unit := fun _ w => (Normal tt, f w).

(** [try { m } catch {}] *)
Definition best_effort (m : M unit) : M unit := try_catch m (ret tt).

(** AsyncStorage. *)
Definition AsyncStorage_getItem (key : string) : M (option string) :=
  bad <- ask (fun e => rejects e (GetItem key)) ;;
  if bad : bool then throw else get (fun w => storage w !! key).

Definition AsyncStorage_setItem (key value : string) : M unit :=
  bad <- ask (fun e => rejects e (SetItem key)) ;;
  if bad : bool then throw
  else modify (fun w => set_storage (<[key := value]> (storage w)) w).

Definition AsyncStorage_removeItem (key : string) : M unit :=
  bad <- ask (fun e => rejects e (RemoveItem key)) ;;
  if bad : bool then throw
  else modify (fun w => set_storage (delete key (storage w)) w).

(** [JSON.parse] as a call that may throw. *)
Definition JSON_parse_or_throw `{Platform} (raw : string) : M json :=
  match JSON_parse raw with
  | Some j => ret j
  | None => throw
  end.

(* ===================================================================== *)
(** ** lib/syncQueue.ts *)
(* ===================================================================== *)

Module SyncQueue.
Section Flush.
(** The state a delivery acts on, and the delivery itself: it answers
    whether the record reached the server. *)
Context {S : Type}.
Variable deliver : GeoEventPayload -> S -> bool * S.

(** Modelled from the spec: lib/syncQueue.ts is not among the sources.
    [enqueue] "appends to a persisted ordered list". *)
Definition enqueue (p : GeoEventPayload) (q : list GeoEventPayload)
  : list GeoEventPayload := q ++ [p].

(** Modelled from the spec: lib/syncQueue.ts is not among the sources.
    [flushOnce] "attempts delivery for each queued record in insertion
    order; a record is removed from the queue only on successful
    delivery; on failure the record remains and flush stops attempting
    later records in that pass".  The result is the queue left behind and
    the state the deliveries produced. *)
Fixpoint flushOnce (q : list GeoEventPayload) (s : S)
  : list GeoEventPayload * S :=
  match q with
  | [] => ([], s)
  | p :: rest =>
      match deliver p s with
      | (true, s') => flushOnce rest s'
      | (false, s') => (p :: rest, s')
      end
  end.
End Flush.

(** A delivery that also records each attempt and its answer, oldest
    first; used to state in which order a pass attempts the records. *)
Definition recording {S : Type} (deliver : GeoEventPayload -> S -> bool * S)
  (p : GeoEventPayload) (st : S * list (GeoEventPayload * bool))
  : bool * (S * list (GeoEventPayload * bool)) :=
  match deliver p (fst st) with
  | (ok, s') => (ok, (s', snd st ++ [(p, ok)]))
  end.
End SyncQueue.

(* ===================================================================== *)
(** ** lib/geofence.ts *)
(* ===================================================================== *)

Definition ACTIVE_EVENT_KEY : string := "@rta.active_event_id".
Definition ACTIVE_EVENT_META_KEY : string := "@rta.active_event_meta_v1".
Definition LAST_EVENT_KEY : string := "@rta.geo.last.v1".
Definition DEBOUNCE_SEC : Z := 30.
Definition GEOFENCE_DEBUG_NOTI : bool := true.

Module ActiveEventMeta.
Record t := {
  event_id : string;
  active_event_end_utc : option string;
  saved_at : string;
}.
End ActiveEventMeta.

Section Geofence.
Context `{Platform}.

Definition safeIsoNow (site : ClockRead) : M string :=
  now <- ask (fun e => Date_now e site) ;;
  ret (toISOString now).

Definition parseUtcMs (iso : option string) : option Z :=
  match iso with
  | Some s => if truthy s then Date_parse s else None
  | None => None
  end.

Definition Location_hasStartedGeofencingAsync : M bool :=
  bad <- ask hasStartedGeofencingAsync_rejects ;;
  if bad : bool then throw else get geofencing.

Definition Location_stopGeofencingAsync : M unit :=
  bad <- ask stopGeofencingAsync_rejects ;;
  if bad : bool then throw else modify (set_geofencing false).

Definition safeStopGeofencingIfStarted : M unit :=
  best_effort
    (started <- try_catch Location_hasStartedGeofencingAsync (ret false) ;;
     if started : bool then best_effort Location_stopGeofencingAsync
     else ret tt).

(** The argument of [setActiveEventMeta]. *)
Record MetaArg := {
  eventId : string;
  endUtc : option string;
}.

(** The branch [if (!meta)] of [setActiveEventMeta]. *)
Definition setActiveEventMeta_null : M unit :=
  best_effort (AsyncStorage_removeItem ACTIVE_EVENT_META_KEY) ;;
  best_effort (AsyncStorage_removeItem ACTIVE_EVENT_KEY).

Definition setActiveEventMeta (meta : option MetaArg) : M unit :=
  match meta with
  | None => setActiveEventMeta_null
  | Some m =>
      let eventId := trim (eventId m) in
      if negb (truthy eventId) then setActiveEventMeta_null
      else
        saved_at <- safeIsoNow Clock_setActiveEventMeta ;;
        let payload :=
          JObj [("event_id", JStr eventId);
                ("active_event_end_utc",
                 match endUtc m with
                 | Some s => if truthy s then JStr s else JNull
                 | None => JNull
                 end);
                ("saved_at", JStr saved_at)] in
        best_effort
          (AsyncStorage_setItem ACTIVE_EVENT_META_KEY (JSON_stringify payload)) ;;
        best_effort (AsyncStorage_setItem ACTIVE_EVENT_KEY eventId)
  end.

(** [v == null]: undefined or null. *)
Definition nullish (v : option json) : bool :=
  match v with
  | None | Some JNull => true
  | _ => false
  end.

Definition getActiveEventMetaUnsafe : M (option ActiveEventMeta.t) :=
  try_catch
    (raw <- AsyncStorage_getItem ACTIVE_EVENT_META_KEY ;;
     match raw with
     | None => ret None
     | Some raw =>
         if negb (truthy raw) then ret None
         else
           parsed <- JSON_parse_or_throw raw ;;
           if negb (json_truthy parsed) || negb (typeof_object parsed)
           then ret None
           else
             let event_id := get_prop parsed "event_id" in
             let id := trim (if nullish event_id then "" else ToString event_id) in
             if negb (truthy id) then ret None
             else
               let end_ := get_prop parsed "active_event_end_utc" in
               let saved := get_prop parsed "saved_at" in
               savedAt <- (if nullish saved
                           then safeIsoNow Clock_getActiveEventMetaUnsafe
                           else ret (ToString saved)) ;;
               ret (Some {| ActiveEventMeta.event_id := id;
                            ActiveEventMeta.active_event_end_utc :=
                              if nullish end_ then None else Some (ToString end_);
                            ActiveEventMeta.saved_at := savedAt |})
     end)
    (ret None).

Definition setActiveEventId (eventId : option string) : M unit :=
  let normalized :=
    match eventId with
    | Some s => if truthy s then trim s else ""
    | None => ""
    end in
  if negb (truthy normalized) then setActiveEventMeta None
  else
    existing <- getActiveEventMetaUnsafe ;;
    let preserved :=
      match existing with
      | Some m =>
          String.eqb (ActiveEventMeta.event_id m) normalized &&
          match ActiveEventMeta.active_event_end_utc m with
          | Some s => truthy s
          | None => false
          end
      | None => false
      end in
    if preserved
    then best_effort (AsyncStorage_setItem ACTIVE_EVENT_KEY normalized)
    else setActiveEventMeta (Some {| eventId := normalized; endUtc := None |}).

Definition getActiveEventId : M (option string) :=
  meta <- getActiveEventMetaUnsafe ;;
  match meta with
  | Some m =>
      match parseUtcMs (ActiveEventMeta.active_event_end_utc m) with
      | Some endMs =>
          now <- ask (fun e => Date_now e Clock_getActiveEventId) ;;
          if endMs <? now
          then
            setActiveEventMeta None ;;
            safeStopGeofencingIfStarted ;;
            ret None
          else ret (Some (ActiveEventMeta.event_id m))
      | None => ret (Some (ActiveEventMeta.event_id m))
      end
  | None =>
      try_catch
        (legacy <- AsyncStorage_getItem ACTIVE_EVENT_KEY ;;
         let id :=
           match legacy with
           | Some s => if truthy s then trim s else ""
           | None => ""
           end in
         ret (if truthy id then Some id else None))
        (ret None)
  end.
(** [Notifications.scheduleNotificationAsync]. *)
Definition Notifications_scheduleNotificationAsync (title body : string) : M unit :=
  bad <- ask scheduleNotificationAsync_rejects ;;
  if bad : bool then throw
  else modify (fun w => set_notifications (notifications w ++ [(title, body)]) w).

(** Best-effort local notification.  A permission check that fails is
    ignored and the notification is attempted all the same. *)
Definition notify (title body : string) : M unit :=
  best_effort
    (available <- ask notiAvailable ;;
     if negb available then ret tt
     else
       permission <- ask getPermissionsAsync ;;
       match permission with
       | PermissionStatus false => ret tt
       | PermissionStatus true | PermissionRejected =>
           Notifications_scheduleNotificationAsync title body
       end).

Definition nowIso : M string :=
  now <- ask (fun e => Date_now e Clock_nowIso) ;;
  ret (toISOString now).

(** The test [last && last.dir === dir] followed by [dt < DEBOUNCE_SEC],
    with [dt = (now - Date.parse(last.at)) / 1000]; a comparison with [NaN]
    is false. *)
Definition same_direction (last : json) (d : Direction) : bool :=
  json_truthy last &&
  match get_prop last "dir" with
  | Some (JStr s) => String.eqb s (dir_string d)
  | _ => false
  end.

Definition within_window (last : json) (now : Z) : bool :=
  match Date_parse (ToString (get_prop last "at")) with
  | Some t => now - t <? DEBOUNCE_SEC * 1000
  | None => false
  end.

(** The document [{ dir, at }] kept under [LAST_EVENT_KEY]. *)
Definition marker_doc (d : Direction) (at_iso : string) : json :=
  JObj [("dir", JStr (dir_string d)); ("at", JStr at_iso)].

Definition shouldDebounce (d : Direction) : M bool :=
  try_catch
    (raw <- AsyncStorage_getItem LAST_EVENT_KEY ;;
     last <- match raw with
             | Some r => if truthy r then JSON_parse_or_throw r else ret JNull
             | None => ret JNull
             end ;;
     now <- ask (fun e => Date_now e Clock_shouldDebounce) ;;
     if same_direction last d && within_window last now then ret true
     else
       AsyncStorage_setItem LAST_EVENT_KEY
         (JSON_stringify (marker_doc d (toISOString now))) ;;
       ret false)
    (ret false).

(** [Math.floor(Date.parse(atIso) / 1000 / DEBOUNCE_SEC)]; [None] is [NaN]. *)
Definition slot (atIso : string) : option Z :=
  match Date_parse atIso with
  | Some ms => Some (ms / (1000 * DEBOUNCE_SEC))
  | None => None
  end.

(** A number inside a template literal. *)
Definition number_string (n : option Z) : string :=
  match n with
  | Some z => pretty z
  | None => "NaN"
  end.

(** The string that [makeIdem] digests. *)
Definition idem_base (eventId : string) (regionId : option string)
    (d : Direction) (atIso : string) : string :=
  eventId +:+ "|" +:+ default "null" regionId +:+ "|" +:+ dir_string d
    +:+ "|" +:+ number_string (slot atIso).

(** Create idempotency key stable within a 30s window. *)
Definition makeIdem (eventId : string) (regionId : option string)
    (d : Direction) (atIso : string) : string :=
  digestStringAsync (idem_base eventId regionId d atIso).

(** [supabase.rpc("geofence_log", ...)] and
    [supabase.from("geofence_events").insert(...)]: the request is sent,
    and the call resolves to the [error] of the response, or rejects. *)
Definition supabase_rpc (p : GeoEventPayload) : M (option Failure) :=
  fun e w =>
    let w' := set_requests (requests w ++ [Rpc p]) w in
    match rpc_reply e (length (requests w)) p with
    | Resolved error => (Normal error, w')
    | Rejected _ => (Throw, w')
    end.

Definition supabase_insert (p : GeoEventPayload) : M (option Failure) :=
  fun e w =>
    let w' := set_requests (requests w ++ [Insert p]) w in
    match insert_reply e (length (requests w)) p with
    | Resolved error => (Normal error, w')
    | Rejected _ => (Throw, w')
    end.

Definition postToServer (p : GeoEventPayload) : M bool :=
  try_catch
    (resp_error <- supabase_rpc p ;;
     match resp_error with
     | Some _ =>
         ins_error <- supabase_insert p ;;
         match ins_error with
         | Some _ => throw
         | None => ret true
         end
     | None => ret true
     end)
    (ret false).

(** Modelled from the spec: lib/syncQueue.ts is not among the sources.
    [enqueue] and [flushOnce] as the task imports them, acting on the
    queue of the device; [flushOnce] "does not crash or throw", so a
    delivery that throws counts as failed. *)
Definition enqueue (p : GeoEventPayload) : M unit :=
  modify (fun w => set_queue (SyncQueue.enqueue p (queue w)) w).

Definition flushOnce (deliver : GeoEventPayload -> M bool) : M unit :=
  fun e w =>
    let attempt p w :=
      match deliver p e w with
      | (Normal ok, w') => (ok, w')
      | (Throw, w') => (false, w')
      end in
    match SyncQueue.flushOnce attempt (queue w) w with
    | (remaining, w') => (Normal tt, set_queue remaining w')
    end.

(** What the platform hands to the task. *)
Inductive GeofencingEventType := Enter | Exit.

Record LocationRegion := {
  identifier : option string;
}.

Record TaskData := {
  eventType : option GeofencingEventType;  (* [None]: absent or unrecognised *)
  region : option LocationRegion;
}.

Record TaskManagerError := {
  message : option string;
}.

Record TaskBody := {
  data : option TaskData;
  error : option TaskManagerError;
}.

(** The task resolves to [undefined] on every path.  The model returns the
    [return] that was reached and, on the last one, the payload built and
    the answer of the first delivery. *)
Inductive Outcome :=
| TaskFailed
| Debounced
| NoEvent
| Recorded (p : GeoEventPayload) (ok : bool).

(** [data?.eventType] mapped to a direction; anything else than Exit is an
    ENTER. *)
Definition direction_of (body : TaskBody) : Direction :=
  match data body with
  | Some d =>
      match eventType d with
      | Some Enter => ENTER
      | Some Exit => EXIT
      | None => ENTER
      end
  | None => ENTER
  end.

(** [(region?.identifier as string | undefined) ?? null] *)
Definition regionId_of (body : TaskBody) : option string :=
  match data body with
  | Some d =>
      match region d with
      | Some r => identifier r
      | None => None
      end
  | None => None
  end.

(** [!eventId] *)
Definition falsy (eventId : option string) : bool :=
  match eventId with
  | Some s => negb (truthy s)
  | None => true
  end.

(** The block
    [if (!eventId && regionId && regionId.startsWith("event:")) {...}]
    of the task: the value of [eventId] after it. *)
Definition resolve_eventId (active regionId : option string) : option string :=
  match regionId with
  | Some r =>
      if falsy active && truthy r && startsWith r "event:"
      then
        let parsed := trim (slice_from (String.length "event:") r) in
        if truthy parsed then Some parsed else None
      else active
  | None => active
  end.

(** The function registered by [TaskManager.defineTask(GEOFENCE_TASK, ...)]. *)
Definition GEOFENCE_TASK (body : TaskBody) : M Outcome :=
  match error body with
  | Some err =>
      notify "Geofence task error" (default "Unknown error" (message err)) ;;
      ret TaskFailed
  | None =>
      let d := direction_of body in
      suppressed <- shouldDebounce d ;;
      if suppressed : bool then ret Debounced
      else
        at_iso <- nowIso ;;
        let regionId := regionId_of body in
        active <- getActiveEventId ;;
        let resolved := resolve_eventId active regionId in
        if falsy resolved then ret NoEvent
        else
          let eventId := default "" resolved in
          let payload :=
            {| event_id := eventId;
               dir := d;
               at_ := at_iso;
               region_id := regionId;
               acc_m := None;
               device := Some "mobile";
               idem := makeIdem eventId regionId d at_iso |} in
          ok <- postToServer payload ;;
          (if ok : bool then ret tt
           else enqueue payload ;; flushOnce postToServer) ;;
          (if GEOFENCE_DEBUG_NOTI
           then
             let shortEvent := slice_to 8 eventId in
             let title := match d with
                          | ENTER => "Geofence ENTER"
                          | EXIT => "Geofence EXIT"
                          end in
             let bodyParts :=
               ("event=" +:+ shortEvent +:+ "…") ::
               (if truthy (default "" regionId)
                then ["region=" +:+ default "" regionId]
                else []) in
             notify title (String.concat " • " bodyParts)
           else ret tt) ;;
          ret (Recorded payload ok)
  end.
End Geofence.

(* ===================================================================== *)
(** ** A runtime to run the module on *)
(* ===================================================================== *)

(** An executable runtime: ISO-8601 dates in the form [toISOString] prints
    them, JSON over the documents above, and SHA-256 in lower-case
    hexadecimal.  The theorems hold for every runtime; this one serves to
    evaluate the module on concrete inputs. *)
Module Runtime.

(** *** Dates *)

(** Days since 1970-01-01 to year, month, day, and back (proleptic
    Gregorian calendar, years counted from March inside). *)
Definition civil_from_days (days : Z) : Z * Z * Z :=
  let z := days + 719468 in
  let era := z / 146097 in
  let doe := z - era * 146097 in
  let yoe := (doe - doe / 1460 + doe / 36524 - doe / 146096) / 365 in
  let doy := doe - (365 * yoe + yoe / 4 - yoe / 100) in
  let mp := (5 * doy + 2) / 153 in
  let d := doy - (153 * mp + 2) / 5 + 1 in
  let m := if mp <? 10 then mp + 3 else mp - 9 in
  let y := yoe + era * 400 in
  (if m <=? 2 then y + 1 else y, m, d).

Definition days_from_civil (y m d : Z) : Z :=
  let y := if m <=? 2 then y - 1 else y in
  let era := y / 400 in
  let yoe := y - era * 400 in
  let doy := (153 * (if 2 <? m then m - 3 else m + 9) + 2) / 5 + d - 1 in
  let doe := yoe * 365 + yoe / 4 - yoe / 100 + doy in
  era * 146097 + doe - 719468.

(** A number in decimal, padded with zeros on the left. *)
Definition pad (width : nat) (n : Z) : string :=
  let s := pretty n in
  String.concat "" (replicate (width - String.length s) "0") +:+ s.

Definition toISOString (ms : Z) : string :=
  let days := ms / 86400000 in
  let rest := ms mod 86400000 in
  let '(y, m, d) := civil_from_days days in
  let year :=
    if (0 <=? y) && (y <=? 9999) then pad 4 y
    else (if y <? 0 then "-" else "+") +:+ pad 6 (Z.abs y) in
  year +:+ "-" +:+ pad 2 m +:+ "-" +:+ pad 2 d +:+ "T"
    +:+ pad 2 (rest / 3600000) +:+ ":" +:+ pad 2 (rest / 60000 mod 60) +:+ ":"
    +:+ pad 2 (rest / 1000 mod 60) +:+ "." +:+ pad 3 (rest mod 1000) +:+ "Z".

Definition digit (c : ascii) : option Z :=
  match Ascii.is_nat c with
  | Some n => Some (Z.of_nat n)
  | None => None
  end.

Fixpoint digits_from (acc : Z) (s : string) : option Z :=
  match s with
  | EmptyString => Some acc
  | String c rest =>
      match digit c with
      | Some n => digits_from (10 * acc + n) rest
      | None => None
      end
  end.

(** A non-empty run of decimal digits. *)
Definition digits (s : string) : option Z :=
  match s with
  | EmptyString => None
  | _ => digits_from 0 s
  end.

(** [Date.parse] on the 24-character form [YYYY-MM-DDTHH:mm:ss.sssZ];
    anything that is not what [toISOString] prints for some instant is
    [NaN]. *)
Definition Date_parse (s : string) : option Z :=
  match digits (String.substring 0 4 s), digits (String.substring 5 2 s),
        digits (String.substring 8 2 s), digits (String.substring 11 2 s),
        digits (String.substring 14 2 s), digits (String.substring 17 2 s),
        digits (String.substring 20 3 s) with
  | Some y, Some m, Some d, Some hh, Some mm, Some ss, Some mmm =>
      let ms := days_from_civil y m d * 86400000
                + hh * 3600000 + mm * 60000 + ss * 1000 + mmm in
      if String.eqb (toISOString ms) s then Some ms else None
  | _, _, _, _, _, _, _ => None
  end.

(** *** JSON *)

Definition dquote : ascii := "034"%char.
Definition bslash : ascii := "092"%char.

Definition hex_digit (n : Z) : ascii :=
  ascii_of_nat (Z.to_nat (if n <? 10 then 48 + n else 87 + n)).

Definition escape_char (c : ascii) : string :=
  match c with
  | "034"%char => String bslash (String dquote EmptyString)
  | "092"%char => String bslash (String bslash EmptyString)
  | "008"%char => String bslash "b"
  | "012"%char => String bslash "f"
  | "010"%char => String bslash "n"
  | "013"%char => String bslash "r"
  | "009"%char => String bslash "t"
  | _ =>
      let n := Z.of_nat (nat_of_ascii c) in
      if n <? 32
      then String bslash ("u00" +:+ String (hex_digit (n / 16))
                                    (String (hex_digit (n mod 16)) EmptyString))
      else String c EmptyString
  end.

Fixpoint escape (s : string) : string :=
  match s with
  | EmptyString => EmptyString
  | String c rest => escape_char c +:+ escape rest
  end.

Definition quote (s : string) : string :=
  String dquote (escape s +:+ String dquote EmptyString).

Fixpoint JSON_stringify (j : json) : string :=
  match j with
  | JNull => "null"
  | JStr s => quote s
  | JObj props =>
      "{" +:+ String.concat ","
                (map (fun kv => quote (fst kv) +:+ ":" +:+ JSON_stringify (snd kv)) props)
          +:+ "}"
  end.

Fixpoint skip_ws (s : string) : string :=
  match s with
  | String c rest =>
      match c with
      | " "%char | "009"%char | "010"%char | "013"%char => skip_ws rest
      | _ => s
      end
  | EmptyString => EmptyString
  end.

Definition hex_value (c : ascii) : option Z :=
  let n := Z.of_nat (nat_of_ascii c) in
  if (48 <=? n) && (n <=? 57) then Some (n - 48)
  else if (97 <=? n) && (n <=? 102) then Some (n - 87)
  else if (65 <=? n) && (n <=? 70) then Some (n - 55)
  else None.

(** The characters of a string literal after its opening quote, and what
    follows the closing quote.  Escapes above one byte are refused. *)
Fixpoint parse_chars (s : string) : option (string * string) :=
  match s with
  | EmptyString => None
  | String "034"%char rest => Some (EmptyString, rest)
  | String "092"%char (String e rest) =>
      let continue (c : ascii) (rest : option (string * string)) :=
        match rest with
        | Some (body, after) => Some (String c body, after)
        | None => None
        end in
      match e with
      | "034"%char => continue dquote (parse_chars rest)
      | "092"%char => continue bslash (parse_chars rest)
      | "/"%char => continue "/"%char (parse_chars rest)
      | "b"%char => continue "008"%char (parse_chars rest)
      | "f"%char => continue "012"%char (parse_chars rest)
      | "n"%char => continue "010"%char (parse_chars rest)
      | "r"%char => continue "013"%char (parse_chars rest)
      | "t"%char => continue "009"%char (parse_chars rest)
      | "u"%char =>
          match rest with
          | String h1 (String h2 (String h3 (String h4 rest'))) =>
              match hex_value h1, hex_value h2, hex_value h3, hex_value h4 with
              | Some 0, Some 0, Some a, Some b =>
                  continue (ascii_of_nat (Z.to_nat (16 * a + b))) (parse_chars rest')
              | _, _, _, _ => None
              end
          | _ => None
          end
      | _ => None
      end
  | String c rest =>
      if Z.of_nat (nat_of_ascii c) <? 32 then None
      else
        match parse_chars rest with
        | Some (body, after) => Some (String c body, after)
        | None => None
        end
  end.

(** The members of an object after its opening brace. *)
Fixpoint parse_members (value : string -> option (json * string))
    (fuel : nat) (first : bool) (s : string)
    : option (list (string * json) * string) :=
  match fuel with
  | O => None
  | S fuel' =>
      match skip_ws s with
      | String "}"%char rest => if first then Some ([], rest) else None
      | String "034"%char rest =>
          match parse_chars rest with
          | Some (key, after_key) =>
              match skip_ws after_key with
              | String ":"%char after_colon =>
                  match value after_colon with
                  | Some (v, after_value) =>
                      match skip_ws after_value with
                      | String ","%char more =>
                          match parse_members value fuel' false more with
                          | Some (props, after) => Some ((key, v) :: props, after)
                          | None => None
                          end
                      | String "}"%char after => Some ([(key, v)], after)
                      | _ => None
                      end
                  | None => None
                  end
              | _ => None
              end
          | None => None
          end
      | _ => None
      end
  end.

Fixpoint parse_value (fuel : nat) (s : string) : option (json * string) :=
  match fuel with
  | O => None
  | S fuel' =>
      match skip_ws s with
      | String "n"%char (String "u"%char (String "l"%char (String "l"%char rest))) =>
          Some (JNull, rest)
      | String "034"%char rest =>
          match parse_chars rest with
          | Some (body, after) => Some (JStr body, after)
          | None => None
          end
      | String "{"%char rest =>
          match parse_members (parse_value fuel') (String.length rest) true rest with
          | Some (props, after) => Some (JObj props, after)
          | None => None
          end
      | _ => None
      end
  end.

(** A later member of the same name replaces an earlier one, as
    [JSON.parse] does (at the top level, where the module reads). *)
Fixpoint last_wins (props : list (string * json)) : list (string * json) :=
  match props with
  | [] => []
  | (k, v) :: rest =>
      match lookup_prop k rest with
      | Some _ => last_wins rest
      | None => (k, v) :: last_wins rest
      end
  end.

Definition JSON_parse (s : string) : option json :=
  match parse_value (S (String.length s)) s with
  | Some (j, rest) =>
      match skip_ws rest with
      | EmptyString =>
          Some match j with
               | JObj props => JObj (last_wins props)
               | _ => j
               end
      | _ => None
      end
  | None => None
  end.

(** *** SHA-256 *)

Definition w32 (x : Z) : Z := x mod 2 ^ 32.

Definition rotr (n x : Z) : Z :=
  Z.lor (Z.shiftr x n) (w32 (Z.shiftl x (32 - n))).

Definition xor3 (a b c : Z) : Z := Z.lxor a (Z.lxor b c).

Definition Ch (x y z : Z) : Z :=
  Z.lxor (Z.land x y) (Z.land (Z.lxor x (2 ^ 32 - 1)) z).
Definition Maj (x y z : Z) : Z :=
  xor3 (Z.land x y) (Z.land x z) (Z.land y z).
Definition Sigma0 (x : Z) : Z := xor3 (rotr 2 x) (rotr 13 x) (rotr 22 x).
Definition Sigma1 (x : Z) : Z := xor3 (rotr 6 x) (rotr 11 x) (rotr 25 x).
Definition sigma0 (x : Z) : Z := xor3 (rotr 7 x) (rotr 18 x) (Z.shiftr x 3).
Definition sigma1 (x : Z) : Z := xor3 (rotr 17 x) (rotr 19 x) (Z.shiftr x 10).

(** The constants are the fractional parts of the square and cube roots of
    the first primes. *)
Definition is_prime (n : Z) : bool :=
  forallb (fun d => negb (n mod d =? 0)) (seqZ 2 (n - 2)).

Definition primes (count : nat) : list Z :=
  take count (filter (fun n => is_prime n = true) (seqZ 2 400)).

Fixpoint cbrt_from (bits : nat) (n x : Z) : Z :=
  match bits with
  | O => x
  | S b =>
      let x' := x + 2 ^ Z.of_nat b in
      if x' * x' * x' <=? n then cbrt_from b n x' else cbrt_from b n x
  end.

Definition K256 : list Z :=
  Eval vm_compute in map (fun p => w32 (cbrt_from 40 (p * 2 ^ 96) 0)) (primes 64).

Definition H256 : list Z :=
  Eval vm_compute in map (fun p => w32 (Z.sqrt (p * 2 ^ 64))) (primes 8).

Fixpoint be_bytes (n : nat) (x : Z) : list Z :=
  match n with
  | O => []
  | S n' => (x / 256 ^ Z.of_nat n') mod 256 :: be_bytes n' x
  end.

Definition pad_message (bytes : list Z) : list Z :=
  let len := Z.of_nat (length bytes) in
  bytes ++ [128] ++ replicate (Z.to_nat ((55 - len) mod 64)) 0
        ++ be_bytes 8 (8 * len).

Fixpoint words (fuel : nat) (bytes : list Z) : list Z :=
  match fuel, bytes with
  | S fuel', a :: b :: c :: d :: rest =>
      (((a * 256 + b) * 256 + c) * 256 + d) :: words fuel' rest
  | _, _ => []
  end.

(** The message schedule, newest word first. *)
Fixpoint extend (n : nat) (w : list Z) : list Z :=
  match n with
  | O => w
  | S n' =>
      let g i := nth i w 0 in
      extend n' (w32 (sigma1 (g 1%nat) + g 6%nat + sigma0 (g 14%nat) + g 15%nat) :: w)
  end.

Definition round (st : list Z) (kw : Z * Z) : list Z :=
  match st with
  | [a; b; c; d; e; f; g; h] =>
      let t1 := h + Sigma1 e + Ch e f g + fst kw + snd kw in
      let t2 := Sigma0 a + Maj a b c in
      [w32 (t1 + t2); a; b; c; w32 (d + t1); e; f; g]
  | _ => st
  end.

Definition compress (h : list Z) (block : list Z) : list Z :=
  let w := rev (extend 48 (rev block)) in
  zip_with (fun x y => w32 (x + y)) h (fold_left round (zip K256 w) h).

Fixpoint blocks (fuel : nat) (ws : list Z) : list (list Z) :=
  match fuel, ws with
  | S fuel', _ :: _ => take 16 ws :: blocks fuel' (drop 16 ws)
  | _, _ => []
  end.

Definition hex_word (x : Z) : string :=
  fold_right (fun i acc => String (hex_digit ((x / 16 ^ i) mod 16)) acc)
             EmptyString [7; 6; 5; 4; 3; 2; 1; 0].

Definition sha256 (s : string) : string :=
  let bytes := map (fun c => Z.of_nat (nat_of_ascii c)) (String.list_ascii_of_string s) in
  let padded := pad_message bytes in
  let ws := words (length padded) padded in
  String.concat "" (map hex_word (fold_left compress (blocks (length ws) ws) H256)).

End Runtime.

(** The runtime above as a [Platform]. *)
Definition runtime : Platform :=
  {| Date_parse := Runtime.Date_parse;
     toISOString := Runtime.toISOString;
     JSON_parse := Runtime.JSON_parse;
     JSON_stringify := Runtime.JSON_stringify;
     digestStringAsync := Runtime.sha256 |}.

(* ===================================================================== *)
(** ** What the theorems speak about *)
(* ===================================================================== *)

Section Vocabulary.
Context `{Platform}.

(** The LastTransitionMarker of a device: none, or the text of a document
    [{ dir, at }] whose [at] is a date. *)
Inductive LastTransitionMarker (w : World) : option (Direction * Z) -> Prop :=
| marker_absent :
    storage w !! LAST_EVENT_KEY = None ->
    LastTransitionMarker w None
| marker_stored raw d at_iso t :
    storage w !! LAST_EVENT_KEY = Some raw ->
    raw <> "" ->
    JSON_parse raw = Some (marker_doc d at_iso) ->
    Date_parse at_iso = Some t ->
    LastTransitionMarker w (Some (d, t)).

(** The marker that [shouldDebounce] writes at [now] can be read back. *)
Definition marker_readable (d : Direction) (now : Z) : Prop :=
  JSON_stringify (marker_doc d (toISOString now)) <> "" /\
  JSON_parse (JSON_stringify (marker_doc d (toISOString now)))
    = Some (marker_doc d (toISOString now)) /\
  Date_parse (toISOString now) = Some now.

(** The world after [shouldDebounce] wrote its marker. *)
Definition with_marker (d : Direction) (now : Z) (w : World) : World :=
  set_storage
    (<[LAST_EVENT_KEY := JSON_stringify (marker_doc d (toISOString now))]> (storage w)) w.

(** The persisted active-event context: the text of a document with an
    [event_id] and an [active_event_end_utc] that is a string or null. *)
Definition persisted_meta (w : World) (id : string) (end_utc : option string) : Prop :=
  exists raw props,
    storage w !! ACTIVE_EVENT_META_KEY = Some raw /\
    raw <> "" /\
    JSON_parse raw = Some (JObj props) /\
    lookup_prop "event_id" props = Some (JStr id) /\
    lookup_prop "active_event_end_utc" props
      = Some (match end_utc with Some s => JStr s | None => JNull end).

(** The world after both keys of the context were removed, as far as the
    store accepted the removals. *)
Definition cleared (e : Env) (w : World) : World :=
  let after_meta :=
    if rejects e (RemoveItem ACTIVE_EVENT_META_KEY) then storage w
    else delete ACTIVE_EVENT_META_KEY (storage w) in
  set_storage
    (if rejects e (RemoveItem ACTIVE_EVENT_KEY) then after_meta
     else delete ACTIVE_EVENT_KEY after_meta) w.

(** What [shouldDebounce] reads: the parsed marker, [Some JNull] when
    nothing (or the empty text) is stored, [None] when the text does not
    parse. *)
Definition read_marker (w : World) : option json :=
  match storage w !! LAST_EVENT_KEY with
  | Some r => if truthy r then JSON_parse r else Some JNull
  | None => Some JNull
  end.

(** A recent marker of the same direction was read: the one reason for
    [shouldDebounce] to suppress a signal. *)
Definition suppressing_marker (d : Direction) (e : Env) (w : World) : Prop :=
  exists last,
    read_marker w = Some last /\
    same_direction last d = true /\
    within_window last (Date_now e Clock_shouldDebounce) = true.

(** What [getActiveEventMetaUnsafe] makes of a parsed document. *)
Definition decode_meta (e : Env) (parsed : json) : option ActiveEventMeta.t :=
  if negb (json_truthy parsed) || negb (typeof_object parsed) then None
  else
    let event_id := get_prop parsed "event_id" in
    let id := trim (if nullish event_id then "" else ToString event_id) in
    if negb (truthy id) then None
    else
      let end_ := get_prop parsed "active_event_end_utc" in
      let saved := get_prop parsed "saved_at" in
      Some {| ActiveEventMeta.event_id := id;
              ActiveEventMeta.active_event_end_utc :=
                if nullish end_ then None else Some (ToString end_);
              ActiveEventMeta.saved_at :=
                if nullish saved
                then toISOString (Date_now e Clock_getActiveEventMetaUnsafe)
                else ToString saved |}.

(** The meta record as [getActiveEventMetaUnsafe] sees it. *)
Definition read_meta (e : Env) (w : World) : option ActiveEventMeta.t :=
  if rejects e (GetItem ACTIVE_EVENT_META_KEY) then None
  else
    match storage w !! ACTIVE_EVENT_META_KEY with
    | Some raw =>
        if truthy raw
        then match JSON_parse raw with
             | Some parsed => decode_meta e parsed
             | None => None
             end
        else None
    | None => None
    end.

(** The legacy key as [getActiveEventId] sees it. *)
Definition read_legacy (e : Env) (w : World) : option string :=
  if rejects e (GetItem ACTIVE_EVENT_KEY) then None
  else
    match storage w !! ACTIVE_EVENT_KEY with
    | Some s => if truthy s && truthy (trim s) then Some (trim s) else None
    | None => None
    end.

(** The world after [safeStopGeofencingIfStarted]. *)
Definition stopped (e : Env) (w : World) : World :=
  if hasStartedGeofencingAsync_rejects e then w
  else if geofencing w
       then (if stopGeofencingAsync_rejects e then w else set_geofencing false w)
       else w.

(** The requests of one delivery of [p] by [postToServer]: the remote
    procedure call, alone or followed by the insert. *)
Definition delivery (p : GeoEventPayload) (sent : list Request) : Prop :=
  sent = [Rpc p] \/ sent = [Rpc p; Insert p].

(** The answer of [postToServer] for [p] once the requests [before] were
    sent. *)
Definition answered (e : Env) (before : list Request) (p : GeoEventPayload)
    (ok : bool) : Prop :=
  forall w, requests w = before -> fst (postToServer p e w) = Normal ok.

(** One pass over the queue [q], seen from the backend and from the queue.
    The records [delivered] leave the queue: for each, in queue order, the
    requests of its delivery were sent and [postToServer] answered true.
    When records remain, the first of them was attempted last and
    [postToServer] answered false.  Nothing else was sent. *)
Definition pass (e : Env) (before : list Request) (q : list GeoEventPayload)
    (after : list Request) (remaining : list GeoEventPayload) : Prop :=
  exists delivered chunks last,
    q = delivered ++ remaining /\
    Forall2 delivery delivered chunks /\
    (forall i d, delivered !! i = Some d ->
                 answered e (before ++ concat (take i chunks)) d true) /\
    match remaining with
    | [] => last = []
    | h :: _ => delivery h last /\ answered e (before ++ concat chunks) h false
    end /\
    after = before ++ concat chunks ++ last.

End Vocabulary.

(** Whether a string holds the separator of [makeIdem]. *)
Fixpoint has_bar (s : string) : bool :=
  match s with
  | EmptyString => false
  | String c rest => if Ascii.eqb c "|" then true else has_bar rest
  end.

(** The characters of a number printed in decimal. *)
Definition numeric_char (c : ascii) : bool :=
  match Ascii.is_nat c with
  | Some _ => true
  | None => Ascii.eqb c "-"
  end.

Fixpoint all_numeric (s : string) : bool :=
  match s with
  | EmptyString => true
  | String c rest => numeric_char c && all_numeric rest
  end.

(* ===================================================================== *)
(** ** Scenarios *)
(* ===================================================================== *)

(** Concrete devices, signals and answers of the outside world, on which
    the task is run with the runtime above. *)
Module Scenario.
(** 2024-11-02T20:00:00.000Z *)
Definition evening : Z := 1730577600000.

(** U+00A0, the no-break space: white space outside the ASCII range. *)
Definition no_break_space : string := utf8 0xA0.

(** An outside world in which nothing fails, at instant [now]. *)
Definition calm (now : Z) : Env :=
  {| rejects := fun _ => false;
     Date_now := fun _ => now;
     rpc_reply := fun _ _ => Resolved None;
     insert_reply := fun _ _ => Resolved None;
     hasStartedGeofencingAsync_rejects := false;
     stopGeofencingAsync_rejects := false;
     notiAvailable := true;
     getPermissionsAsync := PermissionStatus true;
     scheduleNotificationAsync_rejects := false |}.

(** The same, with a store that rejects the calls [bad]. *)
Definition failing (bad : StorageCall -> bool) (now : Z) : Env :=
  {| rejects := bad;
     Date_now := fun _ => now;
     rpc_reply := fun _ _ => Resolved None;
     insert_reply := fun _ _ => Resolved None;
     hasStartedGeofencingAsync_rejects := false;
     stopGeofencingAsync_rejects := false;
     notiAvailable := true;
     getPermissionsAsync := PermissionStatus true;
     scheduleNotificationAsync_rejects := false |}.

Definition reads_fail (c : StorageCall) : bool :=
  match c with GetItem _ => true | _ => false end.

Definition writes_fail (c : StorageCall) : bool :=
  match c with SetItem _ => true | _ => false end.

(** The same as [calm], with a backend that answers the procedure call
    by [rpc] and the insert by [ins]. *)
Definition backend (rpc ins : Reply) (now : Z) : Env :=
  {| rejects := fun _ => false;
     Date_now := fun _ => now;
     rpc_reply := fun _ _ => rpc;
     insert_reply := fun _ _ => ins;
     hasStartedGeofencingAsync_rejects := false;
     stopGeofencingAsync_rejects := false;
     notiAvailable := true;
     getPermissionsAsync := PermissionStatus true;
     scheduleNotificationAsync_rejects := false |}.

(** A device that monitors a region and holds nothing else. *)
Definition blank : World :=
  {| storage := ∅; queue := []; requests := [];
     geofencing := true; notifications := [] |}.

(** The text of the meta record of event [id] ending at [end_utc]. *)
Definition meta_text (id : string) (end_utc : option string) : string :=
  Runtime.JSON_stringify
    (JObj [("event_id", JStr id);
           ("active_event_end_utc",
            match end_utc with Some s => JStr s | None => JNull end);
           ("saved_at", JStr (Runtime.toISOString evening))]).

(** The device armed for event [id]. *)
Definition armed (id : string) (end_utc : option string) : World :=
  set_storage
    (<[ACTIVE_EVENT_META_KEY := meta_text id end_utc]>
       (<[ACTIVE_EVENT_KEY := id]> ∅)) blank.

(** A device that holds the legacy key only. *)
Definition legacy_only (id : string) : World :=
  set_storage (<[ACTIVE_EVENT_KEY := id]> ∅) blank.

Definition signal (t : GeofencingEventType) (regionId : string) : TaskBody :=
  {| data := Some {| eventType := Some t;
                     region := Some {| identifier := Some regionId |} |};
     error := None |}.

(** The record the task builds for event [id] at [now]. *)
Definition record (id regionId : string) (d : Direction) (now : Z) : GeoEventPayload :=
  {| event_id := id;
     dir := d;
     at_ := Runtime.toISOString now;
     region_id := Some regionId;
     acc_m := None;
     device := Some "mobile";
     idem := makeIdem (H := runtime) id (Some regionId) d (Runtime.toISOString now) |}.

(** Instants around [evening], as the backend prints them. *)
Definition an_hour_before : string := "2024-11-02T19:00:00.000Z".
Definition two_hours_after : string := "2024-11-02T22:00:00.000Z".

(** The device armed for event E1 after an ENTER at [evening]. *)
Definition after_enter : World :=
  snd (GEOFENCE_TASK (H := runtime) (signal Enter "venue") (calm evening)
         (armed "E1" None)).
End Scenario.

(* ===================================================================== *)
(** ** lib/geofence.ts: the public helpers *)
(* ===================================================================== *)

(** [Location.PermissionStatus]. *)
Inductive Location_PermissionStatus := Granted | Denied | Undetermined.

Global Instance Location_PermissionStatus_eq_dec : EqDecision Location_PermissionStatus.
Proof. solve_decision. Defined.

(** An awaited call of the platform: it resolves to a value, or rejects. *)
Inductive Answer (A : Type) :=
| Answered (a : A)
| Refused.
Arguments Answered {A} a.
Arguments Refused {A}.

(** The answers of expo-location to the calls that only
    [ensureLocationPermissions] and [startGeofencing] make. *)
Record LocationEnv := {
  requestForegroundPermissionsAsync : Answer Location_PermissionStatus;
  isBackgroundLocationAvailableAsync : Answer bool;
  requestBackgroundPermissionsAsync : Answer Location_PermissionStatus;
  startGeofencingAsync_rejects : bool;
}.

(** The result of [ensureLocationPermissions]. *)
Record PermissionCheck := {
  ok : bool;
  status : Location_PermissionStatus;
  bg : option Location_PermissionStatus;
}.

Definition await {A} (a : Answer A) : M A :=
  match a with
  | Answered x => ret x
  | Refused => throw
  end.

Definition ensureLocationPermissions (l : LocationEnv) : M PermissionCheck :=
  f <- await (requestForegroundPermissionsAsync l) ;;
  if negb (bool_decide (f = Granted))
  then ret {| ok := false; status := f; bg := None |}
  else
    available <- await (isBackgroundLocationAvailableAsync l) ;;
    if available : bool
    then
      r <- await (requestBackgroundPermissionsAsync l) ;;
      if negb (bool_decide (r = Granted))
      then ret {| ok := false; status := f; bg := Some r |}
      else ret {| ok := true; status := f; bg := Some r |}
    else ret {| ok := true; status := f; bg := None |}.

Definition hasGeofencingStarted : M bool :=
  try_catch Location_hasStartedGeofencingAsync (ret false).

(** [Location.startGeofencingAsync(GEOFENCE_TASK, regions)]: the regions
    go to the platform as they are. *)
Definition Location_startGeofencingAsync {Region : Type} (l : LocationEnv)
    (regions : list Region) : M unit :=
  if startGeofencingAsync_rejects l then throw
  else modify (set_geofencing true).

(** The [catch] of [startGeofencing] throws a new error in its turn. *)
Definition startGeofencing {Region : Type} (l : LocationEnv)
    (regions : list Region) : M unit :=
  p <- ensureLocationPermissions l ;;
  if negb (ok p) then throw
  else
    try_catch
      (started <- try_catch Location_hasStartedGeofencingAsync (ret false) ;;
       (if started : bool then best_effort Location_stopGeofencingAsync
        else ret tt) ;;
       Location_startGeofencingAsync l regions ;;
       flushOnce postToServer)
      throw.

Definition stopGeofencing : M unit :=
  best_effort
    (started <- try_catch Location_hasStartedGeofencingAsync (ret false) ;;
     if started : bool then Location_stopGeofencingAsync else ret tt).

(* ===================================================================== *)
(** ** stores/devRole.ts *)
(* ===================================================================== *)

Module DevRole.

Inductive Role := attendee | organizer.

Global Instance Role_eq_dec : EqDecision Role.
Proof. solve_decision. Defined.

Definition role_string (r : Role) : string :=
  match r with attendee => "attendee" | organizer => "organizer" end.

(** [val === "attendee" || val === "organizer"], with the role it names. *)
Definition role_of (val : option string) : option Role :=
  match val with
  | Some s =>
      if String.eqb s "attendee" then Some attendee
      else if String.eqb s "organizer" then Some organizer
      else None
  | None => None
  end.

Definition STORAGE_KEY : string := "@dev.roleOverride".
Definition LEGACY_ROLE_KEY : string := "rta_dev_role".

(** A value found in the configuration: a string, or something else. *)
Inductive ConfigValue :=
| ConfigString (s : string)
| ConfigOther.

(** What the build gives the module: [extra.appEnv] of the three places
    [getAppEnv] looks at ([None]: null or undefined somewhere along the
    optional chain), [__DEV__], and
    [process.env.EXPO_PUBLIC_ENABLE_DEV_SWITCH]. *)
Record Build := {
  expoConfig_appEnv : option ConfigValue;
  manifest_appEnv : option ConfigValue;
  manifest2_appEnv : option ConfigValue;
  DEV : bool;
  EXPO_PUBLIC_ENABLE_DEV_SWITCH : option string;
}.

(** [a ?? b] *)
Definition coalesce {A} (a b : option A) : option A :=
  match a with
  | Some _ => a
  | None => b
  end.

Definition getAppEnv (b : Build) : string :=
  match coalesce (expoConfig_appEnv b)
          (coalesce (manifest_appEnv b) (manifest2_appEnv b)) with
  | Some (ConfigString env) =>
      if (0 <? String.length (trim env))%nat then trim env else "internal"
  | _ => "internal"
  end.

Definition devSwitchEnabled (b : Build) : bool :=
  if String.eqb (getAppEnv b) "production" then false
  else
    DEV b ||
    match EXPO_PUBLIC_ENABLE_DEV_SWITCH b with
    | Some v => String.eqb v "1"
    | None => false
    end.

(** The state of the store, and the roles passed to
    [DeviceEventEmitter.emit(ROLE_EVENT, .)] so far, oldest first. *)
Record Store := {
  serverRole : option Role;
  roleOverride : option Role;
  emitted : list Role;
}.

Definition setServerRole (role : option Role) (st : Store) : Store :=
  {| serverRole := role; roleOverride := roleOverride st; emitted := emitted st |}.

Definition set_roleOverride (role : option Role) (st : Store) : Store :=
  {| serverRole := serverRole st; roleOverride := role; emitted := emitted st |}.

Definition emit (r : Role) (st : Store) : Store :=
  {| serverRole := serverRole st; roleOverride := roleOverride st;
     emitted := emitted st ++ [r] |}.

Definition setRoleOverride (b : Build) (role : option Role) (st : Store) : M Store :=
  if negb (devSwitchEnabled b) then ret st
  else
    let st' := set_roleOverride role st in
    best_effort
      match role with
      | Some nextRole =>
          AsyncStorage_setItem STORAGE_KEY (role_string nextRole) ;;
          AsyncStorage_setItem LEGACY_ROLE_KEY (role_string nextRole)
      | None =>
          AsyncStorage_removeItem STORAGE_KEY ;;
          AsyncStorage_removeItem LEGACY_ROLE_KEY
      end ;;
    ret match role with
        | Some nextRole => emit nextRole st'
        | None => st'
        end.

Definition clearOverride (b : Build) (st : Store) : M Store :=
  if negb (devSwitchEnabled b) then ret st
  else
    best_effort
      (AsyncStorage_removeItem STORAGE_KEY ;;
       AsyncStorage_removeItem LEGACY_ROLE_KEY) ;;
    ret (set_roleOverride None st).

Definition useEffectiveRole (b : Build) (st : Store) : Role :=
  if negb (devSwitchEnabled b) then default attendee (serverRole st)
  else default attendee (coalesce (roleOverride st) (serverRole st)).

Definition restoreDevRoleOverride (b : Build) (st : Store) : M Store :=
  if negb (devSwitchEnabled b) then ret st
  else
    try_catch
      (val <- AsyncStorage_getItem STORAGE_KEY ;;
       val <- match role_of val with
              | Some _ => ret val
              | None => AsyncStorage_getItem LEGACY_ROLE_KEY
              end ;;
       match role_of val with
       | Some r => setRoleOverride b (Some r) st
       | None => ret st
       end)
      (ret st).

Definition useIsOrganizer (b : Build) (st : Store) : bool :=
  bool_decide (useEffectiveRole b st = organizer).

Definition useIsAttendee (b : Build) (st : Store) : bool :=
  bool_decide (useEffectiveRole b st = attendee).

End DevRole.

(* ===================================================================== *)
(** ** lib/avatar.ts: the square crop *)
(* ===================================================================== *)

Module Avatar.

(** The actions handed to [ImageManipulator.manipulateAsync]. *)
Inductive Action :=
| Crop (originX originY width height : Z)
| Resize (width : Z) (height : option Z).

(** A picked image; the sizes are pixel counts. *)
Record PickResult := {
  uri : string;
  width : Z;
  height : Z;
}.

(** The actions [processToSquare512Jpeg] asks for. *)
Definition actions (input : PickResult) : list Action :=
  let w := width input in
  let h := height input in
  if (w =? 0) || (h =? 0) || (w <=? 0) || (h <=? 0)
  then [Resize 512 None]
  else
    let size := Z.min w h in
    let rawCropX := (w - size) / 2 in
    let rawCropY := (h - size) / 2 in
    let cropX := Z.max 0 rawCropX in
    let cropY := Z.max 0 rawCropY in
    [Crop cropX cropY size size; Resize 512 (Some 512)].

(** [manipulateAsync] is the answer of the image library to a source and
    its actions (always compressed to JPEG at 0.8); when it rejects, the
    original image is returned. *)
Definition processToSquare512Jpeg
    (manipulateAsync : string -> list Action -> Answer string)
    (input : PickResult) : string :=
  match manipulateAsync (uri input) (actions input) with
  | Answered result => result
  | Refused => uri input
  end.

End Avatar.

(** The document [setActiveEventMeta] writes for event [id]. *)
Definition meta_doc (id : string) (end_utc : option string) (saved_at : string) : json :=
  JObj [("event_id", JStr id);
        ("active_event_end_utc",
         match end_utc with
         | Some s => if truthy s then JStr s else JNull
         | None => JNull
         end);
        ("saved_at", JStr saved_at)].

(** The device without its meta record. *)
Definition without_meta (w : World) : World :=
  set_storage (delete ACTIVE_EVENT_META_KEY (storage w)) w.

(** More devices, signals, builds and answers, for the helpers, the role
    store and the avatar. *)
Module Cases.
(** A device whose meta record is not JSON and whose legacy key holds E9. *)
Definition corrupt_meta : World :=
  set_storage
    (<[ACTIVE_EVENT_META_KEY := "not json"]> (<[ACTIVE_EVENT_KEY := "E9"]> ∅))
    Scenario.blank.

(** A device whose marker is not JSON. *)
Definition corrupt_marker : World :=
  set_storage (<[LAST_EVENT_KEY := "not json"]> ∅) Scenario.blank.

(** A signal that carries an error without message. *)
Definition error_signal : TaskBody :=
  {| data := None; error := Some {| message := None |} |}.

(** The outside world of [Scenario.calm], with a permission check of the
    notifications that fails. *)
Definition permission_check_fails (now : Z) : Env :=
  {| rejects := fun _ => false;
     Date_now := fun _ => now;
     rpc_reply := fun _ _ => Resolved None;
     insert_reply := fun _ _ => Resolved None;
     hasStartedGeofencingAsync_rejects := false;
     stopGeofencingAsync_rejects := false;
     notiAvailable := true;
     getPermissionsAsync := PermissionRejected;
     scheduleNotificationAsync_rejects := false |}.

(** The device of [Scenario.after_enter] when every delivery failed. *)
Definition after_offline_enter : World :=
  snd (GEOFENCE_TASK (H := runtime) (Scenario.signal Enter "venue")
         (Scenario.backend (Rejected NetworkError) (Rejected NetworkError)
            Scenario.evening)
         (Scenario.armed "E1" (Some Scenario.two_hours_after))).


Definition background_denied : LocationEnv :=
  {| requestForegroundPermissionsAsync := Answered Granted;
     isBackgroundLocationAvailableAsync := Answered true;
     requestBackgroundPermissionsAsync := Answered Denied;
     startGeofencingAsync_rejects := false |}.

Definition start_rejected : LocationEnv :=
  {| requestForegroundPermissionsAsync := Answered Granted;
     isBackgroundLocationAvailableAsync := Answered false;
     requestBackgroundPermissionsAsync := Refused;
     startGeofencingAsync_rejects := true |}.

(** A development build, and a production build that also has [__DEV__]
    and the environment flag set. *)
Definition dev_build : DevRole.Build :=
  {| DevRole.expoConfig_appEnv := None;
     DevRole.manifest_appEnv := None;
     DevRole.manifest2_appEnv := None;
     DevRole.DEV := true;
     DevRole.EXPO_PUBLIC_ENABLE_DEV_SWITCH := None |}.

Definition production_build : DevRole.Build :=
  {| DevRole.expoConfig_appEnv := Some (DevRole.ConfigString " production ");
     DevRole.manifest_appEnv := None;
     DevRole.manifest2_appEnv := None;
     DevRole.DEV := true;
     DevRole.EXPO_PUBLIC_ENABLE_DEV_SWITCH := Some "1" |}.

(** The store of a signed-in attendee, without override. *)
Definition signed_in : DevRole.Store :=
  {| DevRole.serverRole := Some DevRole.attendee;
     DevRole.roleOverride := None;
     DevRole.emitted := [] |}.

(** A device that holds the legacy role key only. *)
Definition legacy_role : World :=
  set_storage (<[DevRole.LEGACY_ROLE_KEY := "organizer"]> ∅) Scenario.blank.

(** A landscape photo. *)
Definition landscape : Avatar.PickResult :=
  {| Avatar.uri := "file:///photo.jpg"; Avatar.width := 1201; Avatar.height := 800 |}.
End Cases.

(** A persisted meta record on a concrete device, by evaluation. *)
Ltac persisted :=
  eexists _, _;
  split; [vm_compute; reflexivity|];
  split; [let Hraw := fresh in intros Hraw; vm_compute in Hraw; discriminate Hraw|];
  split; [vm_compute; reflexivity|];
  split; vm_compute; reflexivity.

(** Unfolding of the monad and of the calls on the store. *)
Ltac run :=
  cbv [bind ret throw try_catch ask get modify best_effort
       AsyncStorage_getItem AsyncStorage_setItem AsyncStorage_removeItem
       JSON_parse_or_throw].

(* ===================================================================== *)
(** ** Basic facts *)
(* ===================================================================== *)

Lemma truthy_true (s : string) : truthy s = true <-> s <> "".
Proof.
  unfold truthy. destruct (String.eqb_spec s ""); simpl; split; congruence.
Qed.

Lemma truthy_false (s : string) : truthy s = false <-> s = "".
Proof.
  unfold truthy. destruct (String.eqb_spec s ""); simpl; split; congruence.
Qed.

Lemma set_storage_same (w : World) : set_storage (storage w) w = w.
Proof. by destruct w. Qed.

Lemma key_meta_last : ACTIVE_EVENT_META_KEY <> LAST_EVENT_KEY.
Proof. discriminate. Qed.

Lemma key_legacy_last : ACTIVE_EVENT_KEY <> LAST_EVENT_KEY.
Proof. discriminate. Qed.

Lemma key_meta_legacy : ACTIVE_EVENT_META_KEY <> ACTIVE_EVENT_KEY.
Proof. discriminate. Qed.

Section Debounce.
Context `{Platform}.

(** [shouldDebounce], path by path. *)
Lemma shouldDebounce_run (d : Direction) (e : Env) (w : World) :
  shouldDebounce d e w =
    if rejects e (GetItem LAST_EVENT_KEY) then (Normal false, w)
    else
      match read_marker w with
      | None => (Normal false, w)
      | Some last =>
          if same_direction last d && within_window last (Date_now e Clock_shouldDebounce)
          then (Normal true, w)
          else if rejects e (SetItem LAST_EVENT_KEY) then (Normal false, w)
          else (Normal false, with_marker d (Date_now e Clock_shouldDebounce) w)
      end.
Proof.
  unfold shouldDebounce, read_marker, with_marker. run.
  destruct (rejects e (GetItem LAST_EVENT_KEY)); [done|].
  destruct (storage w !! LAST_EVENT_KEY) as [r|]; simpl.
  - destruct (truthy r); simpl.
    + destruct (JSON_parse r) as [last|]; [|done].
      destruct (same_direction last d && within_window last _); [done|].
      by destruct (rejects e (SetItem LAST_EVENT_KEY)).
    + by destruct (rejects e (SetItem LAST_EVENT_KEY)).
  - by destruct (rejects e (SetItem LAST_EVENT_KEY)).
Qed.

Lemma same_direction_marker (d0 d : Direction) (at_iso : string) :
  same_direction (marker_doc d0 at_iso) d = bool_decide (d0 = d).
Proof. by destruct d0, d. Qed.

Lemma within_window_marker (d0 : Direction) (at_iso : string) (t now : Z) :
  Date_parse at_iso = Some t ->
  within_window (marker_doc d0 at_iso) now = bool_decide (now - t < 30000).
Proof.
  intros Ht. unfold within_window. simpl. rewrite Ht. unfold DEBOUNCE_SEC.
  destruct (Z.ltb_spec (now - t) (30 * 1000)); case_bool_decide; done || lia.
Qed.

Lemma read_marker_stored (w : World) (d0 : Direction) (raw at_iso : string) :
  storage w !! LAST_EVENT_KEY = Some raw -> raw <> "" ->
  JSON_parse raw = Some (marker_doc d0 at_iso) ->
  read_marker w = Some (marker_doc d0 at_iso).
Proof.
  intros Hraw Hne Hparse. unfold read_marker. rewrite Hraw.
  apply truthy_true in Hne. by rewrite Hne.
Qed.

Lemma read_marker_absent (w : World) :
  storage w !! LAST_EVENT_KEY = None -> read_marker w = Some JNull.
Proof. intros Hraw. unfold read_marker. by rewrite Hraw. Qed.

(** C9: a failure of the store never suppresses a transition.  When the
    read of the marker is rejected, [shouldDebounce] returns false; when
    the write is rejected it returns false as well, unless it never wrote
    because a recent marker of the same direction, successfully read,
    suppressed the signal.  It never throws. *)
Theorem shouldDebounce_storage_failure (d : Direction) (e : Env) (w : World) :
  (rejects e (GetItem LAST_EVENT_KEY) = true ->
   shouldDebounce d e w = (Normal false, w)) /\
  (rejects e (SetItem LAST_EVENT_KEY) = true ->
   shouldDebounce d e w = (Normal false, w) \/
   (rejects e (GetItem LAST_EVENT_KEY) = false /\ suppressing_marker d e w /\
    shouldDebounce d e w = (Normal true, w))) /\
  (fst (shouldDebounce d e w) = Normal true ->
   rejects e (GetItem LAST_EVENT_KEY) = false /\ suppressing_marker d e w).
Proof.
  rewrite shouldDebounce_run. unfold suppressing_marker.
  split; [|split].
  - by intros ->.
  - intros ->. destruct (rejects e (GetItem LAST_EVENT_KEY)); [by left|].
    destruct (read_marker w) as [last|]; [|by left].
    destruct (same_direction last d) eqn:Hd; [|by left].
    destruct (within_window last _) eqn:Hw; [|by left].
    right. simpl. split; [done|]. split; [|done]. by exists last.
  - destruct (rejects e (GetItem LAST_EVENT_KEY)); [done|].
    destruct (read_marker w) as [last|]; [|done].
    destruct (same_direction last d) eqn:Hd; simpl.
    + destruct (within_window last _) eqn:Hw; simpl; [by eauto|].
      by destruct (rejects e (SetItem LAST_EVENT_KEY)).
    + by destruct (rejects e (SetItem LAST_EVENT_KEY)).
Qed.
End Debounce.

Section Context_.
Context `{Platform}.

Lemma setActiveEventMeta_null_run (e : Env) (w : World) :
  setActiveEventMeta_null e w = (Normal tt, cleared e w).
Proof.
  unfold setActiveEventMeta_null, cleared. run.
  destruct (rejects e (RemoveItem ACTIVE_EVENT_META_KEY)),
           (rejects e (RemoveItem ACTIVE_EVENT_KEY)); simpl;
    by rewrite ?set_storage_same.
Qed.

Lemma safeStopGeofencingIfStarted_run (e : Env) (w : World) :
  safeStopGeofencingIfStarted e w = (Normal tt, stopped e w).
Proof.
  unfold safeStopGeofencingIfStarted, stopped,
    Location_hasStartedGeofencingAsync, Location_stopGeofencingAsync. run.
  destruct (hasStartedGeofencingAsync_rejects e); [done|].
  destruct (geofencing w); [|done].
  by destruct (stopGeofencingAsync_rejects e).
Qed.

Lemma getActiveEventMetaUnsafe_run (e : Env) (w : World) :
  getActiveEventMetaUnsafe e w = (Normal (read_meta e w), w).
Proof.
  unfold getActiveEventMetaUnsafe, read_meta, decode_meta, safeIsoNow. run.
  destruct (rejects e (GetItem ACTIVE_EVENT_META_KEY)); [done|].
  destruct (storage w !! ACTIVE_EVENT_META_KEY) as [raw|]; [|done].
  destruct (truthy raw); [|done]. simpl.
  destruct (JSON_parse raw) as [parsed|]; [|done].
  destruct (negb (json_truthy parsed) || negb (typeof_object parsed)); [done|].
  destruct (negb (truthy _)); [done|].
  by destruct (nullish (get_prop parsed "saved_at")).
Qed.

Lemma getActiveEventId_run (e : Env) (w : World) :
  getActiveEventId e w =
    match read_meta e w with
    | Some m =>
        match parseUtcMs (ActiveEventMeta.active_event_end_utc m) with
        | Some endMs =>
            if endMs <? Date_now e Clock_getActiveEventId
            then (Normal None, stopped e (cleared e w))
            else (Normal (Some (ActiveEventMeta.event_id m)), w)
        | None => (Normal (Some (ActiveEventMeta.event_id m)), w)
        end
    | None => (Normal (read_legacy e w), w)
    end.
Proof.
  unfold getActiveEventId. unfold bind at 1.
  rewrite getActiveEventMetaUnsafe_run.
  destruct (read_meta e w) as [m|].
  - destruct (parseUtcMs _) as [endMs|]; [|done].
    unfold bind at 1, ask. destruct (endMs <? _); [|done].
    unfold setActiveEventMeta. unfold bind.
    rewrite setActiveEventMeta_null_run, safeStopGeofencingIfStarted_run. done.
  - unfold read_legacy. run.
    destruct (rejects e (GetItem ACTIVE_EVENT_KEY)); [done|].
    destruct (storage w !! ACTIVE_EVENT_KEY) as [s|]; [|done].
    destruct (truthy s); [|done]. simpl.
    by destruct (truthy (trim s)).
Qed.

Lemma read_meta_persisted (e : Env) (w : World) (id : string) (end_utc : option string) :
  persisted_meta w id end_utc ->
  rejects e (GetItem ACTIVE_EVENT_META_KEY) = false ->
  trim id <> "" ->
  exists saved,
    read_meta e w = Some {| ActiveEventMeta.event_id := trim id;
                            ActiveEventMeta.active_event_end_utc := end_utc;
                            ActiveEventMeta.saved_at := saved |}.
Proof.
  intros (raw & props & Hraw & Hne & Hparse & Hid & Hend) Hget Htrim.
  unfold read_meta. rewrite Hget, Hraw.
  apply truthy_true in Hne. rewrite Hne, Hparse.
  unfold decode_meta. simpl. rewrite Hid, Hend. simpl.
  apply truthy_true in Htrim. rewrite Htrim. simpl.
  eexists. f_equal. f_equal. by destruct end_utc.
Qed.

Lemma read_meta_absent (e : Env) (w : World) :
  storage w !! ACTIVE_EVENT_META_KEY = None -> read_meta e w = None.
Proof.
  intros Hraw. unfold read_meta. rewrite Hraw.
  by destruct (rejects e (GetItem ACTIVE_EVENT_META_KEY)).
Qed.

(** What the context yields depends on its two keys only. *)
Lemma read_meta_frame (e : Env) (w1 w2 : World) :
  storage w1 !! ACTIVE_EVENT_META_KEY = storage w2 !! ACTIVE_EVENT_META_KEY ->
  read_meta e w1 = read_meta e w2.
Proof. intros Heq. unfold read_meta. by rewrite Heq. Qed.

Lemma read_legacy_frame (e : Env) (w1 w2 : World) :
  storage w1 !! ACTIVE_EVENT_KEY = storage w2 !! ACTIVE_EVENT_KEY ->
  read_legacy e w1 = read_legacy e w2.
Proof. intros Heq. unfold read_legacy. by rewrite Heq. Qed.

Lemma getActiveEventId_frame (e : Env) (w1 w2 : World) :
  storage w1 !! ACTIVE_EVENT_META_KEY = storage w2 !! ACTIVE_EVENT_META_KEY ->
  storage w1 !! ACTIVE_EVENT_KEY = storage w2 !! ACTIVE_EVENT_KEY ->
  fst (getActiveEventId e w1) = fst (getActiveEventId e w2).
Proof.
  intros Hmeta Hlegacy. rewrite !getActiveEventId_run.
  rewrite (read_meta_frame e w1 w2 Hmeta), (read_legacy_frame e w1 w2 Hlegacy).
  destruct (read_meta e w2) as [m|]; [|done].
  destruct (parseUtcMs _) as [endMs|]; [|done].
  by destruct (endMs <? _).
Qed.

Lemma stopped_storage (e : Env) (w : World) : storage (stopped e w) = storage w.
Proof.
  unfold stopped. destruct (hasStartedGeofencingAsync_rejects e); [done|].
  destruct (geofencing w); [|done]. by destruct (stopGeofencingAsync_rejects e).
Qed.

Lemma cleared_accepted (e : Env) (w : World) :
  rejects e (RemoveItem ACTIVE_EVENT_META_KEY) = false ->
  rejects e (RemoveItem ACTIVE_EVENT_KEY) = false ->
  storage (cleared e w)
    = delete ACTIVE_EVENT_KEY (delete ACTIVE_EVENT_META_KEY (storage w)).
Proof. intros Hm Hl. unfold cleared. by rewrite Hm, Hl. Qed.

Lemma parseUtcMs_date (s : string) (t : Z) :
  s <> "" -> Date_parse s = Some t -> parseUtcMs (Some s) = Some t.
Proof. intros Hs Ht. simpl. apply truthy_true in Hs. by rewrite Hs. Qed.

(** A context with neither key yields no event, whatever the store and the
    clock answer, and reading it changes nothing. *)
Lemma getActiveEventId_cleared (e : Env) (w : World) :
  storage w !! ACTIVE_EVENT_META_KEY = None ->
  storage w !! ACTIVE_EVENT_KEY = None ->
  getActiveEventId e w = (Normal None, w).
Proof.
  intros Hmeta Hlegacy. rewrite getActiveEventId_run, read_meta_absent by done.
  unfold read_legacy. rewrite Hlegacy.
  by destruct (rejects e (GetItem ACTIVE_EVENT_KEY)).
Qed.

(** C3: auto-expiry and the reading of the context.  With a persisted meta
    record whose end parses to an instant before now, [getActiveEventId]
    returns absent, removes both keys of the context (a later read finds it
    cleared and returns absent) and stops the geofencing when the platform
    lets it.  With a meta record whose end is null, unparseable or not yet
    passed it returns the stored event id and changes nothing.  Without a
    meta record it returns what the legacy key holds. *)
Theorem getActiveEventId_spec (e : Env) (w : World) :
  let now := Date_now e Clock_getActiveEventId in
  (forall id s endMs,
      persisted_meta w id (Some s) -> trim id <> "" ->
      rejects e (GetItem ACTIVE_EVENT_META_KEY) = false ->
      s <> "" -> Date_parse s = Some endMs -> endMs < now ->
      exists w',
        getActiveEventId e w = (Normal None, w') /\
        w' = stopped e (cleared e w) /\
        (rejects e (RemoveItem ACTIVE_EVENT_META_KEY) = false ->
         rejects e (RemoveItem ACTIVE_EVENT_KEY) = false ->
         storage w' !! ACTIVE_EVENT_META_KEY = None /\
         storage w' !! ACTIVE_EVENT_KEY = None /\
         forall e', getActiveEventId e' w' = (Normal None, w')) /\
        (hasStartedGeofencingAsync_rejects e = false ->
         stopGeofencingAsync_rejects e = false ->
         geofencing w' = false)) /\
  (forall id end_utc,
      persisted_meta w id end_utc -> trim id <> "" ->
      rejects e (GetItem ACTIVE_EVENT_META_KEY) = false ->
      (end_utc = None \/
       (exists s, end_utc = Some s /\ Date_parse s = None) \/
       (exists s endMs, end_utc = Some s /\ Date_parse s = Some endMs /\ now <= endMs)) ->
      getActiveEventId e w = (Normal (Some (trim id)), w)) /\
  (storage w !! ACTIVE_EVENT_META_KEY = None ->
   rejects e (GetItem ACTIVE_EVENT_KEY) = false ->
   (forall legacy,
       storage w !! ACTIVE_EVENT_KEY = Some legacy -> trim legacy <> "" ->
       getActiveEventId e w = (Normal (Some (trim legacy)), w)) /\
   (storage w !! ACTIVE_EVENT_KEY = None ->
    getActiveEventId e w = (Normal None, w))).
Proof.
  intros now. split; [|split].
  - intros id s endMs Hmeta Hid Hget Hs Hparse Hpast.
    destruct (read_meta_persisted e w id (Some s) Hmeta Hget Hid) as [saved Hread].
    exists (stopped e (cleared e w)).
    split; [|split; [done|split]].
    + rewrite getActiveEventId_run, Hread. simpl ActiveEventMeta.active_event_end_utc.
      rewrite (parseUtcMs_date s endMs Hs Hparse).
      fold now. by destruct (Z.ltb_spec endMs now); [|lia].
    + intros Hrm Hrl.
      assert (storage (stopped e (cleared e w)) !! ACTIVE_EVENT_META_KEY = None) as Hm.
      { rewrite stopped_storage, cleared_accepted by done.
        rewrite lookup_delete_ne by (symmetry; apply key_meta_legacy).
        apply lookup_delete_eq. }
      assert (storage (stopped e (cleared e w)) !! ACTIVE_EVENT_KEY = None) as Hl.
      { rewrite stopped_storage, cleared_accepted by done.
        apply lookup_delete_eq. }
      split; [done|split; [done|]].
      intros e'. by apply getActiveEventId_cleared.
    + intros Hh Hs'. unfold stopped. rewrite Hh, Hs'.
      by destruct (geofencing (cleared e w)) eqn:Hg.
  - intros id end_utc Hmeta Hid Hget Hend.
    destruct (read_meta_persisted e w id end_utc Hmeta Hget Hid) as [saved Hread].
    rewrite getActiveEventId_run, Hread. simpl ActiveEventMeta.active_event_end_utc.
    simpl ActiveEventMeta.event_id.
    destruct Hend as [->|[(s & -> & Hparse)|(s & endMs & -> & Hparse & Hle)]].
    + done.
    + simpl. rewrite Hparse. by destruct (truthy s).
    + simpl. rewrite Hparse. destruct (truthy s); [|done].
      fold now. by destruct (Z.ltb_spec endMs now); [lia|].
  - intros Hmeta Hget. split.
    + intros legacy Hlegacy Htrim.
      rewrite getActiveEventId_run, read_meta_absent by done.
      unfold read_legacy. rewrite Hget, Hlegacy.
      assert (legacy <> "") as Hne by (intros ->; by apply Htrim).
      apply truthy_true in Hne, Htrim. by rewrite Hne, Htrim.
    + intros Hlegacy. by apply getActiveEventId_cleared.
Qed.

Lemma trim_empty : trim "" = "".
Proof. reflexivity. Qed.

Lemma normalized_blank (id : string) :
  trim id = "" -> (if truthy id then trim id else "") = "".
Proof. intros Hid. by destruct (truthy id). Qed.

(** C7, as the code has it: a blank event id clears the context.  Both
    [setActiveEventId] and [setActiveEventMeta], called with an event id
    that is blank after trimming, remove the meta record and the legacy
    key (each as far as the store accepts the removal); so does
    [setActiveEventId(null)]. *)
Theorem setActiveEvent_blank_clears (e : Env) (w : World) (id : string)
    (end_utc : option string) :
  trim id = "" ->
  setActiveEventId (Some id) e w = (Normal tt, cleared e w) /\
  setActiveEventMeta (Some {| eventId := id; endUtc := end_utc |}) e w
    = (Normal tt, cleared e w) /\
  setActiveEventId None e w = (Normal tt, cleared e w) /\
  (rejects e (RemoveItem ACTIVE_EVENT_META_KEY) = false ->
   rejects e (RemoveItem ACTIVE_EVENT_KEY) = false ->
   storage (cleared e w) !! ACTIVE_EVENT_META_KEY = None /\
   storage (cleared e w) !! ACTIVE_EVENT_KEY = None).
Proof.
  intros Hid. repeat split.
  - unfold setActiveEventId. rewrite (normalized_blank id Hid). simpl.
    apply setActiveEventMeta_null_run.
  - unfold setActiveEventMeta. cbn [eventId]. rewrite Hid. simpl.
    apply setActiveEventMeta_null_run.
  - apply setActiveEventMeta_null_run.
  - rewrite cleared_accepted by done.
    rewrite lookup_delete_ne by (symmetry; apply key_meta_legacy).
    apply lookup_delete_eq.
  - rewrite cleared_accepted by done. apply lookup_delete_eq.
Qed.

(** C8: a redundant call keeps the known end time.  When the persisted
    context holds event id E with an end time, [setActiveEventId(E)] leaves
    the meta record as it is and only writes the legacy key again. *)
Theorem setActiveEventId_preserves_end (e : Env) (w : World)
    (arg stored_id s : string) :
  persisted_meta w stored_id (Some s) -> s <> "" ->
  trim stored_id = trim arg -> trim arg <> "" ->
  rejects e (GetItem ACTIVE_EVENT_META_KEY) = false ->
  exists w',
    setActiveEventId (Some arg) e w = (Normal tt, w') /\
    storage w' !! ACTIVE_EVENT_META_KEY = storage w !! ACTIVE_EVENT_META_KEY /\
    persisted_meta w' stored_id (Some s) /\
    w' = if rejects e (SetItem ACTIVE_EVENT_KEY) then w
         else set_storage (<[ACTIVE_EVENT_KEY := trim arg]> (storage w)) w.
Proof.
  intros Hmeta Hs Hsame Harg Hget.
  assert (trim stored_id <> "") as Hstored by congruence.
  destruct (read_meta_persisted e w stored_id (Some s) Hmeta Hget Hstored)
    as [saved Hread].
  assert (arg <> "") as Hne by (intros ->; by apply Harg).
  assert (setActiveEventId (Some arg) e w
          = (Normal tt,
             if rejects e (SetItem ACTIVE_EVENT_KEY) then w
             else set_storage (<[ACTIVE_EVENT_KEY := trim arg]> (storage w)) w))
    as Hrun.
  { unfold setActiveEventId.
    apply truthy_true in Hne, Harg, Hs. rewrite Hne, Harg. simpl.
    unfold bind at 1. rewrite getActiveEventMetaUnsafe_run, Hread. simpl.
    rewrite Hsame, String.eqb_refl, Hs. simpl. run.
    by destruct (rejects e (SetItem ACTIVE_EVENT_KEY)). }
  eexists. split; [exact Hrun|].
  destruct (rejects e (SetItem ACTIVE_EVENT_KEY)); [done|].
  assert (forall v, storage (set_storage (<[ACTIVE_EVENT_KEY := v]> (storage w)) w)
                      !! ACTIVE_EVENT_META_KEY
                    = storage w !! ACTIVE_EVENT_META_KEY) as Hframe.
  { intros v. simpl. apply lookup_insert_ne. symmetry. apply key_meta_legacy. }
  split; [apply Hframe|]. split; [|done].
  destruct Hmeta as (raw & props & Hraw & Hrest).
  exists raw, props. by rewrite Hframe.
Qed.
End Context_.

Section Delivery.
Context `{Platform}.

(** [postToServer], path by path. *)
Lemma postToServer_run (p : GeoEventPayload) (e : Env) (w : World) :
  postToServer p e w =
    match rpc_reply e (length (requests w)) p with
    | Resolved None =>
        (Normal true, set_requests (requests w ++ [Rpc p]) w)
    | Rejected _ =>
        (Normal false, set_requests (requests w ++ [Rpc p]) w)
    | Resolved (Some _) =>
        (Normal match insert_reply e (S (length (requests w))) p with
                | Resolved None => true
                | _ => false
                end,
         set_requests (requests w ++ [Rpc p; Insert p]) w)
    end.
Proof.
  unfold postToServer, supabase_rpc, supabase_insert. run.
  destruct (rpc_reply e (length (requests w)) p) as [[reason|]|reason]; [|done..].
  simpl. rewrite length_app. simpl. rewrite Nat.add_1_r.
  destruct (insert_reply e (S (length (requests w))) p) as [[reason'|]|reason'];
    simpl; by rewrite <- app_assoc.
Qed.

(** What [postToServer] leaves alone. *)
Lemma postToServer_frame (p : GeoEventPayload) (e : Env) (w : World) :
  exists ok sent,
    postToServer p e w = (Normal ok, set_requests (requests w ++ sent) w) /\
    sent <> [].
Proof.
  rewrite postToServer_run.
  destruct (rpc_reply e (length (requests w)) p) as [[reason|]|reason];
    eexists _, _; split; try reflexivity; done.
Qed.

(** [postToServer] with the requests it sends and the answer it gives;
    the answer depends on the requests sent before and on nothing else of
    the device. *)
Lemma postToServer_sent (p : GeoEventPayload) (e : Env) (w : World) :
  exists ok sent,
    postToServer p e w = (Normal ok, set_requests (requests w ++ sent) w) /\
    delivery p sent /\ answered e (requests w) p ok.
Proof.
  rewrite postToServer_run.
  destruct (rpc_reply e (length (requests w)) p) as [[reason|]|reason] eqn:Hrpc;
    eexists _, _; (split; [reflexivity|]);
    (split; [first [by left|by right]|]);
    intros w0 Hw0; by rewrite postToServer_run, Hw0, Hrpc.
Qed.

(** C6, as the code has it: [postToServer] first sends the remote
    procedure call and nothing else before it.  It falls back to the
    insert whenever that call resolves with an error, whatever the reason
    of the error, and then answers true exactly when the insert resolves
    without error.  It answers true when the call resolves without error
    and false when the call rejects, sending nothing more in both cases.
    It never throws and touches nothing but the requests sent. *)
Theorem postToServer_fallback (p : GeoEventPayload) (e : Env) (w : World) :
  exists ok sent,
    postToServer p e w = (Normal ok, set_requests (requests w ++ sent) w) /\
    match rpc_reply e (length (requests w)) p with
    | Resolved None => sent = [Rpc p] /\ ok = true
    | Rejected _ => sent = [Rpc p] /\ ok = false
    | Resolved (Some _) =>
        sent = [Rpc p; Insert p] /\
        (ok = true <-> insert_reply e (S (length (requests w))) p = Resolved None)
    end.
Proof.
  rewrite postToServer_run.
  destruct (rpc_reply e (length (requests w)) p) as [[reason|]|reason].
  - eexists _, _. split; [reflexivity|]. split; [done|].
    destruct (insert_reply e (S (length (requests w))) p) as [[reason'|]|reason'];
      split; done.
  - by eexists _, _.
  - by eexists _, _.
Qed.
End Delivery.

Section Queue.
Context {S : Type} (deliver : GeoEventPayload -> S -> bool * S).

Lemma flushOnce_recorded (q : list GeoEventPayload) (s : S)
    (log : list (GeoEventPayload * bool)) :
  exists delivered remaining s',
    SyncQueue.flushOnce deliver q s = (remaining, s') /\
    q = delivered ++ remaining /\
    SyncQueue.flushOnce (SyncQueue.recording deliver) q (s, log)
      = (remaining,
         (s', log ++ map (fun p => (p, true)) delivered
                  ++ match remaining with
                     | [] => []
                     | p :: _ => [(p, false)]
                     end)).
Proof.
  revert s log. induction q as [|p q IH]; intros s log.
  - exists [], [], s. simpl. by rewrite app_nil_r.
  - simpl. unfold SyncQueue.recording at 1. simpl.
    destruct (deliver p s) as [[|] s1] eqn:Hp.
    + destruct (IH s1 (log ++ [(p, true)]))
        as (delivered & remaining & s' & Hrun & Hq & Hlog).
      exists (p :: delivered), remaining, s'.
      split; [done|]. split; [by rewrite Hq|].
      rewrite Hlog. simpl. by rewrite <- app_assoc.
    + exists [], (p :: q), s1. done.
Qed.

(** C5: one pass of [flushOnce].  The records attempted are a prefix of
    the queue, attempted in queue order; the records removed are those
    whose delivery succeeded; the first failed delivery is the last
    attempt of the pass, and the record it was for stays at the head of
    the queue with all later records behind it.  Recording the attempts
    does not change what the pass does. *)
Theorem flushOnce_fifo (q : list GeoEventPayload) (s : S) :
  exists delivered remaining s',
    SyncQueue.flushOnce deliver q s = (remaining, s') /\
    q = delivered ++ remaining /\
    SyncQueue.flushOnce (SyncQueue.recording deliver) q (s, [])
      = (remaining,
         (s', map (fun p => (p, true)) delivered
                ++ match remaining with
                   | [] => []
                   | p :: _ => [(p, false)]
                   end)).
Proof. apply (flushOnce_recorded q s []). Qed.
End Queue.

(* ===================================================================== *)
(** ** The idempotency key *)
(* ===================================================================== *)

Lemma string_app_cons (x : ascii) (a b : string) :
  String x a +:+ b = String x (a +:+ b).
Proof. reflexivity. Qed.

Lemma string_app_nil (b : string) : "" +:+ b = b.
Proof. reflexivity. Qed.

Lemma string_app_assoc (a b c : string) : (a +:+ b) +:+ c = a +:+ (b +:+ c).
Proof.
  induction a as [|x a IH]; [done|]. by rewrite !string_app_cons, IH.
Qed.

Lemma has_bar_app (a b : string) : has_bar (a +:+ b) = has_bar a || has_bar b.
Proof.
  induction a as [|x a IH]; [done|]. rewrite string_app_cons. simpl.
  by destruct (Ascii.eqb x "|").
Qed.

Lemma has_bar_after (a b : string) : has_bar (a +:+ String "|" b) = true.
Proof. rewrite has_bar_app. simpl. apply orb_true_r. Qed.

(** Two strings cut at their last separator. *)
Lemma split_at_last_bar (x x' n n' : string) :
  has_bar n = false -> has_bar n' = false ->
  x +:+ String "|" n = x' +:+ String "|" n' ->
  x = x' /\ n = n'.
Proof.
  intros Hn Hn'. revert x'. induction x as [|c x IH]; intros [|c' x'] Heq;
    rewrite ?string_app_cons, ?string_app_nil in Heq.
  - by injection Heq as ->.
  - injection Heq as <- ->. by rewrite has_bar_after in Hn.
  - injection Heq as -> <-. by rewrite has_bar_after in Hn'.
  - injection Heq as -> Heq.
    destruct (IH x' Heq) as [-> ->]. done.
Qed.

(** Two strings cut at their first separator. *)
Lemma split_at_first_bar (x x' n n' : string) :
  has_bar x = false -> has_bar x' = false ->
  x +:+ String "|" n = x' +:+ String "|" n' ->
  x = x' /\ n = n'.
Proof.
  revert x'. induction x as [|c x IH]; intros [|c' x'] Hx Hx' Heq;
    rewrite ?string_app_cons, ?string_app_nil in Heq.
  - by injection Heq as ->.
  - injection Heq as <- _. by simpl in Hx'.
  - injection Heq as -> _. by simpl in Hx.
  - injection Heq as -> Heq.
    simpl in Hx, Hx'. destruct (Ascii.eqb c' "|"); [done|].
    destruct (IH x' Hx Hx' Heq) as [-> ->]. done.
Qed.

Lemma numeric_char_digit (x : N) : numeric_char (pretty_N_char x) = true.
Proof. unfold pretty_N_char. by repeat case_match. Qed.

Lemma pretty_N_go_numeric (x : N) (s : string) :
  all_numeric s = true -> all_numeric (pretty_N_go x s) = true.
Proof.
  revert s. induction (N.lt_wf_0 x) as [x _ IH]; intros s Hs.
  assert (x = 0 \/ 0 < x)%N as [->|Hpos] by lia.
  - by rewrite pretty_N_go_0.
  - rewrite pretty_N_go_step by done. apply IH.
    + by apply N.div_lt.
    + cbn. by rewrite numeric_char_digit.
Qed.

Lemma pretty_N_numeric (x : N) : all_numeric (pretty x) = true.
Proof.
  unfold pretty, pretty_N. case_decide; [done|]. by apply pretty_N_go_numeric.
Qed.

Lemma pretty_Z_numeric (z : Z) : all_numeric (pretty z) = true.
Proof.
  destruct z as [|p|p]; [done|apply pretty_N_numeric|].
  unfold pretty, pretty_Z. cbn. apply pretty_N_numeric.
Qed.

Lemma numeric_no_bar (s : string) : all_numeric s = true -> has_bar s = false.
Proof.
  induction s as [|c s IH]; [done|]. cbn. intros [Hc Hs]%andb_true_iff.
  rewrite (IH Hs). destruct (Ascii.eqb_spec c "|") as [->|]; done.
Qed.

Lemma number_string_no_bar (n : option Z) : has_bar (number_string n) = false.
Proof.
  destruct n as [z|]; [|done]. apply numeric_no_bar, pretty_Z_numeric.
Qed.

Lemma number_string_inj (a b : option Z) :
  number_string a = number_string b -> a = b.
Proof.
  destruct a as [x|], b as [y|]; simpl; intros Heq.
  - f_equal. by apply (inj pretty).
  - pose proof (pretty_Z_numeric x) as Hx. by rewrite Heq in Hx.
  - pose proof (pretty_Z_numeric y) as Hy. by rewrite <- Heq in Hy.
  - done.
Qed.

Lemma dir_string_no_bar (d : Direction) : has_bar (dir_string d) = false.
Proof. by destruct d. Qed.

Lemma dir_string_inj (d d' : Direction) : dir_string d = dir_string d' -> d = d'.
Proof. by destruct d, d'. Qed.

Section Idem.
Context `{Platform}.

Lemma idem_base_assoc (e : string) (r : option string) (d : Direction) (t : string) :
  idem_base e r d t
  = ((e +:+ String "|" (default "null" r)) +:+ String "|" (dir_string d))
      +:+ String "|" (number_string (slot t)).
Proof. unfold idem_base. by rewrite !string_app_assoc. Qed.

(** The digested string determines the slot, the direction, and the event
    id joined to the region id. *)
Lemma idem_base_inj (e e' : string) (r r' : option string) (d d' : Direction)
    (t t' : string) :
  idem_base e r d t = idem_base e' r' d' t' ->
  slot t = slot t' /\ d = d' /\
  e +:+ String "|" (default "null" r) = e' +:+ String "|" (default "null" r').
Proof.
  rewrite !idem_base_assoc. intros Heq.
  apply split_at_last_bar in Heq as [Heq Hslot]; try apply number_string_no_bar.
  apply split_at_last_bar in Heq as [Heq Hdir]; try apply dir_string_no_bar.
  split; [by apply number_string_inj|]. split; [by apply dir_string_inj|done].
Qed.

(** C4, as the code has it.  The key is the digest of
    [eventId|regionId-or-null|direction|slot]: two calls with the same
    event id, region id and direction whose instants fall in the same slot
    yield the same key.  Barring a collision of the digest on the two
    digested strings, the keys differ when the slots differ, when the
    directions differ, and when the event ids or the region ids (an absent
    one read as "null") differ and no event id holds the separator. *)
Theorem makeIdem_slot (e : string) (r : option string) (d : Direction) (t : string) :
  (forall t', slot t = slot t' -> makeIdem e r d t = makeIdem e r d t') /\
  (forall e' r' d' t',
      (digestStringAsync (idem_base e r d t)
         = digestStringAsync (idem_base e' r' d' t') ->
       idem_base e r d t = idem_base e' r' d' t') ->
      slot t <> slot t' \/ d <> d' \/
      (has_bar e = false /\ has_bar e' = false /\
       (e <> e' \/ default "null" r <> default "null" r')) ->
      makeIdem e r d t <> makeIdem e' r' d' t').
Proof.
  split.
  - intros t' Hslot. unfold makeIdem, idem_base. by rewrite Hslot.
  - intros e' r' d' t' Hfree Hdiff Hkey.
    apply Hfree, idem_base_inj in Hkey as (Hslot & Hdir & Hjoin).
    destruct Hdiff as [Hne|[Hne|(He & He' & Hne)]]; [done..|].
    apply split_at_first_bar in Hjoin as [Hid Hregion]; [|done..].
    by destruct Hne.
Qed.
End Idem.

(* ===================================================================== *)
(** ** The background task *)
(* ===================================================================== *)

Lemma bind_normal {A B} (m : M A) (k : A -> M B) (e : Env) (w w' : World) (a : A) :
  m e w = (Normal a, w') -> bind m k e w = k a e w'.
Proof. intros Hm. unfold bind. by rewrite Hm. Qed.

(** A pass of the queue keeps what every delivery keeps. *)
Lemma flushOnce_invariant {S} (deliver : GeoEventPayload -> S -> bool * S)
    (R : S -> S -> Prop) :
  (forall s, R s s) ->
  (forall s1 s2 s3, R s1 s2 -> R s2 s3 -> R s1 s3) ->
  (forall p s, R s (snd (deliver p s))) ->
  forall q s, R s (snd (SyncQueue.flushOnce deliver q s)).
Proof.
  intros Hrefl Htrans Hstep q. induction q as [|p q IH]; intros s; simpl.
  - apply Hrefl.
  - pose proof (Hstep p s) as Hp. destruct (deliver p s) as [[|] s1]; simpl in *.
    + by eapply Htrans.
    + done.
Qed.

Section Task.
Context `{Platform}.

Lemma notify_frame (title body : string) (e : Env) (w : World) :
  exists w',
    notify title body e w = (Normal tt, w') /\
    storage w' = storage w /\ queue w' = queue w /\
    requests w' = requests w /\ geofencing w' = geofencing w.
Proof.
  unfold notify, Notifications_scheduleNotificationAsync. run.
  destruct (notiAvailable e); simpl; [|by eexists].
  destruct (getPermissionsAsync e) as [[|]|];
    destruct (scheduleNotificationAsync_rejects e); by eexists.
Qed.

Lemma flushOnce_frame (e : Env) (w : World) :
  exists w',
    flushOnce postToServer e w = (Normal tt, w') /\
    storage w' = storage w /\ geofencing w' = geofencing w.
Proof.
  unfold flushOnce.
  set (attempt := fun p w => match postToServer p e w with
                             | (Normal ok, w') => (ok, w')
                             | (Throw, w') => (false, w')
                             end).
  pose proof (flushOnce_invariant attempt
                (fun s s' => storage s' = storage s /\ geofencing s' = geofencing s)) as Hinv.
  specialize (Hinv ltac:(done)).
  specialize (Hinv ltac:(intros s1 s2 s3 [-> ->] [-> ->]; done)).
  assert (forall p s, storage (snd (attempt p s)) = storage s /\
                      geofencing (snd (attempt p s)) = geofencing s) as Hstep.
  { intros p s. unfold attempt.
    destruct (postToServer_frame p e s) as (ok & sent & -> & _). done. }
  specialize (Hinv Hstep (queue w) w).
  destruct (SyncQueue.flushOnce attempt (queue w) w) as [remaining w'].
  eexists. split; [reflexivity|]. done.
Qed.

(** The paths of the task on a signal without error: suppressed by the
    debounce, dropped for want of an event id, or recorded.  The store is
    touched by [shouldDebounce] and [getActiveEventId] only. *)
Lemma GEOFENCE_TASK_paths (body : TaskBody) (e : Env) (w : World) :
  error body = None ->
  exists suppressed w1,
    shouldDebounce (direction_of body) e w = (Normal suppressed, w1) /\
    if suppressed : bool
    then GEOFENCE_TASK body e w = (Normal Debounced, w1)
    else
      exists active w2,
        getActiveEventId e w1 = (Normal active, w2) /\
        let resolved := resolve_eventId active (regionId_of body) in
        if falsy resolved
        then GEOFENCE_TASK body e w = (Normal NoEvent, w2)
        else
          exists ok w3,
            GEOFENCE_TASK body e w
              = (Normal (Recorded
                           {| event_id := default "" resolved;
                              dir := direction_of body;
                              at_ := toISOString (Date_now e Clock_nowIso);
                              region_id := regionId_of body;
                              acc_m := None;
                              device := Some "mobile";
                              idem := makeIdem (default "" resolved) (regionId_of body)
                                        (direction_of body)
                                        (toISOString (Date_now e Clock_nowIso)) |}
                           ok), w3) /\
            storage w3 = storage w2.
Proof.
  intros Herr.
  assert (exists b w1, shouldDebounce (direction_of body) e w = (Normal b, w1))
    as (b & w1 & Hdeb).
  { rewrite shouldDebounce_run.
    destruct (rejects e (GetItem LAST_EVENT_KEY)); [by eexists _, _|].
    destruct (read_marker w) as [last|]; [|by eexists _, _].
    destruct (same_direction last _ && within_window last _); [by eexists _, _|].
    destruct (rejects e (SetItem LAST_EVENT_KEY)); by eexists _, _. }
  exists b, w1. split; [done|].
  destruct b.
  { unfold GEOFENCE_TASK. rewrite Herr. by rewrite (bind_normal _ _ _ _ _ _ Hdeb). }
  assert (exists active w2, getActiveEventId e w1 = (Normal active, w2))
    as (active & w2 & Hactive).
  { rewrite getActiveEventId_run.
    destruct (read_meta e w1) as [m|]; [|by eexists _, _].
    destruct (parseUtcMs _) as [endMs|]; [|by eexists _, _].
    destruct (endMs <? _); by eexists _, _. }
  exists active, w2. split; [done|].
  assert (nowIso e w1 = (Normal (toISOString (Date_now e Clock_nowIso)), w1))
    as Hnow by done.
  cbv zeta.
  destruct (falsy (resolve_eventId active (regionId_of body))) eqn:Hfalsy.
  { unfold GEOFENCE_TASK. rewrite Herr.
    rewrite (bind_normal _ _ _ _ _ _ Hdeb), (bind_normal _ _ _ _ _ _ Hnow),
      (bind_normal _ _ _ _ _ _ Hactive).
    cbv zeta. by rewrite Hfalsy. }
  set (payload := Build_GeoEventPayload _ _ _ _ _ _ _).
  destruct (postToServer_frame payload e w2) as (ok & sent & Hpost & _).
  set (w2' := set_requests _ w2) in *.
  assert (exists w3, (if ok then ret tt
                      else (enqueue payload ;; flushOnce postToServer)) e w2'
                     = (Normal tt, w3) /\ storage w3 = storage w2) as (w3 & Hq & Hs3).
  { destruct ok; [by eexists|].
    unfold enqueue. unfold bind, modify.
    destruct (flushOnce_frame e (set_queue (SyncQueue.enqueue payload (queue w2')) w2'))
      as (w3 & -> & Hs & _).
    eexists. split; [done|]. by rewrite Hs. }
  match type of Hq with
  | _ = (_, ?w) =>
      destruct (notify_frame
                  match direction_of body with
                  | ENTER => "Geofence ENTER"
                  | EXIT => "Geofence EXIT"
                  end
                  (String.concat " • "
                     (("event=" +:+ slice_to 8 (event_id payload) +:+ "…")
                        :: (if truthy (default "" (regionId_of body))
                            then ["region=" +:+ default "" (regionId_of body)]
                            else []))) e w) as (w4 & Hn & Hs4 & _)
  end.
  exists ok, w4. split; [|by rewrite Hs4].
  unfold GEOFENCE_TASK. rewrite Herr.
  rewrite (bind_normal _ _ _ _ _ _ Hdeb), (bind_normal _ _ _ _ _ _ Hnow),
    (bind_normal _ _ _ _ _ _ Hactive).
  cbv zeta. rewrite Hfalsy. fold payload.
  rewrite (bind_normal _ _ _ _ _ _ Hpost), (bind_normal _ _ _ _ _ _ Hq).
  unfold GEOFENCE_DEBUG_NOTI.
  by rewrite (bind_normal _ _ _ _ _ _ Hn).
Qed.

(** [shouldDebounce] writes the marker and nothing else. *)
Lemma shouldDebounce_frame (d : Direction) (e : Env) (w w1 : World) (b : bool) :
  shouldDebounce d e w = (Normal b, w1) ->
  queue w1 = queue w /\ requests w1 = requests w /\
  storage w1 !! ACTIVE_EVENT_META_KEY = storage w !! ACTIVE_EVENT_META_KEY /\
  storage w1 !! ACTIVE_EVENT_KEY = storage w !! ACTIVE_EVENT_KEY.
Proof.
  rewrite shouldDebounce_run. intros Hrun.
  assert (w1 = w \/ w1 = with_marker d (Date_now e Clock_shouldDebounce) w)
    as [->| ->].
  { destruct (rejects e (GetItem LAST_EVENT_KEY)); [left; congruence|].
    destruct (read_marker w) as [last|]; [|left; congruence].
    destruct (same_direction last d && within_window last _); [left; congruence|].
    destruct (rejects e (SetItem LAST_EVENT_KEY)); [left|right]; congruence. }
  - done.
  - unfold with_marker. simpl.
    rewrite !lookup_insert_ne by (symmetry; first [apply key_meta_last|apply key_legacy_last]).
    done.
Qed.

(** [getActiveEventId] leaves the queue, the requests and the marker. *)
Lemma getActiveEventId_ledger (e : Env) (w w' : World) (r : completion (option string)) :
  getActiveEventId e w = (r, w') ->
  queue w' = queue w /\ requests w' = requests w /\
  storage w' !! LAST_EVENT_KEY = storage w !! LAST_EVENT_KEY.
Proof.
  rewrite getActiveEventId_run. intros Hrun.
  assert (w' = w \/ w' = stopped e (cleared e w)) as [->| ->].
  { destruct (read_meta e w) as [m|]; [|left; congruence].
    destruct (parseUtcMs _) as [endMs|]; [|left; congruence].
    destruct (endMs <? _); [right|left]; congruence. }
  - done.
  - rewrite stopped_storage.
    assert (queue (stopped e (cleared e w)) = queue w /\
            requests (stopped e (cleared e w)) = requests w) as [-> ->].
    { unfold stopped. destruct (hasStartedGeofencingAsync_rejects e); [done|].
      destruct (geofencing (cleared e w)); [|done].
      by destruct (stopGeofencingAsync_rejects e). }
    split; [done|]. split; [done|]. unfold cleared. simpl.
    destruct (rejects e (RemoveItem ACTIVE_EVENT_META_KEY)),
             (rejects e (RemoveItem ACTIVE_EVENT_KEY));
      rewrite ?lookup_delete_ne by first [apply key_meta_last|apply key_legacy_last];
      done.
Qed.

(** One pass of the queue with [postToServer] as the delivery. *)
Lemma attempts_pass (e : Env) (q : list GeoEventPayload) (w : World) :
  exists remaining after,
    SyncQueue.flushOnce
      (fun p w => match postToServer p e w with
                  | (Normal ok, w') => (ok, w')
                  | (Throw, w') => (false, w')
                  end) q w
      = (remaining, set_requests after w) /\
    pass e (requests w) q after remaining.
Proof.
  revert w. induction q as [|p q IH]; intros w.
  - exists [], (requests w). split; [by destruct w|].
    exists [], [], []. simpl. rewrite app_nil_r.
    split; [done|]. split; [constructor|]. split; [|done].
    intros i d. by rewrite lookup_nil.
  - destruct (postToServer_sent p e w) as (ok & sent & Hpost & Hsent & Hok).
    cbn [SyncQueue.flushOnce]. rewrite Hpost. destruct ok.
    + destruct (IH (set_requests (requests w ++ sent) w))
        as (remaining & after & Hrun & delivered & chunks & last
            & Hq & Hchunks & Hans & Hlast & Hafter).
      exists remaining, after. split; [by rewrite Hrun|].
      exists (p :: delivered), (sent :: chunks), last. simpl in *.
      split; [by rewrite Hq|]. split; [by constructor|]. split.
      { intros [|i] d; simpl.
        - intros [= <-]. by rewrite app_nil_r.
        - intros Hd. rewrite app_assoc. by apply Hans. }
      split.
      { destruct remaining; [done|]. by rewrite app_assoc. }
      by rewrite Hafter, <- !app_assoc.
    + exists (p :: q), (requests w ++ sent). split; [done|].
      exists [], [], sent. simpl. rewrite app_nil_r.
      split; [done|]. split; [constructor|]. split; [|done].
      intros i d. by rewrite lookup_nil.
Qed.

Lemma flushOnce_pass (e : Env) (w : World) :
  exists w',
    flushOnce postToServer e w = (Normal tt, w') /\
    pass e (requests w) (queue w) (requests w') (queue w') /\
    storage w' = storage w /\ geofencing w' = geofencing w /\
    notifications w' = notifications w.
Proof.
  destruct (attempts_pass e (queue w) w) as (remaining & after & Hrun & Hpass).
  unfold flushOnce. rewrite Hrun. eexists. split; [reflexivity|]. done.
Qed.

(** The records a pass leaves are the end of the queue it started from. *)
Lemma pass_queue (e : Env) (before after : list Request)
    (q remaining : list GeoEventPayload) :
  pass e before q after remaining -> exists delivered, q = delivered ++ remaining.
Proof. intros (delivered & _ & _ & Hq & _). by exists delivered. Qed.

(** A pass sends its requests behind those sent before it. *)
Lemma pass_requests (e : Env) (before after : list Request)
    (q remaining : list GeoEventPayload) :
  pass e before q after remaining -> exists more, after = before ++ more.
Proof. intros (_ & chunks & last & _ & _ & _ & _ & ->). by eexists. Qed.

(** The last path of the task, with what it leaves behind. *)
Lemma GEOFENCE_TASK_recorded (body : TaskBody) (e : Env) (w w1 w2 : World)
    (active : option string) :
  error body = None ->
  shouldDebounce (direction_of body) e w = (Normal false, w1) ->
  getActiveEventId e w1 = (Normal active, w2) ->
  falsy (resolve_eventId active (regionId_of body)) = false ->
  let resolved := resolve_eventId active (regionId_of body) in
  let p := {| event_id := default "" resolved;
              dir := direction_of body;
              at_ := toISOString (Date_now e Clock_nowIso);
              region_id := regionId_of body;
              acc_m := None;
              device := Some "mobile";
              idem := makeIdem (default "" resolved) (regionId_of body)
                        (direction_of body)
                        (toISOString (Date_now e Clock_nowIso)) |} in
  exists ok sent w4,
    GEOFENCE_TASK body e w = (Normal (Recorded p ok), w4) /\
    postToServer p e w2 = (Normal ok, set_requests (requests w2 ++ sent) w2) /\
    storage w4 = storage w2 /\ geofencing w4 = geofencing w2 /\
    delivery p sent /\ answered e (requests w2) p ok /\
    if ok then queue w4 = queue w2 /\ requests w4 = requests w2 ++ sent
    else pass e (requests w2 ++ sent) (queue w2 ++ [p]) (requests w4) (queue w4).
Proof.
  intros Herr Hdeb Hactive Hfalsy resolved p.
  assert (nowIso e w1 = (Normal (toISOString (Date_now e Clock_nowIso)), w1))
    as Hnow by done.
  destruct (postToServer_sent p e w2) as (ok & sent & Hpost & Hsent & Hok).
  set (w2' := set_requests (requests w2 ++ sent) w2) in *.
  assert (exists w3,
             (if ok then ret tt else (enqueue p ;; flushOnce postToServer)) e w2'
             = (Normal tt, w3) /\
             storage w3 = storage w2 /\ geofencing w3 = geofencing w2 /\
             if ok then queue w3 = queue w2 /\ requests w3 = requests w2 ++ sent
             else pass e (requests w2 ++ sent) (queue w2 ++ [p])
                    (requests w3) (queue w3))
    as (w3 & Hq & Hs3 & Hg3 & Hq3).
  { destruct ok; [by eexists|].
    unfold enqueue. unfold bind, modify.
    destruct (flushOnce_pass e (set_queue (SyncQueue.enqueue p (queue w2')) w2'))
      as (w3 & -> & Hpass & Hs & Hg & _).
    exists w3. split; [done|]. split; [by rewrite Hs|]. split; [by rewrite Hg|].
    exact Hpass. }
  match type of Hq with
  | _ = (_, ?w) =>
      destruct (notify_frame
                  match direction_of body with
                  | ENTER => "Geofence ENTER"
                  | EXIT => "Geofence EXIT"
                  end
                  (String.concat " • "
                     (("event=" +:+ slice_to 8 (event_id p) +:+ "…")
                        :: (if truthy (default "" (regionId_of body))
                            then ["region=" +:+ default "" (regionId_of body)]
                            else []))) e w) as (w4 & Hn & Hs4 & Hq4 & Hr4 & Hg4)
  end.
  exists ok, sent, w4.
  split.
  { unfold GEOFENCE_TASK. rewrite Herr.
    rewrite (bind_normal _ _ _ _ _ _ Hdeb), (bind_normal _ _ _ _ _ _ Hnow),
      (bind_normal _ _ _ _ _ _ Hactive).
    cbv zeta. rewrite Hfalsy. fold resolved. fold p.
    rewrite (bind_normal _ _ _ _ _ _ Hpost), (bind_normal _ _ _ _ _ _ Hq).
    unfold GEOFENCE_DEBUG_NOTI.
    by rewrite (bind_normal _ _ _ _ _ _ Hn). }
  split; [exact Hpost|].
  split; [congruence|]. split; [congruence|].
  split; [exact Hsent|]. split; [exact Hok|].
  destruct ok.
  - destruct Hq3 as [Hq3 Hr3]. split; congruence.
  - by rewrite Hq4, Hr4.
Qed.

(** Every run of the task, by the [return] it reaches. *)
Lemma GEOFENCE_TASK_cases (body : TaskBody) (e : Env) (w : World) :
  exists o w',
    GEOFENCE_TASK body e w = (Normal o, w') /\
    match o with
    | TaskFailed =>
        exists err, error body = Some err /\
          w' = snd (notify "Geofence task error"
                      (default "Unknown error" (message err)) e w)
    | Debounced =>
        error body = None /\ w' = w /\
        shouldDebounce (direction_of body) e w = (Normal true, w)
    | NoEvent =>
        error body = None /\
        exists w1 active,
          shouldDebounce (direction_of body) e w = (Normal false, w1) /\
          getActiveEventId e w1 = (Normal active, w') /\
          falsy (resolve_eventId active (regionId_of body)) = true
    | Recorded p ok =>
        error body = None /\
        exists w1 active w2 sent,
          shouldDebounce (direction_of body) e w = (Normal false, w1) /\
          getActiveEventId e w1 = (Normal active, w2) /\
          falsy (resolve_eventId active (regionId_of body)) = false /\
          p = {| event_id := default "" (resolve_eventId active (regionId_of body));
                 dir := direction_of body;
                 at_ := toISOString (Date_now e Clock_nowIso);
                 region_id := regionId_of body;
                 acc_m := None;
                 device := Some "mobile";
                 idem := makeIdem
                           (default "" (resolve_eventId active (regionId_of body)))
                           (regionId_of body) (direction_of body)
                           (toISOString (Date_now e Clock_nowIso)) |} /\
          postToServer p e w2 = (Normal ok, set_requests (requests w2 ++ sent) w2) /\
          storage w' = storage w2 /\ geofencing w' = geofencing w2 /\
          delivery p sent /\ answered e (requests w2) p ok /\
          if ok then queue w' = queue w2 /\ requests w' = requests w2 ++ sent
          else pass e (requests w2 ++ sent) (queue w2 ++ [p])
                 (requests w') (queue w')
    end.
Proof.
  destruct (error body) as [err|] eqn:Herr.
  - unfold GEOFENCE_TASK. rewrite Herr.
    destruct (notify_frame "Geofence task error"
                (default "Unknown error" (message err)) e w) as (w' & Hn & _).
    rewrite (bind_normal _ _ _ _ _ _ Hn).
    exists TaskFailed, w'. split; [done|]. exists err. by rewrite Hn.
  - destruct (GEOFENCE_TASK_paths body e w Herr) as (b & w1 & Hdeb & Hrest).
    destruct b.
    + assert (w1 = w) as ->.
      { rewrite shouldDebounce_run in Hdeb.
        destruct (rejects e (GetItem LAST_EVENT_KEY)); [congruence|].
        destruct (read_marker w) as [last|]; [|congruence].
        destruct (same_direction last _ && within_window last _); [congruence|].
        destruct (rejects e (SetItem LAST_EVENT_KEY)); congruence. }
      exists Debounced, w. done.
    + destruct Hrest as (active & w2 & Hactive & Hrest). cbv zeta in Hrest.
      destruct (falsy (resolve_eventId active (regionId_of body))) eqn:Hfalsy.
      * exists NoEvent, w2. split; [done|]. split; [done|]. by exists w1, active.
      * destruct (GEOFENCE_TASK_recorded body e w w1 w2 active Herr Hdeb Hactive Hfalsy)
          as (ok & sent & w4 & Hrun & Hpost & Hs & Hg & Hsent & Hok & Hq).
        eexists _, w4. split; [exact Hrun|]. split; [done|].
        exists w1, active, w2, sent. done.
Qed.

(** What a run that built a record did with it: the record went to the
    backend first, as the first request of the run; when that delivery
    succeeded nothing else was sent and the queue is as it was; when it
    failed the record joined the queue and one pass was made over it. *)
Lemma GEOFENCE_TASK_effects (body : TaskBody) (e : Env) (w w' : World)
    (p : GeoEventPayload) (ok : bool) :
  GEOFENCE_TASK body e w = (Normal (Recorded p ok), w') ->
  exists sent,
    delivery p sent /\ answered e (requests w) p ok /\
    if ok then queue w' = queue w /\ requests w' = requests w ++ sent
    else pass e (requests w ++ sent) (queue w ++ [p]) (requests w') (queue w').
Proof.
  intros Hrun.
  destruct (GEOFENCE_TASK_cases body e w) as (o' & w0 & Hrun' & Hcase).
  rewrite Hrun in Hrun'. injection Hrun' as <- <-.
  destruct Hcase as (_ & w1 & active & w2 & sent & Hdeb & Hactive & _ & _ & _
                     & _ & _ & Hsent & Hok & Hq).
  destruct (shouldDebounce_frame _ _ _ _ _ Hdeb) as (Hq1 & Hr1 & _).
  destruct (getActiveEventId_ledger _ _ _ _ Hactive) as (Hq2 & Hr2 & _).
  exists sent. split; [exact Hsent|].
  rewrite Hq2, Hr2, Hq1, Hr1 in *. done.
Qed.

(** The first request of a run that built a record is the remote
    procedure call for that record. *)
Lemma GEOFENCE_TASK_sent (body : TaskBody) (e : Env) (w w' : World)
    (p : GeoEventPayload) (ok : bool) :
  GEOFENCE_TASK body e w = (Normal (Recorded p ok), w') ->
  exists rest, requests w' = requests w ++ Rpc p :: rest.
Proof.
  intros Hrun.
  destruct (GEOFENCE_TASK_effects _ _ _ _ _ _ Hrun) as (sent & Hsent & _ & Hq).
  destruct ok.
  - destruct Hq as [_ ->]. destruct Hsent as [->| ->]; by eexists.
  - destruct (pass_requests _ _ _ _ _ Hq) as [more ->].
    rewrite <- app_assoc. destruct Hsent as [->| ->]; by eexists.
Qed.

(** A region identifier that holds no event id resolves nothing. *)
Lemma resolve_eventId_none (regionId : option string) :
  (forall r, regionId = Some r -> startsWith r "event:" = true ->
             trim (slice_from (String.length "event:") r) = "") ->
  falsy (resolve_eventId None regionId) = true.
Proof.
  intros Hregion. unfold resolve_eventId.
  destruct regionId as [r|]; [|done].
  change (falsy None) with true. rewrite andb_true_l.
  destruct (truthy r); [|done]. rewrite andb_true_l.
  destruct (startsWith r "event:") eqn:Hprefix; [|done].
  by rewrite (Hregion r eq_refl Hprefix).
Qed.

(** C1: no record without an event.  When the persisted context yields no
    event id and the region identifier holds none after its "event:"
    prefix, the task completes without building a record: no request is
    sent and the queue is as it was. *)
Theorem no_null_event (body : TaskBody) (e : Env) (w : World) :
  fst (getActiveEventId e w) = Normal None ->
  (forall r, regionId_of body = Some r -> startsWith r "event:" = true ->
             trim (slice_from (String.length "event:") r) = "") ->
  exists o w',
    GEOFENCE_TASK body e w = (Normal o, w') /\
    (forall p ok, o <> Recorded p ok) /\
    requests w' = requests w /\
    queue w' = queue w.
Proof.
  intros Hnone Hregion.
  destruct (error body) as [err|] eqn:Herr.
  - unfold GEOFENCE_TASK. rewrite Herr.
    destruct (notify_frame "Geofence task error" (default "Unknown error" (message err)) e w)
      as (w' & Hn & _ & Hq & Hr & _).
    rewrite (bind_normal _ _ _ _ _ _ Hn).
    exists TaskFailed, w'. done.
  - destruct (GEOFENCE_TASK_paths body e w Herr) as (b & w1 & Hdeb & Hrest).
    destruct (shouldDebounce_frame _ _ _ _ _ Hdeb) as (Hq1 & Hr1 & Hm1 & Hl1).
    destruct b.
    { exists Debounced, w1. done. }
    destruct Hrest as (active & w2 & Hactive & Hrest).
    destruct (getActiveEventId_ledger _ _ _ _ Hactive) as (Hq2 & Hr2 & _).
    assert (active = None) as ->.
    { pose proof (getActiveEventId_frame e w1 w Hm1 Hl1) as Hframe.
      rewrite Hactive, Hnone in Hframe. simpl in Hframe. congruence. }
    cbv zeta in Hrest. rewrite (resolve_eventId_none _ Hregion) in Hrest.
    exists NoEvent, w2. split; [done|]. split; [done|].
    split; congruence.
Qed.

(** What [shouldDebounce] does with a marker, or with none. *)
Lemma shouldDebounce_marker (d : Direction) (e : Env) (w : World)
    (m : option (Direction * Z)) :
  LastTransitionMarker w m ->
  rejects e (GetItem LAST_EVENT_KEY) = false ->
  let now := Date_now e Clock_shouldDebounce in
  (forall t, m = Some (d, t) -> now - t < 30000 ->
             shouldDebounce d e w = (Normal true, w)) /\
  (rejects e (SetItem LAST_EVENT_KEY) = false ->
   m = None \/ (exists d0 t, m = Some (d0, t) /\ (d0 <> d \/ 30000 <= now - t)) ->
   shouldDebounce d e w = (Normal false, with_marker d now w)).
Proof.
  intros Hm Hget now. rewrite shouldDebounce_run, Hget. fold now.
  destruct Hm as [Habsent|raw d0 at_iso t Hraw Hne Hparse Hdate].
  - rewrite (read_marker_absent w Habsent). simpl. split.
    + by intros t [=].
    + by intros ->.
  - rewrite (read_marker_stored w d0 raw at_iso Hraw Hne Hparse).
    rewrite same_direction_marker, (within_window_marker d0 at_iso t now Hdate).
    split.
    + intros t' [= -> ->] Hlt. by rewrite !bool_decide_eq_true_2.
    + intros -> [[=]|(d1 & t1 & [= -> ->] & [Hd|Ht])].
      * by rewrite (bool_decide_eq_false_2 (d1 = d)).
      * rewrite (bool_decide_eq_false_2 (now - t1 < 30000)) by lia.
        by rewrite andb_false_r.
Qed.

(** A task that was not suppressed leaves its marker behind. *)
Lemma marker_after_task (body : TaskBody) (e : Env) (w w' : World)
    (m : option (Direction * Z)) (o : Outcome) :
  error body = None ->
  LastTransitionMarker w m ->
  rejects e (GetItem LAST_EVENT_KEY) = false ->
  rejects e (SetItem LAST_EVENT_KEY) = false ->
  GEOFENCE_TASK body e w = (Normal o, w') ->
  o <> Debounced ->
  storage w' !! LAST_EVENT_KEY
    = Some (JSON_stringify
              (marker_doc (direction_of body)
                 (toISOString (Date_now e Clock_shouldDebounce)))).
Proof.
  intros Herr Hm Hget Hset Hrun Ho.
  destruct (GEOFENCE_TASK_paths body e w Herr) as (b & w1 & Hdeb & Hrest).
  destruct b; [congruence|].
  assert (storage w1 !! LAST_EVENT_KEY
          = Some (JSON_stringify
                    (marker_doc (direction_of body)
                       (toISOString (Date_now e Clock_shouldDebounce))))) as Hw1.
  { rewrite shouldDebounce_run, Hget, Hset in Hdeb.
    destruct Hm as [Habsent|raw d0 at_iso t Hraw Hne Hparse Hdate].
    - rewrite (read_marker_absent w Habsent) in Hdeb. simpl in Hdeb.
      injection Hdeb as <-. unfold with_marker. simpl. apply lookup_insert_eq.
    - rewrite (read_marker_stored w d0 raw at_iso Hraw Hne Hparse) in Hdeb.
      destruct (same_direction _ _ && within_window _ _); [done|].
      injection Hdeb as <-. unfold with_marker. simpl. apply lookup_insert_eq. }
  destruct Hrest as (active & w2 & Hactive & Hrest).
  destruct (getActiveEventId_ledger _ _ _ _ Hactive) as (_ & _ & Hlast).
  cbv zeta in Hrest.
  destruct (falsy _).
  - rewrite Hrest in Hrun. injection Hrun as _ <-. congruence.
  - destruct Hrest as (ok & w3 & Hrec & Hs3).
    rewrite Hrec in Hrun. injection Hrun as _ <-. rewrite Hs3. congruence.
Qed.

(** A signal of the direction of a marker less than 30 s old is
    suppressed, whatever else the device holds. *)
Lemma suppressed_by_marker (body : TaskBody) (e : Env) (w : World)
    (d : Direction) (t : Z) :
  error body = None ->
  storage w !! LAST_EVENT_KEY = Some (JSON_stringify (marker_doc d (toISOString t))) ->
  marker_readable d t ->
  rejects e (GetItem LAST_EVENT_KEY) = false ->
  Date_now e Clock_shouldDebounce - t < 30000 ->
  direction_of body = d ->
  GEOFENCE_TASK body e w = (Normal Debounced, w).
Proof.
  intros Herr Hraw (Hne & Hparse & Hdate) Hget Hlt Hdir.
  assert (LastTransitionMarker w (Some (d, t))) as Hm by by econstructor.
  destruct (shouldDebounce_marker d e w _ Hm Hget) as [Hsup _].
  unfold GEOFENCE_TASK. rewrite Herr, Hdir.
  by rewrite (bind_normal _ _ _ _ _ _ (Hsup t eq_refl Hlt)).
Qed.

Lemma resolve_eventId_active (id : string) (regionId : option string) :
  id <> "" -> resolve_eventId (Some id) regionId = Some id.
Proof.
  intros Hid%truthy_true. unfold resolve_eventId.
  destruct regionId as [r|]; [|done]. simpl. by rewrite Hid.
Qed.

(** A signal of the other direction is never suppressed by a marker. *)
Lemma other_direction_passes (d d' : Direction) (t : Z) (e : Env) (w : World) :
  storage w !! LAST_EVENT_KEY = Some (JSON_stringify (marker_doc d (toISOString t))) ->
  marker_readable d t ->
  d' <> d ->
  exists w1, shouldDebounce d' e w = (Normal false, w1).
Proof.
  intros Hraw (Hne & Hparse & Hdate) Hdir. rewrite shouldDebounce_run.
  destruct (rejects e (GetItem LAST_EVENT_KEY)); [by eexists|].
  rewrite (read_marker_stored w d _ _ Hraw Hne Hparse).
  rewrite same_direction_marker, (bool_decide_eq_false_2 (d = d')) by congruence.
  simpl. destruct (rejects e (SetItem LAST_EVENT_KEY)); by eexists.
Qed.

(** C2: the debounce.  With the marker of the device read, whether none or
    one of direction [d0] and instant [t]: [shouldDebounce d] returns true
    and changes nothing when [d0] is [d] and less than 30 s passed since
    [t]; in every other case it writes the marker of [d] at the current
    instant and returns false.  Hence, after a signal that produced a
    record, which went to the backend as the first request of its run, a
    signal of the same direction less than 30 s later produces none and
    leaves the device as it was (nothing is sent, nothing queued), while
    a signal of the other direction produces a second record, for the
    event the context then yields, and sends it to the backend as the
    first request of its run. *)
Theorem debounce_correct (e1 : Env) (w0 : World) (m : option (Direction * Z)) :
  LastTransitionMarker w0 m ->
  rejects e1 (GetItem LAST_EVENT_KEY) = false ->
  let now1 := Date_now e1 Clock_shouldDebounce in
  (forall d,
      (forall t, m = Some (d, t) -> now1 - t < 30000 ->
                 shouldDebounce d e1 w0 = (Normal true, w0)) /\
      (rejects e1 (SetItem LAST_EVENT_KEY) = false ->
       m = None \/ (exists d0 t, m = Some (d0, t) /\ (d0 <> d \/ 30000 <= now1 - t)) ->
       shouldDebounce d e1 w0 = (Normal false, with_marker d now1 w0))) /\
  (forall body1 body2 e2 p1 ok1 w1,
      error body1 = None -> error body2 = None ->
      rejects e1 (SetItem LAST_EVENT_KEY) = false ->
      marker_readable (direction_of body1) now1 ->
      GEOFENCE_TASK body1 e1 w0 = (Normal (Recorded p1 ok1), w1) ->
      Date_now e2 Clock_shouldDebounce - now1 < 30000 ->
      (exists rest1, requests w1 = requests w0 ++ Rpc p1 :: rest1) /\
      (direction_of body2 = direction_of body1 ->
       rejects e2 (GetItem LAST_EVENT_KEY) = false ->
       GEOFENCE_TASK body2 e2 w1 = (Normal Debounced, w1)) /\
      (direction_of body2 <> direction_of body1 ->
       forall id,
         fst (getActiveEventId e2 w1) = Normal (Some id) -> id <> "" ->
         exists p2 ok2 w2 rest2,
           GEOFENCE_TASK body2 e2 w1 = (Normal (Recorded p2 ok2), w2) /\
           event_id p2 = id /\ dir p2 = direction_of body2 /\
           requests w2 = requests w1 ++ Rpc p2 :: rest2)).
Proof.
  intros Hm Hget now1. split.
  - intros d. apply (shouldDebounce_marker d e1 w0 m Hm Hget).
  - intros body1 body2 e2 p1 ok1 w1 Herr1 Herr2 Hset Hreadable Hrun1 Hlt.
    assert (storage w1 !! LAST_EVENT_KEY
            = Some (JSON_stringify (marker_doc (direction_of body1) (toISOString now1))))
      as Hlast.
    { by apply (marker_after_task body1 e1 w0 w1 m (Recorded p1 ok1)). }
    split; [exact (GEOFENCE_TASK_sent _ _ _ _ _ _ Hrun1)|].
    split.
    + intros Hdir Hget2.
      by apply (suppressed_by_marker body2 e2 w1 (direction_of body1) now1).
    + intros Hdir id Hactive Hid.
      destruct (other_direction_passes _ _ _ e2 w1 Hlast Hreadable Hdir)
        as [w1' Hdeb].
      destruct (GEOFENCE_TASK_paths body2 e2 w1 Herr2) as (b & w1'' & Hdeb' & Hrest).
      rewrite Hdeb in Hdeb'. injection Hdeb' as <- <-.
      destruct Hrest as (active & w2 & Hactive' & Hrest).
      destruct (shouldDebounce_frame _ _ _ _ _ Hdeb) as (_ & _ & Hm1 & Hl1).
      assert (active = Some id) as ->.
      { pose proof (getActiveEventId_frame e2 w1' w1 Hm1 Hl1) as Hframe.
        rewrite Hactive', Hactive in Hframe. simpl in Hframe. congruence. }
      cbv zeta in Hrest. rewrite (resolve_eventId_active id _ Hid) in Hrest.
      apply truthy_true in Hid. simpl in Hrest. rewrite Hid in Hrest. simpl in Hrest.
      destruct Hrest as (ok & w3 & Hrec & _).
      destruct (GEOFENCE_TASK_sent _ _ _ _ _ _ Hrec) as [rest2 Hsent].
      eexists _, ok, w3, rest2. split; [exact Hrec|]. done.
Qed.

(** C10: the marker is written before the event is resolved.  A signal
    that is dropped for want of an event id has written its marker all the
    same; a signal of the same direction less than 30 s later is
    suppressed, whatever the context holds by then. *)
Theorem dropped_signal_still_debounces (body1 : TaskBody) (e1 : Env) (w0 w1 : World)
    (m : option (Direction * Z)) :
  error body1 = None ->
  LastTransitionMarker w0 m ->
  rejects e1 (GetItem LAST_EVENT_KEY) = false ->
  rejects e1 (SetItem LAST_EVENT_KEY) = false ->
  let now1 := Date_now e1 Clock_shouldDebounce in
  marker_readable (direction_of body1) now1 ->
  GEOFENCE_TASK body1 e1 w0 = (Normal NoEvent, w1) ->
  storage w1 !! LAST_EVENT_KEY
    = Some (JSON_stringify (marker_doc (direction_of body1) (toISOString now1))) /\
  (forall body2 e2 w2,
      error body2 = None ->
      storage w2 !! LAST_EVENT_KEY = storage w1 !! LAST_EVENT_KEY ->
      direction_of body2 = direction_of body1 ->
      rejects e2 (GetItem LAST_EVENT_KEY) = false ->
      Date_now e2 Clock_shouldDebounce - now1 < 30000 ->
      GEOFENCE_TASK body2 e2 w2 = (Normal Debounced, w2)).
Proof.
  intros Herr1 Hm Hget Hset now1 Hreadable Hrun1.
  assert (storage w1 !! LAST_EVENT_KEY
          = Some (JSON_stringify (marker_doc (direction_of body1) (toISOString now1))))
    as Hlast.
  { by apply (marker_after_task body1 e1 w0 w1 m NoEvent). }
  split; [done|].
  intros body2 e2 w2 Herr2 Hsame Hdir Hget2 Hlt.
  apply (suppressed_by_marker body2 e2 w2 (direction_of body1) now1); try done.
  by rewrite Hsame.
Qed.
End Task.

(* ===================================================================== *)
(** ** The theorems on the scenarios *)
(* ===================================================================== *)

Section Runs.
Import Scenario.
Local Existing Instance runtime.

(** C1 on a device without context, for a region identifier that holds
    the prefix and no event id behind it. *)
Lemma no_null_event_witness :
  fst (getActiveEventId (calm evening) blank) = Normal None /\
  exists o w',
    GEOFENCE_TASK (signal Enter ("event: " +:+ no_break_space)) (calm evening) blank
      = (Normal o, w') /\
    (forall p ok, o <> Recorded p ok) /\
    requests w' = requests blank /\
    queue w' = queue blank.
Proof.
  split; [vm_compute; reflexivity|].
  apply (no_null_event (signal Enter ("event: " +:+ no_break_space)) (calm evening)
           blank).
  - vm_compute. reflexivity.
  - intros r Hr Hprefix. injection Hr as <-. vm_compute. reflexivity.
Defined.

Lemma after_enter_marker :
  LastTransitionMarker after_enter (Some (ENTER, evening)).
Proof.
  apply (marker_stored after_enter
           (JSON_stringify (marker_doc ENTER (toISOString evening)))
           ENTER (toISOString evening) evening).
  - vm_compute. reflexivity.
  - intros Hraw. vm_compute in Hraw. discriminate Hraw.
  - vm_compute. reflexivity.
  - vm_compute. reflexivity.
Defined.

Lemma armed_no_marker : LastTransitionMarker (armed "E1" None) None.
Proof. apply marker_absent. vm_compute. reflexivity. Defined.

Lemma marker_readable_evening (d : Direction) : marker_readable d evening.
Proof.
  destruct d; (split; [|split]);
    try (vm_compute; reflexivity);
    intros Hraw; vm_compute in Hraw; discriminate Hraw.
Defined.

(** C2 on a device armed for E1: an ENTER is recorded; ten seconds later a
    second ENTER is suppressed and an EXIT is recorded. *)
Lemma debounce_correct_witness :
  shouldDebounce ENTER (calm evening) (armed "E1" None)
    = (Normal false, with_marker ENTER evening (armed "E1" None)) /\
  shouldDebounce ENTER (calm (evening + 10000)) after_enter
    = (Normal true, after_enter) /\
  (exists rest1,
      requests after_enter
        = requests (armed "E1" None)
            ++ Rpc (record "E1" "venue" ENTER evening) :: rest1) /\
  GEOFENCE_TASK (signal Enter "venue") (calm (evening + 10000)) after_enter
    = (Normal Debounced, after_enter) /\
  exists p2 ok2 w2 rest2,
    GEOFENCE_TASK (signal Exit "venue") (calm (evening + 10000)) after_enter
      = (Normal (Recorded p2 ok2), w2) /\
    event_id p2 = "E1" /\ dir p2 = EXIT /\
    requests w2 = requests after_enter ++ Rpc p2 :: rest2.
Proof.
  destruct (debounce_correct (calm evening) (armed "E1" None) None
              armed_no_marker eq_refl) as [Hfirst Htwo].
  destruct (debounce_correct (calm (evening + 10000)) after_enter
              (Some (ENTER, evening)) after_enter_marker eq_refl) as [Hsecond _].
  assert (GEOFENCE_TASK (signal Enter "venue") (calm evening) (armed "E1" None)
          = (Normal (Recorded (record "E1" "venue" ENTER evening) true), after_enter))
    as Hrun by (vm_compute; reflexivity).
  assert (Date_now (calm (evening + 10000)) Clock_shouldDebounce
            - Date_now (calm evening) Clock_shouldDebounce < 30000)
    as Hlt by (vm_compute; reflexivity).
  split; [|split; [|split; [|split]]].
  - apply (proj2 (Hfirst ENTER)); [reflexivity|]. left. reflexivity.
  - apply (proj1 (Hsecond ENTER) evening); [reflexivity|]. vm_compute. reflexivity.
  - apply (Htwo (signal Enter "venue") (signal Enter "venue")
             (calm (evening + 10000)) _ _ _ eq_refl eq_refl eq_refl
             (marker_readable_evening ENTER) Hrun Hlt).
  - destruct (Htwo (signal Enter "venue") (signal Enter "venue")
                (calm (evening + 10000)) _ _ _ eq_refl eq_refl eq_refl
                (marker_readable_evening ENTER) Hrun Hlt) as (_ & Hsame & _).
    apply Hsame; reflexivity.
  - destruct (Htwo (signal Enter "venue") (signal Exit "venue")
                (calm (evening + 10000)) _ _ _ eq_refl eq_refl eq_refl
                (marker_readable_evening ENTER) Hrun Hlt) as (_ & _ & Hother).
    apply (Hother ltac:(discriminate) "E1").
    + vm_compute. reflexivity.
    + discriminate.
Defined.
End Runs.

Section RunsContext.
Import Scenario.
Local Existing Instance runtime.

Lemma expired_persisted :
  persisted_meta (armed "E1" (Some an_hour_before)) "E1" (Some an_hour_before).
Proof. persisted. Defined.

Lemma running_persisted :
  persisted_meta (armed "E1" (Some two_hours_after)) "E1" (Some two_hours_after).
Proof. persisted. Defined.

Lemma open_ended_persisted : persisted_meta (armed "E1" None) "E1" None.
Proof. persisted. Defined.

(** C3 on three devices at [evening]: one armed for E1 until an hour
    before, one armed for E1 until two hours later, and one that holds the
    legacy key only. *)
Lemma getActiveEventId_spec_witness :
  (exists w',
      getActiveEventId (calm evening) (armed "E1" (Some an_hour_before))
        = (Normal None, w') /\
      storage w' !! ACTIVE_EVENT_META_KEY = None /\
      storage w' !! ACTIVE_EVENT_KEY = None /\
      (forall e', getActiveEventId e' w' = (Normal None, w')) /\
      geofencing w' = false) /\
  getActiveEventId (calm evening) (armed "E1" (Some two_hours_after))
    = (Normal (Some "E1"), armed "E1" (Some two_hours_after)) /\
  getActiveEventId (calm evening) (armed "E1" None)
    = (Normal (Some "E1"), armed "E1" None) /\
  getActiveEventId (calm evening) (legacy_only " E0 ")
    = (Normal (Some "E0"), legacy_only " E0 ").
Proof.
  split; [|split; [|split]].
  - destruct (proj1 (getActiveEventId_spec (calm evening)
                       (armed "E1" (Some an_hour_before)))
                "E1" an_hour_before (evening - 3600000) expired_persisted)
      as (w' & Hrun & _ & Hcleared & Hstopped).
    + discriminate.
    + reflexivity.
    + discriminate.
    + vm_compute. reflexivity.
    + vm_compute. reflexivity.
    + exists w'. destruct (Hcleared eq_refl eq_refl) as (Hmeta & Hlegacy & Hlater).
      split; [exact Hrun|]. split; [exact Hmeta|]. split; [exact Hlegacy|].
      split; [exact Hlater|]. apply Hstopped; reflexivity.
  - apply (proj1 (proj2 (getActiveEventId_spec (calm evening)
                           (armed "E1" (Some two_hours_after))))
             "E1" (Some two_hours_after) running_persisted).
    + discriminate.
    + reflexivity.
    + right. right. exists two_hours_after, (evening + 7200000).
      split; [reflexivity|]. split; vm_compute; [reflexivity|discriminate].
  - apply (proj1 (proj2 (getActiveEventId_spec (calm evening) (armed "E1" None)))
             "E1" None open_ended_persisted).
    + discriminate.
    + reflexivity.
    + left. reflexivity.
  - apply (proj1 (proj2 (proj2 (getActiveEventId_spec (calm evening)
                                  (legacy_only " E0 ")))
                   ltac:(vm_compute; reflexivity) eq_refl)
             " E0 ").
    + vm_compute. reflexivity.
    + discriminate.
Defined.
End RunsContext.

Section RunsKeys.
Import Scenario.
Local Existing Instance runtime.

(** C4 fails as stated: an absent region id and the region id "null" are
    different arguments that yield the same key, and so do two ways of
    cutting the same text into an event id and a region id. *)
Lemma makeIdem_not_injective :
  ((None : option string) <> Some "null" /\
   makeIdem "E1" None ENTER "2024-11-02T20:00:00.000Z"
     = makeIdem "E1" (Some "null") ENTER "2024-11-02T20:00:00.000Z") /\
  ("a|b" <> "a" /\
   makeIdem "a|b" (Some "c") ENTER "2024-11-02T20:00:00.000Z"
     = makeIdem "a" (Some "b|c") ENTER "2024-11-02T20:00:00.000Z").
Proof.
  split; (split; [discriminate|vm_compute; reflexivity]).
Qed.

(** C4 as amended, on three instants: two in one slot, one in the next. *)
Lemma makeIdem_slot_witness :
  makeIdem "E1" (Some "venue") ENTER "2024-11-02T20:00:00.000Z"
    = makeIdem "E1" (Some "venue") ENTER "2024-11-02T20:00:29.999Z" /\
  makeIdem "E1" (Some "venue") ENTER "2024-11-02T20:00:00.000Z"
    <> makeIdem "E1" (Some "venue") ENTER "2024-11-02T20:00:30.000Z" /\
  makeIdem "E1" (Some "venue") ENTER "2024-11-02T20:00:00.000Z"
    <> makeIdem "E2" (Some "venue") ENTER "2024-11-02T20:00:00.000Z".
Proof.
  destruct (makeIdem_slot "E1" (Some "venue") ENTER "2024-11-02T20:00:00.000Z")
    as [Hsame Hother].
  split; [|split].
  - apply Hsame. vm_compute. reflexivity.
  - apply Hother.
    + intros Hdigest. vm_compute in Hdigest. discriminate Hdigest.
    + left. vm_compute. discriminate.
  - apply Hother.
    + intros Hdigest. vm_compute in Hdigest. discriminate Hdigest.
    + right. right. split; [reflexivity|]. split; [reflexivity|].
      left. discriminate.
Defined.

(** C6 fails as stated: when the procedure call resolves with a network
    error, the insert is sent all the same, and the delivery answers true
    when the insert goes through. *)
Lemma postToServer_falls_back_on_any_error :
  postToServer (record "E1" "venue" ENTER evening)
    (backend (Resolved (Some NetworkError)) (Resolved None) evening) blank
  = (Normal true,
     set_requests [Rpc (record "E1" "venue" ENTER evening);
                   Insert (record "E1" "venue" ENTER evening)] blank).
Proof. reflexivity. Qed.

(** C7 fails as stated: a blank event id removes the context that was
    persisted. *)
Lemma blank_event_id_clears_context :
  storage (armed "E1" (Some two_hours_after)) !! ACTIVE_EVENT_META_KEY
    = Some (meta_text "E1" (Some two_hours_after)) /\
  storage (armed "E1" (Some two_hours_after)) !! ACTIVE_EVENT_KEY = Some "E1" /\
  exists w',
    setActiveEventId (Some "   ") (calm evening) (armed "E1" (Some two_hours_after))
      = (Normal tt, w') /\
    storage w' !! ACTIVE_EVENT_META_KEY = None /\
    storage w' !! ACTIVE_EVENT_KEY = None.
Proof.
  split; [vm_compute; reflexivity|]. split; [vm_compute; reflexivity|].
  eexists. split; [vm_compute; reflexivity|].
  split; vm_compute; reflexivity.
Qed.

(** C7 as amended, on the same device. *)
Lemma setActiveEvent_blank_clears_witness :
  setActiveEventId (Some (" " +:+ no_break_space)) (calm evening)
      (armed "E1" (Some two_hours_after))
    = (Normal tt, cleared (calm evening) (armed "E1" (Some two_hours_after))) /\
  setActiveEventMeta
      (Some {| eventId := " " +:+ no_break_space; endUtc := Some two_hours_after |})
      (calm evening) (armed "E1" (Some two_hours_after))
    = (Normal tt, cleared (calm evening) (armed "E1" (Some two_hours_after))) /\
  storage (cleared (calm evening) (armed "E1" (Some two_hours_after)))
    !! ACTIVE_EVENT_META_KEY = None /\
  storage (cleared (calm evening) (armed "E1" (Some two_hours_after)))
    !! ACTIVE_EVENT_KEY = None.
Proof.
  destruct (setActiveEvent_blank_clears (calm evening)
              (armed "E1" (Some two_hours_after)) (" " +:+ no_break_space)
              (Some two_hours_after))
    as (Hid & Hmeta & _ & Hgone).
  - vm_compute. reflexivity.
  - split; [exact Hid|]. split; [exact Hmeta|]. apply Hgone; reflexivity.
Defined.

(** C8 on a device armed for E1 until two hours later: arming it again for
    " E1 " without an end time keeps the record. *)
Lemma setActiveEventId_preserves_end_witness :
  exists w',
    setActiveEventId (Some " E1 ") (calm evening) (armed "E1" (Some two_hours_after))
      = (Normal tt, w') /\
    storage w' !! ACTIVE_EVENT_META_KEY
      = storage (armed "E1" (Some two_hours_after)) !! ACTIVE_EVENT_META_KEY /\
    persisted_meta w' "E1" (Some two_hours_after).
Proof.
  destruct (setActiveEventId_preserves_end (calm evening)
              (armed "E1" (Some two_hours_after)) " E1 " "E1" two_hours_after
              running_persisted)
    as (w' & Hrun & Hsame & Hmeta & _).
  - discriminate.
  - vm_compute. reflexivity.
  - vm_compute. discriminate.
  - reflexivity.
  - exists w'. split; [exact Hrun|]. split; [exact Hsame|exact Hmeta].
Defined.

(** C9 on the device after an ENTER: ten seconds later a second ENTER is
    suppressed when the store answers, and passes when the read is
    rejected; on a blank device a rejected write changes nothing and the
    signal passes. *)
Lemma shouldDebounce_storage_failure_witness :
  shouldDebounce ENTER (calm (evening + 10000)) after_enter
    = (Normal true, after_enter) /\
  shouldDebounce ENTER (failing reads_fail (evening + 10000)) after_enter
    = (Normal false, after_enter) /\
  shouldDebounce ENTER (failing writes_fail evening) blank
    = (Normal false, blank) /\
  suppressing_marker ENTER (calm (evening + 10000)) after_enter.
Proof.
  split; [vm_compute; reflexivity|]. split; [|split].
  - apply (proj1 (shouldDebounce_storage_failure ENTER
                    (failing reads_fail (evening + 10000)) after_enter)).
    reflexivity.
  - destruct (proj1 (proj2 (shouldDebounce_storage_failure ENTER
                              (failing writes_fail evening) blank)) eq_refl)
      as [Hfalse|(_ & _ & Htrue)].
    + exact Hfalse.
    + vm_compute in Htrue. discriminate Htrue.
  - apply (proj2 (proj2 (shouldDebounce_storage_failure ENTER
                           (calm (evening + 10000)) after_enter))).
    vm_compute. reflexivity.
Defined.

(** C10: an ENTER on a blank device is dropped and leaves its marker; the
    device is then armed for E1, and an ENTER ten seconds after the first
    is suppressed although the context now yields E1. *)
Lemma dropped_signal_still_debounces_witness :
  GEOFENCE_TASK (signal Enter "venue") (calm evening) blank
    = (Normal NoEvent, with_marker ENTER evening blank) /\
  fst (getActiveEventId (calm (evening + 10000))
         (snd (setActiveEventId (Some "E1") (calm (evening + 5000))
                 (with_marker ENTER evening blank))))
    = Normal (Some "E1") /\
  GEOFENCE_TASK (signal Enter "venue") (calm (evening + 10000))
      (snd (setActiveEventId (Some "E1") (calm (evening + 5000))
              (with_marker ENTER evening blank)))
    = (Normal Debounced,
       snd (setActiveEventId (Some "E1") (calm (evening + 5000))
              (with_marker ENTER evening blank))).
Proof.
  assert (GEOFENCE_TASK (signal Enter "venue") (calm evening) blank
          = (Normal NoEvent, with_marker ENTER evening blank))
    as Hrun by (vm_compute; reflexivity).
  split; [exact Hrun|]. split; [vm_compute; reflexivity|].
  destruct (dropped_signal_still_debounces (signal Enter "venue") (calm evening)
              blank (with_marker ENTER evening blank) None eq_refl
              ltac:(apply marker_absent; vm_compute; reflexivity)
              eq_refl eq_refl (marker_readable_evening ENTER) Hrun)
    as [_ Hlater].
  apply Hlater.
  - reflexivity.
  - vm_compute. reflexivity.
  - reflexivity.
  - reflexivity.
  - vm_compute. reflexivity.
Defined.
End RunsKeys.

(* ===================================================================== *)
(** ** The scenarios of the specification *)
(* ===================================================================== *)

Section SpecScenarios.
Import Scenario.
Local Existing Instance runtime.

(** Normal check-in: armed for E1 until two hours later, an ENTER is
    delivered by the procedure call and the queue stays empty. *)
Example normal_check_in :
  exists w',
    GEOFENCE_TASK (signal Enter "venue") (calm evening)
      (armed "E1" (Some two_hours_after))
    = (Normal (Recorded (record "E1" "venue" ENTER evening) true), w') /\
    requests w' = [Rpc (record "E1" "venue" ENTER evening)] /\
    queue w' = [].
Proof.
  eexists. split; [vm_compute; reflexivity|]. split; vm_compute; reflexivity.
Qed.

(** Offline entry, then reconnect: while every delivery fails the record
    is queued, after one attempt by the task and one by the pass it
    starts; a later pass with a backend that answers empties the queue. *)
Example offline_entry_then_reconnect :
  exists w',
    GEOFENCE_TASK (signal Enter "venue")
      (backend (Rejected NetworkError) (Rejected NetworkError) evening)
      (armed "E1" (Some two_hours_after))
    = (Normal (Recorded (record "E1" "venue" ENTER evening) false), w') /\
    queue w' = [record "E1" "venue" ENTER evening] /\
    requests w' = [Rpc (record "E1" "venue" ENTER evening);
                   Rpc (record "E1" "venue" ENTER evening)] /\
    queue (snd (flushOnce postToServer (calm (evening + 60000)) w')) = [].
Proof.
  eexists. split; [vm_compute; reflexivity|].
  split; [vm_compute; reflexivity|]. split; vm_compute; reflexivity.
Qed.

(** Arming again through [setActiveEventMeta] with a null end does
    overwrite a known end: only [setActiveEventId] preserves it. *)
Example setActiveEventMeta_overwrites_end :
  storage (snd (setActiveEventMeta (Some {| eventId := "E1"; endUtc := None |})
                  (calm evening) (armed "E1" (Some two_hours_after))))
    !! ACTIVE_EVENT_META_KEY
  = Some (meta_text "E1" None).
Proof. vm_compute. reflexivity. Qed.
End SpecScenarios.

(* ===================================================================== *)
(** ** More on the active-event context *)
(* ===================================================================== *)

(** [trim] strips the white space of both ends and nothing else. *)
Lemma trim_start_eq (s : string) :
  trim_start s = match white_prefix s with
                 | Some r => trim_start r
                 | None => s
                 end.
Proof.
  destruct s as [|a [|b [|c r]]]; simpl; try done.
  - by destruct (white _).
  - destruct (white (String a "")); [done|]. by destruct (white _).
  - destruct (white (String a "")); [done|].
    destruct (white (String a (String b ""))); [done|]. by destruct (white _).
Qed.

Lemma white_prefix_app (u r v : string) :
  white_prefix u = Some r -> white_prefix (u +:+ v) = Some (r +:+ v).
Proof.
  destruct u as [|a [|b [|c u]]]; simpl; try done.
  - destruct (white (String a "")); [|done]. by intros [= <-].
  - destruct (white (String a "")); [by intros [= <-]|].
    destruct (white (String a (String b ""))); [|done]. by intros [= <-].
  - destruct (white (String a "")); [by intros [= <-]|].
    destruct (white (String a (String b ""))); [by intros [= <-]|].
    destruct (white _); [|done]. by intros [= <-].
Qed.

Lemma white_prefix_shorter (u r : string) :
  white_prefix u = Some r -> (String.length r < String.length u)%nat.
Proof.
  destruct u as [|a [|b [|c u]]]; simpl; try done.
  - destruct (white _); [|done]. intros [= <-]. simpl. lia.
  - destruct (white (String a "")); [intros [= <-]; simpl; lia|].
    destruct (white _); [|done]. intros [= <-]. simpl. lia.
  - destruct (white (String a "")); [intros [= <-]; simpl; lia|].
    destruct (white (String a (String b ""))); [intros [= <-]; simpl; lia|].
    destruct (white _); [|done]. intros [= <-]. simpl. lia.
Qed.

Lemma trim_start_shorter (s : string) :
  (String.length (trim_start s) <= String.length s)%nat.
Proof.
  remember (String.length s) as n eqn:Hn.
  revert s Hn. induction n as [n IH] using lt_wf_ind. intros s ->.
  rewrite trim_start_eq. destruct (white_prefix s) as [r|] eqn:Hr; [|done].
  apply white_prefix_shorter in Hr.
  pose proof (IH _ Hr r eq_refl). lia.
Qed.

Lemma trim_start_idempotent (s : string) : trim_start (trim_start s) = trim_start s.
Proof.
  remember (String.length s) as n eqn:Hn.
  revert s Hn. induction n as [n IH] using lt_wf_ind. intros s ->.
  rewrite (trim_start_eq s). destruct (white_prefix s) as [r|] eqn:Hr.
  - apply (IH _ (white_prefix_shorter _ _ Hr) r eq_refl).
  - by rewrite trim_start_eq, Hr.
Qed.

(** White space in front of a text does not count. *)
Lemma trim_start_app (u v : string) :
  trim_start u = "" -> trim_start (u +:+ v) = trim_start v.
Proof.
  remember (String.length u) as n eqn:Hn.
  revert u Hn. induction n as [n IH] using lt_wf_ind. intros u -> Hu.
  rewrite trim_start_eq in Hu.
  destruct (white_prefix u) as [r|] eqn:Hr.
  - rewrite (trim_start_eq (u +:+ v)), (white_prefix_app u r v Hr).
    apply (IH _ (white_prefix_shorter _ _ Hr) r eq_refl Hu).
  - by subst u.
Qed.

(** What [trim_end] strips is white space throughout. *)
Lemma trim_end_split (s : string) :
  exists tail, s = trim_end s +:+ tail /\ trim_start tail = "".
Proof.
  induction s as [|c s (tail & Hs & Htail)]; [by exists ""|].
  cbn [trim_end].
  destruct (String.eqb_spec (trim_start (String c s)) "") as [Hall|Hsome].
  - by exists (String c s).
  - exists tail. split; [|done].
    change (String c (trim_end s) +:+ tail) with (String c (trim_end s +:+ tail)).
    by rewrite <- Hs.
Qed.

Lemma trim_end_idempotent (s : string) : trim_end (trim_end s) = trim_end s.
Proof.
  induction s as [|c s IH]; [done|].
  cbn [trim_end].
  destruct (String.eqb_spec (trim_start (String c s)) "") as [Hall|Hsome]; [done|].
  cbn [trim_end].
  destruct (String.eqb_spec (trim_start (String c (trim_end s))) "") as [Hall|_].
  - destruct (trim_end_split s) as (tail & Hs & Htail).
    exfalso. apply Hsome.
    rewrite Hs.
    change (String c (trim_end s +:+ tail)) with (String c (trim_end s) +:+ tail).
    by rewrite (trim_start_app _ _ Hall).
  - by rewrite IH.
Qed.

(** Stripping the end uncovers no white space at the start. *)
Lemma trim_start_trim_end (t : string) :
  trim_start t = t -> trim_start (trim_end t) = trim_end t.
Proof.
  intros Ht. rewrite trim_start_eq.
  destruct (white_prefix (trim_end t)) as [r|] eqn:Hr; [|done].
  destruct (trim_end_split t) as (tail & Hsplit & _).
  pose proof (white_prefix_app _ _ tail Hr) as Hprefix. rewrite <- Hsplit in Hprefix.
  pose proof (trim_start_eq t) as Heq. rewrite Hprefix, Ht in Heq.
  pose proof (trim_start_shorter (r +:+ tail)) as Hlen. rewrite <- Heq in Hlen.
  apply white_prefix_shorter in Hprefix. lia.
Qed.

Lemma trim_idempotent (s : string) : trim (trim s) = trim s.
Proof.
  unfold trim.
  rewrite (trim_start_trim_end _ (trim_start_idempotent s)).
  apply trim_end_idempotent.
Qed.

(** Every white-space code point is stripped, before and behind a text;
    the zero width space and the next line control, which ECMAScript does
    not count as white space, stay. *)
Lemma trim_white_space (cp : N) :
  In cp (WhiteSpace ++ LineTerminator) ->
  trim (utf8 cp +:+ "E1" +:+ utf8 cp) = "E1" /\ trim (utf8 cp) = "".
Proof.
  simpl. intros Hcp.
  repeat (destruct Hcp as [<-|Hcp]; [split; vm_compute; reflexivity|]). done.
Qed.

Lemma trim_other_code_points :
  trim (utf8 0x200B +:+ "E1") = utf8 0x200B +:+ "E1" /\
  trim ("E1" +:+ utf8 0x85) = "E1" +:+ utf8 0x85.
Proof. split; vm_compute; reflexivity. Qed.

Section ContextMore.
Context `{Platform}.

Lemma read_meta_trimmed (e : Env) (w : World) (m : ActiveEventMeta.t) :
  read_meta e w = Some m ->
  ActiveEventMeta.event_id m <> "" /\
  trim (ActiveEventMeta.event_id m) = ActiveEventMeta.event_id m.
Proof.
  unfold read_meta, decode_meta.
  destruct (rejects e (GetItem ACTIVE_EVENT_META_KEY)); [done|].
  destruct (storage w !! ACTIVE_EVENT_META_KEY) as [raw|]; [|done].
  destruct (truthy raw); [|done].
  destruct (JSON_parse raw) as [parsed|]; [|done].
  destruct (negb (json_truthy parsed) || negb (typeof_object parsed)); [done|].
  destruct (truthy (trim _)) eqn:Hid; [|done]. simpl.
  intros [= <-]. simpl. split; [by apply truthy_true|apply trim_idempotent].
Qed.

Lemma read_legacy_trimmed (e : Env) (w : World) (id : string) :
  read_legacy e w = Some id -> id <> "" /\ trim id = id.
Proof.
  unfold read_legacy.
  destruct (rejects e (GetItem ACTIVE_EVENT_KEY)); [done|].
  destruct (storage w !! ACTIVE_EVENT_KEY) as [s|]; [|done].
  destruct (truthy s); [|done]. simpl.
  destruct (truthy (trim s)) eqn:Hid; [|done].
  intros [= <-]. split; [by apply truthy_true|apply trim_idempotent].
Qed.

(** X1: [getActiveEventId] never throws and never yields a blank id:
    whatever the store holds and however it answers, the result is absent
    or a non-empty id without white space around it. *)
Theorem getActiveEventId_never_blank (e : Env) (w : World) :
  exists r w',
    getActiveEventId e w = (Normal r, w') /\
    forall id, r = Some id -> id <> "" /\ trim id = id.
Proof.
  rewrite getActiveEventId_run.
  destruct (read_meta e w) as [m|] eqn:Hmeta.
  - pose proof (read_meta_trimmed e w m Hmeta) as Hm.
    destruct (parseUtcMs _) as [endMs|].
    + destruct (endMs <? _); eexists _, _; (split; [reflexivity|]).
      * by intros id [=].
      * by intros id [= <-].
    + eexists _, _. split; [reflexivity|]. by intros id [= <-].
  - eexists _, _. split; [reflexivity|].
    intros id Hid. by apply (read_legacy_trimmed e w).
Qed.

Lemma read_legacy_without_meta (e : Env) (w : World) :
  read_legacy e (without_meta w) = read_legacy e w.
Proof.
  apply read_legacy_frame. unfold without_meta. simpl.
  apply lookup_delete_ne, key_meta_legacy.
Qed.

(** X2: a meta record that cannot be used counts as absent.  When the read
    of the meta key is rejected, or its text is empty, does not parse,
    parses to null or to a string, or holds no event id that survives
    trimming, [getActiveEventId] changes nothing and returns what it
    returns on the device without the meta key: the legacy id, if any. *)
Theorem getActiveEventId_unusable_meta (e : Env) (w : World) :
  rejects e (GetItem ACTIVE_EVENT_META_KEY) = true \/
  (exists raw,
      storage w !! ACTIVE_EVENT_META_KEY = Some raw /\
      (raw = "" \/ JSON_parse raw = None \/ JSON_parse raw = Some JNull \/
       (exists s, JSON_parse raw = Some (JStr s)) \/
       (exists props,
           JSON_parse raw = Some (JObj props) /\
           (lookup_prop "event_id" props = None \/
            lookup_prop "event_id" props = Some JNull \/
            exists s, lookup_prop "event_id" props = Some (JStr s) /\ trim s = "")))) ->
  snd (getActiveEventId e w) = w /\
  fst (getActiveEventId e w) = fst (getActiveEventId e (without_meta w)).
Proof.
  intros Hbad.
  assert (read_meta e w = None) as Hnone.
  { unfold read_meta. destruct Hbad as [->|(raw & -> & Hraw)]; [done|].
    destruct (rejects e (GetItem ACTIVE_EVENT_META_KEY)); [done|].
    destruct Hraw as [->|[->|[->|[(s & ->)|(props & -> & Hid)]]]].
    - done.
    - by destruct (truthy raw).
    - destruct (truthy raw); reflexivity.
    - destruct (truthy raw); [|done]. unfold decode_meta. simpl.
      by rewrite orb_true_r.
    - destruct (truthy raw); [|done]. unfold decode_meta. simpl.
      destruct Hid as [->|[->|(s & -> & Hs)]]; simpl; [done..|].
      by rewrite Hs. }
  assert (read_meta e (without_meta w) = None) as Hnone'.
  { apply read_meta_absent. unfold without_meta. simpl. apply lookup_delete_eq. }
  rewrite !getActiveEventId_run, Hnone, Hnone'. simpl.
  split; [done|]. by rewrite read_legacy_without_meta.
Qed.

(** [setActiveEventMeta] with an event id that survives trimming. *)
Lemma setActiveEventMeta_run (e : Env) (w : World) (id : string)
    (end_utc : option string) :
  trim id <> "" ->
  setActiveEventMeta (Some {| eventId := id; endUtc := end_utc |}) e w =
    let doc := meta_doc (trim id) end_utc
                 (toISOString (Date_now e Clock_setActiveEventMeta)) in
    let w1 := if rejects e (SetItem ACTIVE_EVENT_META_KEY) then w
              else set_storage
                     (<[ACTIVE_EVENT_META_KEY := JSON_stringify doc]> (storage w)) w in
    (Normal tt,
     if rejects e (SetItem ACTIVE_EVENT_KEY) then w1
     else set_storage (<[ACTIVE_EVENT_KEY := trim id]> (storage w1)) w1).
Proof.
  intros Hid%truthy_true. unfold setActiveEventMeta, meta_doc, safeIsoNow.
  cbn [eventId endUtc]. rewrite Hid. cbn [negb]. run.
  destruct (rejects e (SetItem ACTIVE_EVENT_META_KEY)),
           (rejects e (SetItem ACTIVE_EVENT_KEY)); reflexivity.
Qed.

(** What [getActiveEventId] returns on a persisted meta record. *)
Lemma getActiveEventId_persisted (e : Env) (w : World) (id : string)
    (end_utc : option string) :
  persisted_meta w id end_utc -> trim id <> "" ->
  rejects e (GetItem ACTIVE_EVENT_META_KEY) = false ->
  getActiveEventId e w =
    match parseUtcMs end_utc with
    | Some endMs =>
        if endMs <? Date_now e Clock_getActiveEventId
        then (Normal None, stopped e (cleared e w))
        else (Normal (Some (trim id)), w)
    | None => (Normal (Some (trim id)), w)
    end.
Proof.
  intros Hmeta Hid Hget.
  destruct (read_meta_persisted e w id end_utc Hmeta Hget Hid) as [saved Hread].
  by rewrite getActiveEventId_run, Hread.
Qed.

(** The end time as [setActiveEventMeta] stores it: an empty string is
    stored as null. *)
Lemma persisted_meta_doc (w : World) (id : string) (end_utc : option string)
    (saved : string) :
  storage w !! ACTIVE_EVENT_META_KEY
    = Some (JSON_stringify (meta_doc id end_utc saved)) ->
  JSON_stringify (meta_doc id end_utc saved) <> "" ->
  JSON_parse (JSON_stringify (meta_doc id end_utc saved))
    = Some (meta_doc id end_utc saved) ->
  persisted_meta w id
    match end_utc with
    | Some s => if truthy s then Some s else None
    | None => None
    end.
Proof.
  intros Hraw Hne Hparse. eexists _, _.
  split; [exact Hraw|]. split; [exact Hne|]. split; [exact Hparse|].
  split; [done|]. simpl. destruct end_utc as [s|]; [|done].
  by destruct (truthy s).
Qed.

Lemma parseUtcMs_stored (end_utc : option string) :
  parseUtcMs match end_utc with
             | Some s => if truthy s then Some s else None
             | None => None
             end
  = parseUtcMs end_utc.
Proof.
  destruct end_utc as [s|]; [|done]. simpl.
  destruct (truthy s) eqn:Hs; simpl; by rewrite ?Hs.
Qed.

(** X3: what [setActiveEventMeta] persists, [getActiveEventId] reads back.
    With the write of the meta key accepted and the document readable,
    the meta key holds the document of the trimmed id; a later read of the
    context returns that id while the end is null, empty, unparseable or
    not passed, and absent once the end has passed. *)
Theorem setActiveEventMeta_then_read (e e' : Env) (w : World) (id : string)
    (end_utc : option string) :
  let doc := meta_doc (trim id) end_utc
               (toISOString (Date_now e Clock_setActiveEventMeta)) in
  trim id <> "" ->
  rejects e (SetItem ACTIVE_EVENT_META_KEY) = false ->
  JSON_stringify doc <> "" ->
  JSON_parse (JSON_stringify doc) = Some doc ->
  rejects e' (GetItem ACTIVE_EVENT_META_KEY) = false ->
  exists w1,
    setActiveEventMeta (Some {| eventId := id; endUtc := end_utc |}) e w
      = (Normal tt, w1) /\
    storage w1 !! ACTIVE_EVENT_META_KEY = Some (JSON_stringify doc) /\
    (rejects e (SetItem ACTIVE_EVENT_KEY) = false ->
     storage w1 !! ACTIVE_EVENT_KEY = Some (trim id)) /\
    match parseUtcMs end_utc with
    | Some endMs =>
        if endMs <? Date_now e' Clock_getActiveEventId
        then fst (getActiveEventId e' w1) = Normal None
        else getActiveEventId e' w1 = (Normal (Some (trim id)), w1)
    | None => getActiveEventId e' w1 = (Normal (Some (trim id)), w1)
    end.
Proof.
  intros doc Hid Hset Hne Hparse Hget.
  rewrite (setActiveEventMeta_run e w id end_utc Hid). cbv zeta. fold doc.
  rewrite Hset. eexists. split; [reflexivity|].
  set (w0 := set_storage (<[ACTIVE_EVENT_META_KEY := JSON_stringify doc]> (storage w)) w).
  set (w1 := if rejects e (SetItem ACTIVE_EVENT_KEY) then w0 else _).
  assert (storage w1 !! ACTIVE_EVENT_META_KEY = Some (JSON_stringify doc)) as Hraw.
  { unfold w1. destruct (rejects e (SetItem ACTIVE_EVENT_KEY)); simpl.
    - apply lookup_insert_eq.
    - rewrite lookup_insert_ne by (symmetry; apply key_meta_legacy).
      apply lookup_insert_eq. }
  split; [exact Hraw|]. split.
  { intros Hl. unfold w1. rewrite Hl. simpl. apply lookup_insert_eq. }
  pose proof (persisted_meta_doc w1 (trim id) end_utc _ Hraw Hne Hparse) as Hmeta.
  assert (trim (trim id) <> "") as Hid' by by rewrite trim_idempotent.
  rewrite (getActiveEventId_persisted e' w1 _ _ Hmeta Hid' Hget).
  rewrite parseUtcMs_stored, trim_idempotent.
  destruct (parseUtcMs end_utc) as [endMs|]; [|done].
  by destruct (endMs <? _).
Qed.

(** [setActiveEventId] when the stored record is not kept. *)
Lemma setActiveEventId_replaces (e : Env) (w : World) (arg : string) :
  trim arg <> "" ->
  (read_meta e w = None \/
   exists m, read_meta e w = Some m /\
             (ActiveEventMeta.event_id m <> trim arg \/
              ActiveEventMeta.active_event_end_utc m = None \/
              ActiveEventMeta.active_event_end_utc m = Some "")) ->
  setActiveEventId (Some arg) e w
  = setActiveEventMeta (Some {| eventId := trim arg; endUtc := None |}) e w.
Proof.
  intros Harg Hread. unfold setActiveEventId.
  assert (arg <> "") as Hne by (intros ->; by apply Harg).
  apply truthy_true in Hne, Harg. rewrite Hne, Harg. cbn [negb].
  unfold bind at 1. rewrite getActiveEventMetaUnsafe_run.
  destruct Hread as [->|(m & -> & Hm)]; [done|].
  destruct Hm as [Hid|[->| ->]].
  - destruct (String.eqb_spec (ActiveEventMeta.event_id m) (trim arg)); done.
  - by rewrite andb_false_r.
  - by rewrite andb_false_r.
Qed.

(** X4: arming another event through [setActiveEventId] replaces the
    context and its end time.  When no meta record is stored, or the
    stored one is for another event or has no end, and the store accepts
    the read and the write of the meta key, the meta key afterwards holds
    the document of the new id with a null end: every later read of the
    context returns the new id, at any instant. *)
Theorem setActiveEventId_then_read (e : Env) (w : World) (arg : string) :
  let doc := meta_doc (trim arg) None
               (toISOString (Date_now e Clock_setActiveEventMeta)) in
  trim arg <> "" ->
  rejects e (GetItem ACTIVE_EVENT_META_KEY) = false ->
  rejects e (SetItem ACTIVE_EVENT_META_KEY) = false ->
  storage w !! ACTIVE_EVENT_META_KEY = None \/
  (exists id0 end0,
      persisted_meta w id0 end0 /\ trim id0 <> "" /\
      (trim id0 <> trim arg \/ end0 = None \/ end0 = Some "")) ->
  JSON_stringify doc <> "" ->
  JSON_parse (JSON_stringify doc) = Some doc ->
  exists w1,
    setActiveEventId (Some arg) e w = (Normal tt, w1) /\
    storage w1 !! ACTIVE_EVENT_META_KEY = Some (JSON_stringify doc) /\
    forall e',
      rejects e' (GetItem ACTIVE_EVENT_META_KEY) = false ->
      getActiveEventId e' w1 = (Normal (Some (trim arg)), w1).
Proof.
  intros doc Harg Hget Hset Hstored Hne Hparse.
  assert (read_meta e w = None \/
          exists m, read_meta e w = Some m /\
                    (ActiveEventMeta.event_id m <> trim arg \/
                     ActiveEventMeta.active_event_end_utc m = None \/
                     ActiveEventMeta.active_event_end_utc m = Some "")) as Hread.
  { destruct Hstored as [Habsent|(id0 & end0 & Hmeta & Hid0 & Hdiff)].
    - left. by apply read_meta_absent.
    - right. destruct (read_meta_persisted e w id0 end0 Hmeta Hget Hid0) as [saved ->].
      eexists. split; [reflexivity|]. simpl.
      destruct Hdiff as [?|[?|?]]; auto. }
  rewrite (setActiveEventId_replaces e w arg Harg Hread).
  assert (trim (trim arg) <> "") as Harg' by by rewrite trim_idempotent.
  rewrite (setActiveEventMeta_run e w (trim arg) None Harg').
  cbv zeta. rewrite trim_idempotent. fold doc. rewrite Hset.
  eexists. split; [reflexivity|].
  set (w0 := set_storage (<[ACTIVE_EVENT_META_KEY := JSON_stringify doc]> (storage w)) w).
  set (w1 := if rejects e (SetItem ACTIVE_EVENT_KEY) then w0 else _).
  assert (storage w1 !! ACTIVE_EVENT_META_KEY = Some (JSON_stringify doc)) as Hraw.
  { unfold w1. destruct (rejects e (SetItem ACTIVE_EVENT_KEY)); simpl.
    - apply lookup_insert_eq.
    - rewrite lookup_insert_ne by (symmetry; apply key_meta_legacy).
      apply lookup_insert_eq. }
  split; [exact Hraw|]. intros e' Hget'.
  pose proof (persisted_meta_doc w1 (trim arg) None _ Hraw Hne Hparse) as Hmeta.
  rewrite (getActiveEventId_persisted e' w1 _ _ Hmeta Harg' Hget').
  by rewrite trim_idempotent.
Qed.
End ContextMore.

(* ===================================================================== *)
(** ** More on the background task *)
(* ===================================================================== *)

Section TaskMore.
Context `{Platform}.

(** [notify], path by path. *)
Lemma notify_run (title body : string) (e : Env) (w : World) :
  notify title body e w =
    (Normal tt,
     if notiAvailable e
        && match getPermissionsAsync e with
           | PermissionStatus false => false
           | _ => true
           end
        && negb (scheduleNotificationAsync_rejects e)
     then set_notifications (notifications w ++ [(title, body)]) w
     else w).
Proof.
  unfold notify, Notifications_scheduleNotificationAsync. run.
  destruct (notiAvailable e); simpl; [|reflexivity].
  destruct (getPermissionsAsync e) as [[|]|]; simpl;
    destruct (scheduleNotificationAsync_rejects e); reflexivity.
Qed.

Lemma getActiveEventId_trimmed (e : Env) (w w' : World) (id : string) :
  getActiveEventId e w = (Normal (Some id), w') -> id <> "" /\ trim id = id.
Proof.
  rewrite getActiveEventId_run.
  destruct (read_meta e w) as [m|] eqn:Hmeta.
  - pose proof (read_meta_trimmed e w m Hmeta) as Hm.
    destruct (parseUtcMs _) as [endMs|].
    + destruct (endMs <? _); [done|]. by intros [= <- _].
    + by intros [= <- _].
  - intros [= Hl _]. by apply (read_legacy_trimmed e w).
Qed.

Lemma getActiveEventId_world (e : Env) (w w' : World) (r : completion (option string)) :
  getActiveEventId e w = (r, w') ->
  w' = w \/ (r = Normal None /\ w' = stopped e (cleared e w)).
Proof.
  rewrite getActiveEventId_run.
  destruct (read_meta e w) as [m|]; [|left; congruence].
  destruct (parseUtcMs _) as [endMs|]; [|left; congruence].
  destruct (endMs <? _); [right; split|left]; congruence.
Qed.

Lemma stopped_geofencing (e : Env) (w : World) :
  geofencing (stopped e w) = true -> geofencing w = true.
Proof.
  unfold stopped. destruct (hasStartedGeofencingAsync_rejects e); [done|].
  destruct (geofencing w) eqn:Hg; [done|]. by rewrite Hg.
Qed.

Lemma cleared_lookup (e : Env) (w : World) (key : string) :
  storage (cleared e w) !! key = storage w !! key \/
  storage (cleared e w) !! key = None.
Proof.
  unfold cleared. simpl.
  destruct (rejects e (RemoveItem ACTIVE_EVENT_META_KEY)),
           (rejects e (RemoveItem ACTIVE_EVENT_KEY)); [by left|..];
    rewrite ?lookup_delete; repeat case_decide; auto.
Qed.

Lemma persisted_meta_frame (w w1 : World) (id : string) (end_utc : option string) :
  storage w1 !! ACTIVE_EVENT_META_KEY = storage w !! ACTIVE_EVENT_META_KEY ->
  persisted_meta w id end_utc -> persisted_meta w1 id end_utc.
Proof.
  intros Hsame (raw & props & Hraw & Hrest). exists raw, props. by rewrite Hsame.
Qed.

(** The event id after the fallback: the one of the context, or the one
    behind the prefix of the region identifier. *)
Lemma resolve_eventId_truthy (active regionId : option string) :
  falsy (resolve_eventId active regionId) = false ->
  (exists id, active = Some id /\ id <> "" /\ resolve_eventId active regionId = Some id) \/
  (falsy active = true /\
   exists r, regionId = Some r /\ startsWith r "event:" = true /\
             trim (slice_from (String.length "event:") r) <> "" /\
             resolve_eventId active regionId
               = Some (trim (slice_from (String.length "event:") r))).
Proof.
  unfold resolve_eventId. destruct (falsy active) eqn:Hactive.
  - destruct regionId as [r|]; [|congruence]. rewrite andb_true_l.
    destruct (truthy r); [|rewrite andb_false_l; congruence]. rewrite andb_true_l.
    destruct (startsWith r "event:") eqn:Hprefix; [|congruence].
    destruct (truthy (trim _)) eqn:Hparsed; [|done].
    intros _. right. split; [done|]. exists r.
    split; [done|]. split; [done|]. split; [by apply truthy_true|done].
  - intros _. left. destruct active as [id|]; [|done].
    exists id. split; [done|]. split.
    + apply truthy_true. simpl in Hactive. by destruct (truthy id).
    + by destruct regionId.
Qed.

Lemma resolve_eventId_region (rest : string) :
  trim rest <> "" ->
  resolve_eventId None (Some ("event:" +:+ rest)) = Some (trim rest).
Proof.
  intros Hrest%truthy_true. unfold resolve_eventId.
  assert (truthy ("event:" +:+ rest) = true) as -> by reflexivity.
  assert (startsWith ("event:" +:+ rest) "event:" = true) as ->.
  { unfold startsWith. cbn. by destruct rest. }
  assert (slice_from (String.length "event:") ("event:" +:+ rest) = rest) as ->
    by reflexivity.
  simpl. by rewrite Hrest.
Qed.

(** X5: no failure of the store, the backend, the platform or the
    notification surface makes the task throw.  Whatever they answer, the
    task completes normally, on one of its four returns.  The digest of
    [makeIdem] and the queue module, which the handler calls outside any
    [try], are taken here not to fail. *)
Theorem GEOFENCE_TASK_never_throws (body : TaskBody) (e : Env) (w : World) :
  exists o w', GEOFENCE_TASK body e w = (Normal o, w').
Proof.
  destruct (GEOFENCE_TASK_cases body e w) as (o & w' & Hrun & _). eauto.
Qed.

(** X6: a signal that carries an error only notifies.  The task returns
    at once: the store (the debounce marker included), the queue, the
    requests and the registration are as they were, and at most the
    notification "Geofence task error" with the message of the error is
    added. *)
Theorem GEOFENCE_TASK_error_signal (body : TaskBody) (e : Env) (w : World)
    (err : TaskManagerError) :
  error body = Some err ->
  exists w',
    GEOFENCE_TASK body e w = (Normal TaskFailed, w') /\
    storage w' = storage w /\ queue w' = queue w /\
    requests w' = requests w /\ geofencing w' = geofencing w /\
    (notifications w' = notifications w \/
     notifications w'
       = notifications w
           ++ [("Geofence task error", default "Unknown error" (message err))]).
Proof.
  intros Herr. unfold GEOFENCE_TASK. rewrite Herr.
  unfold bind. rewrite notify_run. eexists. split; [reflexivity|].
  destruct (_ && _ && _); simpl; auto 10.
Qed.

(** X7: a suppressed signal leaves no trace: when the task returns on the
    debounce, the device is exactly as before (no marker written, no
    request, no notification). *)
Theorem GEOFENCE_TASK_debounced_unchanged (body : TaskBody) (e : Env) (w w' : World) :
  GEOFENCE_TASK body e w = (Normal Debounced, w') -> w' = w.
Proof.
  intros Hrun.
  destruct (GEOFENCE_TASK_cases body e w) as (o & w0 & Hrun' & Hcase).
  rewrite Hrun in Hrun'. injection Hrun' as <- <-.
  by destruct Hcase as (_ & -> & _).
Qed.

(** X8: the record the task builds.  Its event id is not empty and has no
    white space around it; direction and region are those of the signal,
    the instant is the one read by [nowIso], the accuracy is null, the
    device is "mobile", and the key is [makeIdem] of the record's own
    event id, region, direction and instant. *)
Theorem GEOFENCE_TASK_record (body : TaskBody) (e : Env) (w w' : World)
    (p : GeoEventPayload) (ok : bool) :
  GEOFENCE_TASK body e w = (Normal (Recorded p ok), w') ->
  event_id p <> "" /\ trim (event_id p) = event_id p /\
  dir p = direction_of body /\ region_id p = regionId_of body /\
  at_ p = toISOString (Date_now e Clock_nowIso) /\
  acc_m p = None /\ device p = Some "mobile" /\
  idem p = makeIdem (event_id p) (region_id p) (dir p) (at_ p).
Proof.
  intros Hrun.
  destruct (GEOFENCE_TASK_cases body e w) as (o & w0 & Hrun' & Hcase).
  rewrite Hrun in Hrun'. injection Hrun' as <- <-.
  destruct Hcase as (_ & w1 & active & w2 & sent & _ & Hactive & Hfalsy & -> & _).
  simpl. split; [|split]; [..|done].
  - destruct (resolve_eventId_truthy _ _ Hfalsy)
      as [(id & -> & Hid & ->)|(_ & r & _ & _ & Hid & ->)]; done.
  - destruct (resolve_eventId_truthy _ _ Hfalsy)
      as [(id & -> & Hid & ->)|(_ & r & _ & _ & Hid & ->)]; simpl.
    + by destruct (getActiveEventId_trimmed _ _ _ _ Hactive).
    + apply trim_idempotent.
Qed.

(** X9: the persisted context wins over the region identifier.  When the
    context yields an event id, a run either is suppressed and leaves the
    device as it was, or sends to the backend, as its first request, the
    remote procedure call for a record with that id, the direction and
    the region of the signal, whatever the region identifier holds. *)
Theorem GEOFENCE_TASK_context_first (body : TaskBody) (e : Env) (w w' : World)
    (id : string) (o : Outcome) :
  error body = None ->
  fst (getActiveEventId e w) = Normal (Some id) ->
  GEOFENCE_TASK body e w = (Normal o, w') ->
  (o = Debounced /\ w' = w) \/
  exists p ok rest,
    o = Recorded p ok /\ event_id p = id /\
    dir p = direction_of body /\ region_id p = regionId_of body /\
    requests w' = requests w ++ Rpc p :: rest.
Proof.
  intros Herr Hctx Hrun.
  destruct (GEOFENCE_TASK_cases body e w) as (o' & w0 & Hrun' & Hcase).
  rewrite Hrun in Hrun'. injection Hrun' as <- <-.
  assert (forall w1 active w2,
             shouldDebounce (direction_of body) e w = (Normal false, w1) ->
             getActiveEventId e w1 = (Normal active, w2) ->
             active = Some id /\ id <> "") as Hsame.
  { intros w1 active w2 Hdeb Hactive.
    destruct (shouldDebounce_frame _ _ _ _ _ Hdeb) as (_ & _ & Hm1 & Hl1).
    pose proof (getActiveEventId_frame e w1 w Hm1 Hl1) as Hframe.
    rewrite Hactive, Hctx in Hframe. simpl in Hframe. injection Hframe as ->.
    split; [done|]. by destruct (getActiveEventId_trimmed _ _ _ _ Hactive). }
  destruct o as [| | |p ok].
  - destruct Hcase as (err & Herr' & _). congruence.
  - left. by destruct Hcase as (_ & -> & _).
  - destruct Hcase as (_ & w1 & active & Hdeb & Hactive & Hfalsy).
    destruct (Hsame _ _ _ Hdeb Hactive) as [-> Hid].
    rewrite (resolve_eventId_active id _ Hid) in Hfalsy.
    apply truthy_true in Hid. simpl in Hfalsy. by rewrite Hid in Hfalsy.
  - right. destruct (GEOFENCE_TASK_sent _ _ _ _ _ _ Hrun) as [rest Hsent].
    exists p, ok, rest. split; [done|].
    destruct Hcase as (_ & w1 & active & w2 & sent & Hdeb & Hactive & _ & Hp & _).
    destruct (Hsame _ _ _ Hdeb Hactive) as [-> Hid].
    rewrite (resolve_eventId_active id _ Hid) in Hp.
    rewrite Hp at 1 2 3. done.
Qed.

(** X10: the fallback on the region identifier.  When the context yields
    no event id and the region identifier is "event:" followed by text
    that survives trimming, a run either is suppressed and leaves the
    device as it was, or sends to the backend, as its first request, the
    remote procedure call for a record whose event id is the trimmed
    text. *)
Theorem GEOFENCE_TASK_region_fallback (body : TaskBody) (e : Env) (w w' : World)
    (rest : string) (o : Outcome) :
  error body = None ->
  fst (getActiveEventId e w) = Normal None ->
  regionId_of body = Some ("event:" +:+ rest) ->
  trim rest <> "" ->
  GEOFENCE_TASK body e w = (Normal o, w') ->
  (o = Debounced /\ w' = w) \/
  exists p ok sent,
    o = Recorded p ok /\ event_id p = trim rest /\
    dir p = direction_of body /\ region_id p = Some ("event:" +:+ rest) /\
    requests w' = requests w ++ Rpc p :: sent.
Proof.
  intros Herr Hctx Hregion Hrest Hrun.
  destruct (GEOFENCE_TASK_cases body e w) as (o' & w0 & Hrun' & Hcase).
  rewrite Hrun in Hrun'. injection Hrun' as <- <-.
  assert (forall w1 active w2,
             shouldDebounce (direction_of body) e w = (Normal false, w1) ->
             getActiveEventId e w1 = (Normal active, w2) ->
             resolve_eventId active (regionId_of body) = Some (trim rest)) as Hsame.
  { intros w1 active w2 Hdeb Hactive.
    destruct (shouldDebounce_frame _ _ _ _ _ Hdeb) as (_ & _ & Hm1 & Hl1).
    pose proof (getActiveEventId_frame e w1 w Hm1 Hl1) as Hframe.
    rewrite Hactive, Hctx in Hframe. simpl in Hframe. injection Hframe as ->.
    rewrite Hregion. by apply resolve_eventId_region. }
  destruct o as [| | |p ok].
  - destruct Hcase as (err & Herr' & _). congruence.
  - left. by destruct Hcase as (_ & -> & _).
  - destruct Hcase as (_ & w1 & active & Hdeb & Hactive & Hfalsy).
    rewrite (Hsame _ _ _ Hdeb Hactive) in Hfalsy. simpl in Hfalsy.
    apply truthy_true in Hrest. by rewrite Hrest in Hfalsy.
  - right. destruct (GEOFENCE_TASK_sent _ _ _ _ _ _ Hrun) as [more Hsent].
    exists p, ok, more. split; [done|].
    destruct Hcase as (_ & w1 & active & w2 & sent & Hdeb & Hactive & _ & Hp & _).
    rewrite (Hsame _ _ _ Hdeb Hactive), Hregion in Hp.
    rewrite Hp at 1 2 3. done.
Qed.

Lemma notify_ledger (title body : string) (e : Env) (w : World) :
  storage (snd (notify title body e w)) = storage w /\
  queue (snd (notify title body e w)) = queue w /\
  requests (snd (notify title body e w)) = requests w /\
  geofencing (snd (notify title body e w)) = geofencing w.
Proof. rewrite notify_run. simpl. by destruct (_ && _ && _). Qed.


(** X12: the queue never holds a record without event id.  If every
    queued record has a non-empty event id before the task runs, so has
    every queued record after it. *)
Theorem GEOFENCE_TASK_queue_invariant (body : TaskBody) (e : Env) (w w' : World)
    (o : Outcome) :
  Forall (fun q => event_id q <> "") (queue w) ->
  GEOFENCE_TASK body e w = (Normal o, w') ->
  Forall (fun q => event_id q <> "") (queue w').
Proof.
  intros Hinv Hrun.
  destruct (GEOFENCE_TASK_cases body e w) as (o' & w0 & Hrun' & Hcase).
  rewrite Hrun in Hrun'. injection Hrun' as <- <-.
  destruct o as [| | |p ok].
  - destruct Hcase as (err & _ & ->).
    by rewrite (proj1 (proj2 (notify_ledger _ _ e w))).
  - by destruct Hcase as (_ & -> & _).
  - destruct Hcase as (_ & w1 & active & Hdeb & Hactive & _).
    destruct (shouldDebounce_frame _ _ _ _ _ Hdeb) as (Hq1 & _).
    destruct (getActiveEventId_ledger _ _ _ _ Hactive) as (Hq2 & _).
    congruence.
  - destruct Hcase as (_ & w1 & active & w2 & sent & Hdeb & Hactive & Hfalsy & Hp
                       & _ & _ & _ & _ & _ & Hq).
    destruct (shouldDebounce_frame _ _ _ _ _ Hdeb) as (Hq1 & _).
    destruct (getActiveEventId_ledger _ _ _ _ Hactive) as (Hq2 & _).
    destruct ok.
    + destruct Hq as [-> _]. congruence.
    + destruct (pass_queue _ _ _ _ _ Hq) as [delivered Hq'].
      assert (Forall (fun q => event_id q <> "") (queue w2 ++ [p])) as Hall.
      { apply Forall_app. split; [congruence|]. apply Forall_singleton.
        rewrite Hp. simpl.
        destruct (resolve_eventId_truthy _ _ Hfalsy)
          as [(id & _ & Hid & ->)|(_ & r & _ & _ & Hid & ->)]; done. }
      rewrite Hq' in Hall. by apply Forall_app in Hall as [_ Hall].
Qed.

(** X13: the task never arms.  After a run, each key of the context holds
    what it held or nothing, and a region is registered only if one was
    before: the task may clear the context and stop the monitoring, never
    the opposite. *)
Theorem GEOFENCE_TASK_never_arms (body : TaskBody) (e : Env) (w w' : World)
    (o : Outcome) :
  GEOFENCE_TASK body e w = (Normal o, w') ->
  (storage w' !! ACTIVE_EVENT_META_KEY = storage w !! ACTIVE_EVENT_META_KEY \/
   storage w' !! ACTIVE_EVENT_META_KEY = None) /\
  (storage w' !! ACTIVE_EVENT_KEY = storage w !! ACTIVE_EVENT_KEY \/
   storage w' !! ACTIVE_EVENT_KEY = None) /\
  (geofencing w' = true -> geofencing w = true).
Proof.
  intros Hrun.
  destruct (GEOFENCE_TASK_cases body e w) as (o' & w0 & Hrun' & Hcase).
  rewrite Hrun in Hrun'. injection Hrun' as <- <-.
  assert (forall w1 active w2,
             shouldDebounce (direction_of body) e w = (Normal false, w1) ->
             getActiveEventId e w1 = (Normal active, w2) ->
             (storage w2 !! ACTIVE_EVENT_META_KEY = storage w !! ACTIVE_EVENT_META_KEY \/
              storage w2 !! ACTIVE_EVENT_META_KEY = None) /\
             (storage w2 !! ACTIVE_EVENT_KEY = storage w !! ACTIVE_EVENT_KEY \/
              storage w2 !! ACTIVE_EVENT_KEY = None) /\
             (geofencing w2 = true -> geofencing w = true)) as Hctx.
  { intros w1 active w2 Hdeb Hactive.
    destruct (shouldDebounce_frame _ _ _ _ _ Hdeb) as (_ & _ & Hm1 & Hl1).
    assert (geofencing w1 = geofencing w) as Hg1.
    { rewrite shouldDebounce_run in Hdeb.
      destruct (rejects e (GetItem LAST_EVENT_KEY)); [congruence|].
      destruct (read_marker w) as [last|]; [|congruence].
      destruct (same_direction last _ && within_window last _); [congruence|].
      destruct (rejects e (SetItem LAST_EVENT_KEY)); [congruence|].
      by injection Hdeb as <-. }
    destruct (getActiveEventId_world _ _ _ _ Hactive) as [->|[_ ->]].
    - rewrite Hm1, Hl1, Hg1. auto.
    - rewrite stopped_storage, <- Hm1, <- Hl1, <- Hg1.
      split; [apply cleared_lookup|]. split; [apply cleared_lookup|].
      intros Hg%stopped_geofencing. exact Hg. }
  destruct o as [| | |p ok].
  - destruct Hcase as (err & _ & ->).
    destruct (notify_ledger "Geofence task error"
                (default "Unknown error" (message err)) e w) as (-> & _ & _ & ->).
    auto.
  - destruct Hcase as (_ & -> & _). auto.
  - destruct Hcase as (_ & w1 & active & Hdeb & Hactive & _). eauto.
  - destruct Hcase as (_ & w1 & active & w2 & sent & Hdeb & Hactive & _ & _ & _
                       & -> & -> & _).
    eauto.
Qed.

(** X14: the auto-off, seen from the task.  With a persisted meta record
    whose end has passed, a store that accepts the read and the removals
    and a platform that accepts its calls, every signal that is not
    suppressed leaves the device without context and without registered
    region, whether it is dropped or recorded through the region
    identifier. *)
Theorem GEOFENCE_TASK_auto_off (body : TaskBody) (e : Env) (w w' : World)
    (id s : string) (endMs : Z) (o : Outcome) :
  error body = None ->
  persisted_meta w id (Some s) -> trim id <> "" ->
  s <> "" -> Date_parse s = Some endMs ->
  endMs < Date_now e Clock_getActiveEventId ->
  rejects e (GetItem ACTIVE_EVENT_META_KEY) = false ->
  rejects e (RemoveItem ACTIVE_EVENT_META_KEY) = false ->
  rejects e (RemoveItem ACTIVE_EVENT_KEY) = false ->
  hasStartedGeofencingAsync_rejects e = false ->
  stopGeofencingAsync_rejects e = false ->
  GEOFENCE_TASK body e w = (Normal o, w') ->
  o <> Debounced ->
  storage w' !! ACTIVE_EVENT_META_KEY = None /\
  storage w' !! ACTIVE_EVENT_KEY = None /\
  geofencing w' = false.
Proof.
  intros Herr Hmeta Hid Hs Hparse Hpast Hget Hrm Hrl Hh Hstop Hrun Ho.
  destruct (GEOFENCE_TASK_cases body e w) as (o' & w0 & Hrun' & Hcase).
  rewrite Hrun in Hrun'. injection Hrun' as <- <-.
  assert (forall w1 active w2,
             shouldDebounce (direction_of body) e w = (Normal false, w1) ->
             getActiveEventId e w1 = (Normal active, w2) ->
             storage w2 !! ACTIVE_EVENT_META_KEY = None /\
             storage w2 !! ACTIVE_EVENT_KEY = None /\
             geofencing w2 = false) as Hctx.
  { intros w1 active w2 Hdeb Hactive.
    destruct (shouldDebounce_frame _ _ _ _ _ Hdeb) as (_ & _ & Hm1 & _).
    pose proof (persisted_meta_frame w w1 id (Some s) Hm1 Hmeta) as Hmeta1.
    rewrite (getActiveEventId_persisted e w1 id (Some s) Hmeta1 Hid Hget) in Hactive.
    rewrite (parseUtcMs_date s endMs Hs Hparse) in Hactive.
    destruct (Z.ltb_spec endMs (Date_now e Clock_getActiveEventId)); [|lia].
    injection Hactive as _ <-.
    rewrite stopped_storage, cleared_accepted by done.
    split; [|split].
    - rewrite lookup_delete_ne by (symmetry; apply key_meta_legacy).
      apply lookup_delete_eq.
    - apply lookup_delete_eq.
    - unfold stopped. rewrite Hh, Hstop.
      by destruct (geofencing (cleared e w1)) eqn:Hg. }
  destruct o as [| | |p ok].
  - destruct Hcase as (err & Herr' & _). congruence.
  - done.
  - destruct Hcase as (_ & w1 & active & Hdeb & Hactive & _). eauto.
  - destruct Hcase as (_ & w1 & active & w2 & sent & Hdeb & Hactive & _ & _ & _
                       & -> & -> & _).
    eauto.
Qed.
End TaskMore.

(* ===================================================================== *)
(** ** Notifications and the public helpers *)
(* ===================================================================== *)

Section Helpers.
Context `{Platform}.

(** X15: [notify] is best effort.  It never throws and touches nothing
    but the list of notifications.  The notification is scheduled when the
    surface is available, the permission is not reported as denied (a
    permission check that fails does not stop it) and the scheduling is
    accepted; otherwise nothing changes. *)
Theorem notify_best_effort (title body : string) (e : Env) (w : World) :
  exists w',
    notify title body e w = (Normal tt, w') /\
    storage w' = storage w /\ queue w' = queue w /\
    requests w' = requests w /\ geofencing w' = geofencing w /\
    (notiAvailable e = true ->
     getPermissionsAsync e <> PermissionStatus false ->
     scheduleNotificationAsync_rejects e = false ->
     notifications w' = notifications w ++ [(title, body)]) /\
    (notiAvailable e = false \/ getPermissionsAsync e = PermissionStatus false \/
     scheduleNotificationAsync_rejects e = true ->
     w' = w).
Proof.
  rewrite notify_run. eexists. split; [reflexivity|].
  destruct (notiAvailable e), (getPermissionsAsync e) as [[|]|],
           (scheduleNotificationAsync_rejects e); simpl;
    repeat split; try done; intuition congruence.
Qed.

Lemma stopGeofencing_run (e : Env) (w : World) :
  stopGeofencing e w = (Normal tt, stopped e w).
Proof.
  unfold stopGeofencing, stopped,
    Location_hasStartedGeofencingAsync, Location_stopGeofencingAsync. run.
  destruct (hasStartedGeofencingAsync_rejects e); [done|].
  destruct (geofencing w); [|done].
  by destruct (stopGeofencingAsync_rejects e).
Qed.

Lemma hasGeofencingStarted_run (e : Env) (w : World) :
  hasGeofencingStarted e w
  = (Normal (if hasStartedGeofencingAsync_rejects e then false else geofencing w), w).
Proof.
  unfold hasGeofencingStarted, Location_hasStartedGeofencingAsync. run.
  by destruct (hasStartedGeofencingAsync_rejects e).
Qed.

(** X16: [stopGeofencing] never throws and does what the internal
    [safeStopGeofencingIfStarted] does.  When the platform accepts both
    calls, no region is registered afterwards and [hasGeofencingStarted]
    then answers false, whatever the platform answers; when no region was
    registered, nothing changes.  The store is never touched. *)
Theorem stopGeofencing_spec (e : Env) (w : World) :
  exists w',
    stopGeofencing e w = (Normal tt, w') /\
    safeStopGeofencingIfStarted e w = (Normal tt, w') /\
    storage w' = storage w /\
    (geofencing w = false -> w' = w) /\
    (hasStartedGeofencingAsync_rejects e = false ->
     stopGeofencingAsync_rejects e = false ->
     geofencing w' = false /\
     forall e', hasGeofencingStarted e' w' = (Normal false, w')).
Proof.
  exists (stopped e w).
  split; [apply stopGeofencing_run|].
  split; [apply safeStopGeofencingIfStarted_run|].
  split; [apply stopped_storage|]. split.
  - intros Hg. unfold stopped. rewrite Hg.
    by destruct (hasStartedGeofencingAsync_rejects e).
  - intros Hh Hs.
    assert (geofencing (stopped e w) = false) as Hoff.
    { unfold stopped. rewrite Hh, Hs. by destruct (geofencing w) eqn:Hg. }
    split; [done|]. intros e'. rewrite hasGeofencingStarted_run, Hoff.
    by destruct (hasStartedGeofencingAsync_rejects e').
Qed.

(** [ensureLocationPermissions] when everything is granted. *)
Lemma ensureLocationPermissions_granted (l : LocationEnv) (e : Env) (w : World) :
  requestForegroundPermissionsAsync l = Answered Granted ->
  isBackgroundLocationAvailableAsync l = Answered false \/
  (isBackgroundLocationAvailableAsync l = Answered true /\
   requestBackgroundPermissionsAsync l = Answered Granted) ->
  exists p, ensureLocationPermissions l e w = (Normal p, w) /\ ok p = true.
Proof.
  intros Hf Hb. unfold ensureLocationPermissions. rewrite Hf.
  destruct Hb as [->|[-> ->]]; by eexists.
Qed.

(** X17: without the permissions, [startGeofencing] throws before it
    touches anything.  When the foreground permission is refused or not
    granted, or the background location is available and its permission
    is refused or not granted, or the availability cannot be read, the
    call throws and the device is as before: the former registration
    stands, nothing is flushed. *)
Theorem startGeofencing_without_permission {Region : Type} (l : LocationEnv)
    (regions : list Region) (e : Env) (w : World) :
  requestForegroundPermissionsAsync l = Refused \/
  (exists f, requestForegroundPermissionsAsync l = Answered f /\ f <> Granted) \/
  (requestForegroundPermissionsAsync l = Answered Granted /\
   (isBackgroundLocationAvailableAsync l = Refused \/
    (isBackgroundLocationAvailableAsync l = Answered true /\
     (requestBackgroundPermissionsAsync l = Refused \/
      exists r, requestBackgroundPermissionsAsync l = Answered r /\ r <> Granted)))) ->
  startGeofencing l regions e w = (Throw, w).
Proof.
  unfold startGeofencing, ensureLocationPermissions.
  intros [->|[(f & -> & Hf)|(-> & [->|(-> & [->|(r & -> & Hr)])])]]; try done.
  - unfold bind, await, ret. simpl. by rewrite (bool_decide_eq_false_2 (f = Granted)).
  - unfold bind, await, ret. simpl. by rewrite (bool_decide_eq_false_2 (r = Granted)).
Qed.

(** [startGeofencing] once the permissions are granted. *)
Lemma startGeofencing_run {Region : Type} (l : LocationEnv)
    (regions : list Region) (e : Env) (w : World) :
  requestForegroundPermissionsAsync l = Answered Granted ->
  isBackgroundLocationAvailableAsync l = Answered false \/
  (isBackgroundLocationAvailableAsync l = Answered true /\
   requestBackgroundPermissionsAsync l = Answered Granted) ->
  startGeofencing l regions e w =
    if startGeofencingAsync_rejects l then (Throw, stopped e w)
    else flushOnce postToServer e (set_geofencing true (stopped e w)).
Proof.
  intros Hf Hb.
  destruct (ensureLocationPermissions_granted l e w Hf Hb) as (p & Hp & Hok).
  unfold startGeofencing. rewrite (bind_normal _ _ _ _ _ _ Hp), Hok. cbn [negb].
  assert (forall w0, exists w', flushOnce postToServer e w0 = (Normal tt, w')) as Hflush.
  { intros w0. destruct (flushOnce_pass e w0) as (w' & Hrun & _). eauto. }
  unfold stopped, Location_startGeofencingAsync,
    Location_hasStartedGeofencingAsync, Location_stopGeofencingAsync. run.
  destruct (hasStartedGeofencingAsync_rejects e); simpl.
  - destruct (startGeofencingAsync_rejects l); simpl; [done|].
    by destruct (Hflush (set_geofencing true w)) as [w' ->].
  - destruct (geofencing w) eqn:Hg; simpl.
    + destruct (stopGeofencingAsync_rejects e); simpl;
        (destruct (startGeofencingAsync_rejects l); simpl; [done|]).
      * by destruct (Hflush (set_geofencing true w)) as [w' ->].
      * by destruct (Hflush (set_geofencing true (set_geofencing false w))) as [w' ->].
    + destruct (startGeofencingAsync_rejects l); simpl; [done|].
      by destruct (Hflush (set_geofencing true w)) as [w' ->].
Qed.


(** X19: a registration that the platform rejects is not undone.  With
    the permissions granted, when [startGeofencingAsync] rejects, the call
    throws after the former registration was stopped: if a region was
    registered and the platform accepted the stop, none is registered
    afterwards.  The store, the queue and the requests are as before. *)
Theorem startGeofencing_rejected {Region : Type} (l : LocationEnv)
    (regions : list Region) (e : Env) (w : World) :
  requestForegroundPermissionsAsync l = Answered Granted ->
  isBackgroundLocationAvailableAsync l = Answered false \/
  (isBackgroundLocationAvailableAsync l = Answered true /\
   requestBackgroundPermissionsAsync l = Answered Granted) ->
  startGeofencingAsync_rejects l = true ->
  exists w',
    startGeofencing l regions e w = (Throw, w') /\
    storage w' = storage w /\ queue w' = queue w /\ requests w' = requests w /\
    (hasStartedGeofencingAsync_rejects e = false ->
     stopGeofencingAsync_rejects e = false ->
     geofencing w' = false).
Proof.
  intros Hf Hb Hstart.
  rewrite (startGeofencing_run l regions e w Hf Hb), Hstart.
  exists (stopped e w). split; [done|].
  unfold stopped.
  destruct (hasStartedGeofencingAsync_rejects e); [done|].
  destruct (geofencing w) eqn:Hg; [|done].
  by destruct (stopGeofencingAsync_rejects e).
Qed.
End Helpers.

(* ===================================================================== *)
(** ** The developer role override *)
(* ===================================================================== *)

Section DevRoleFacts.
Import DevRole.

Lemma role_of_string (r : Role) : role_of (Some (role_string r)) = Some r.
Proof. by destruct r. Qed.

Lemma role_of_valid (val : option string) (r : Role) :
  role_of val = Some r -> val = Some (role_string r).
Proof.
  destruct val as [s|]; [|done]. simpl.
  destruct (String.eqb_spec s "attendee") as [->|]; [by intros [= <-]|].
  destruct (String.eqb_spec s "organizer") as [->|]; [by intros [= <-]|done].
Qed.

Lemma setRoleOverride_run (b : Build) (role : option Role) (st : Store)
    (e : Env) (w : World) :
  devSwitchEnabled b = true ->
  setRoleOverride b role st e w =
    match role with
    | Some r =>
        (Normal (emit r (set_roleOverride role st)),
         if rejects e (SetItem STORAGE_KEY) then w
         else
           let w1 := set_storage (<[STORAGE_KEY := role_string r]> (storage w)) w in
           if rejects e (SetItem LEGACY_ROLE_KEY) then w1
           else set_storage (<[LEGACY_ROLE_KEY := role_string r]> (storage w1)) w1)
    | None =>
        (Normal (set_roleOverride None st),
         if rejects e (RemoveItem STORAGE_KEY) then w
         else
           let w1 := set_storage (delete STORAGE_KEY (storage w)) w in
           if rejects e (RemoveItem LEGACY_ROLE_KEY) then w1
           else set_storage (delete LEGACY_ROLE_KEY (storage w1)) w1)
    end.
Proof.
  intros Hon. unfold setRoleOverride. rewrite Hon. cbn [negb].
  destruct role as [r|]; run.
  - destruct (rejects e (SetItem STORAGE_KEY)); simpl; [done|].
    by destruct (rejects e (SetItem LEGACY_ROLE_KEY)).
  - destruct (rejects e (RemoveItem STORAGE_KEY)); simpl; [done|].
    by destruct (rejects e (RemoveItem LEGACY_ROLE_KEY)).
Qed.

Lemma clearOverride_run (b : Build) (st : Store) (e : Env) (w : World) :
  clearOverride b st e w = setRoleOverride b None st e w.
Proof.
  unfold clearOverride, setRoleOverride.
  destruct (devSwitchEnabled b); [|done]. cbn [negb]. run.
  destruct (rejects e (RemoveItem STORAGE_KEY)); simpl; [done|].
  by destruct (rejects e (RemoveItem LEGACY_ROLE_KEY)).
Qed.

(** X20: a production build ignores the override.  When the first
    configured [appEnv] is a string that trims to "production", the switch
    is off whatever [__DEV__] and the environment flag say: the effective
    role is the server role (attendee when there is none), and setting,
    clearing or restoring an override changes neither the store state nor
    the persistent store, and emits nothing. *)
Theorem production_ignores_override (b : Build) (env : string) :
  coalesce (expoConfig_appEnv b) (coalesce (manifest_appEnv b) (manifest2_appEnv b))
    = Some (ConfigString env) ->
  trim env = "production" ->
  devSwitchEnabled b = false /\
  forall st role e w,
    useEffectiveRole b st = default attendee (serverRole st) /\
    setRoleOverride b role st e w = (Normal st, w) /\
    clearOverride b st e w = (Normal st, w) /\
    restoreDevRoleOverride b st e w = (Normal st, w).
Proof.
  intros Hcfg Henv.
  assert (devSwitchEnabled b = false) as Hoff.
  { unfold devSwitchEnabled, getAppEnv. by rewrite Hcfg, Henv. }
  split; [done|]. intros st role e w.
  unfold useEffectiveRole, setRoleOverride, clearOverride, restoreDevRoleOverride.
  by rewrite Hoff.
Qed.

(** X21: with the switch on, an override takes effect at once and
    whatever the persistent store answers: after [setRoleOverride(r)] the
    effective role is [r], the server role is kept and [r] is emitted once;
    after [clearOverride] the effective role is the server role again
    (attendee when there is none) and nothing is emitted. *)
Theorem override_takes_effect (b : Build) (st : Store) (e : Env) (w : World) :
  devSwitchEnabled b = true ->
  (forall r, exists st' w',
      setRoleOverride b (Some r) st e w = (Normal st', w') /\
      useEffectiveRole b st' = r /\
      serverRole st' = serverRole st /\
      emitted st' = emitted st ++ [r]) /\
  (exists st' w',
      clearOverride b st e w = (Normal st', w') /\
      useEffectiveRole b st' = default attendee (serverRole st) /\
      emitted st' = emitted st).
Proof.
  intros Hon. split.
  - intros r. rewrite (setRoleOverride_run b (Some r) st e w Hon).
    eexists _, _. split; [reflexivity|].
    unfold useEffectiveRole. rewrite Hon. done.
  - rewrite clearOverride_run, (setRoleOverride_run b None st e w Hon).
    eexists _, _. split; [reflexivity|].
    unfold useEffectiveRole. rewrite Hon. done.
Qed.

(** X22: an override survives a restart.  With the switch on, after
    [setRoleOverride(r)] whose first write the store accepted, a later
    [restoreDevRoleOverride] on any store state, with the read of the new
    key accepted, sets the override to [r] again. *)
Theorem override_restored (b : Build) (r : Role) (st st0 st1 : Store)
    (e e' : Env) (w w1 : World) :
  devSwitchEnabled b = true ->
  rejects e (SetItem STORAGE_KEY) = false ->
  rejects e' (GetItem STORAGE_KEY) = false ->
  setRoleOverride b (Some r) st e w = (Normal st1, w1) ->
  exists st2 w2,
    restoreDevRoleOverride b st0 e' w1 = (Normal st2, w2) /\
    roleOverride st2 = Some r /\
    useEffectiveRole b st2 = r.
Proof.
  intros Hon Hset Hget Hrun.
  rewrite (setRoleOverride_run b (Some r) st e w Hon), Hset in Hrun.
  assert (storage w1 !! STORAGE_KEY = Some (role_string r)) as Hkey.
  { injection Hrun as _ <-. cbv zeta.
    destruct (rejects e (SetItem LEGACY_ROLE_KEY)); simpl.
    - apply lookup_insert_eq.
    - rewrite lookup_insert_ne by discriminate. apply lookup_insert_eq. }
  unfold restoreDevRoleOverride. rewrite Hon. cbn [negb].
  unfold try_catch, bind at 1. unfold AsyncStorage_getItem at 1.
  unfold bind at 1, ask, get. rewrite Hget, Hkey, role_of_string.
  unfold bind, ret. rewrite role_of_string.
  rewrite (setRoleOverride_run b (Some r) st0 e' w1 Hon).
  eexists _, _. split; [reflexivity|].
  unfold useEffectiveRole. rewrite Hon. done.
Qed.

(** X23: what [restoreDevRoleOverride] does with the two keys.  With the
    switch on and the reads accepted: when the new key holds no valid
    role and the legacy key holds role [r], the override becomes [r], and
    the new key holds [r] afterwards if the store accepts the write; when
    neither key holds a valid role, nothing changes.  When the read of
    the new key is rejected, nothing changes either. *)
Theorem restore_falls_back_to_legacy (b : Build) (st : Store) (e : Env) (w : World) :
  devSwitchEnabled b = true ->
  (rejects e (GetItem STORAGE_KEY) = false ->
   rejects e (GetItem LEGACY_ROLE_KEY) = false ->
   role_of (storage w !! STORAGE_KEY) = None ->
   (forall r, storage w !! LEGACY_ROLE_KEY = Some (role_string r) ->
              exists st' w',
                restoreDevRoleOverride b st e w = (Normal st', w') /\
                roleOverride st' = Some r /\
                (rejects e (SetItem STORAGE_KEY) = false ->
                 storage w' !! STORAGE_KEY = Some (role_string r))) /\
   (role_of (storage w !! LEGACY_ROLE_KEY) = None ->
    restoreDevRoleOverride b st e w = (Normal st, w))) /\
  (rejects e (GetItem STORAGE_KEY) = true ->
   restoreDevRoleOverride b st e w = (Normal st, w)).
Proof.
  intros Hon. split.
  - intros Hget Hlegacy Hnew.
    assert (restoreDevRoleOverride b st e w =
            match role_of (storage w !! LEGACY_ROLE_KEY) with
            | Some r => setRoleOverride b (Some r) st e w
            | None => (Normal st, w)
            end) as Hrun.
    { unfold restoreDevRoleOverride. rewrite Hon. cbn [negb].
      unfold try_catch, bind at 1. unfold AsyncStorage_getItem at 1.
      unfold bind at 1, ask, get. rewrite Hget, Hnew.
      unfold bind at 1. unfold AsyncStorage_getItem.
      unfold bind at 1, ask, get. rewrite Hlegacy.
      destruct (role_of (storage w !! LEGACY_ROLE_KEY)) as [r|]; [|done].
      rewrite (setRoleOverride_run b (Some r) st e w Hon). done. }
    split.
    + intros r Hr. rewrite Hrun, Hr, role_of_string.
      rewrite (setRoleOverride_run b (Some r) st e w Hon).
      eexists _, _. split; [reflexivity|]. split; [done|].
      intros ->. cbv zeta.
      destruct (rejects e (SetItem LEGACY_ROLE_KEY)); simpl.
      * apply lookup_insert_eq.
      * rewrite lookup_insert_ne by discriminate. apply lookup_insert_eq.
    + intros Hnone. by rewrite Hrun, Hnone.
  - intros Hget. unfold restoreDevRoleOverride. rewrite Hon. cbn [negb].
    unfold try_catch, bind at 1. unfold AsyncStorage_getItem at 1.
    unfold bind at 1, ask, get. by rewrite Hget.
Qed.

(** X24: the two keys are written together.  With the switch on: when the
    store accepts both writes, both keys hold the role after
    [setRoleOverride(r)]; when it accepts both removals, both keys are
    absent after [setRoleOverride(null)]; when it rejects the write of the
    new key, the legacy key is not written either and the store is as it
    was, while the override is set in memory all the same. *)
Theorem override_keys_written_together (b : Build) (st : Store) (e : Env) (w : World) :
  devSwitchEnabled b = true ->
  (forall r,
      rejects e (SetItem STORAGE_KEY) = false ->
      rejects e (SetItem LEGACY_ROLE_KEY) = false ->
      storage (snd (setRoleOverride b (Some r) st e w)) !! STORAGE_KEY
        = Some (role_string r) /\
      storage (snd (setRoleOverride b (Some r) st e w)) !! LEGACY_ROLE_KEY
        = Some (role_string r)) /\
  (rejects e (RemoveItem STORAGE_KEY) = false ->
   rejects e (RemoveItem LEGACY_ROLE_KEY) = false ->
   storage (snd (setRoleOverride b None st e w)) !! STORAGE_KEY = None /\
   storage (snd (setRoleOverride b None st e w)) !! LEGACY_ROLE_KEY = None) /\
  (forall r,
      rejects e (SetItem STORAGE_KEY) = true ->
      exists st',
        setRoleOverride b (Some r) st e w = (Normal st', w) /\
        roleOverride st' = Some r).
Proof.
  intros Hon. split; [|split].
  - intros r Hs Hl. rewrite (setRoleOverride_run b (Some r) st e w Hon), Hs, Hl.
    simpl. split.
    + rewrite lookup_insert_ne by discriminate. apply lookup_insert_eq.
    + apply lookup_insert_eq.
  - intros Hs Hl. rewrite (setRoleOverride_run b None st e w Hon), Hs, Hl.
    simpl. split.
    + rewrite lookup_delete_ne by discriminate. apply lookup_delete_eq.
    + apply lookup_delete_eq.
  - intros r Hs. rewrite (setRoleOverride_run b (Some r) st e w Hon), Hs.
    by eexists.
Qed.
End DevRoleFacts.

(* ===================================================================== *)
(** ** The square crop of an avatar *)
(* ===================================================================== *)

(** X25: the crop of [processToSquare512Jpeg] lies inside the image.  For
    an image of positive width and height, the actions are one crop
    followed by a resize to 512 by 512; the crop is a square of the shorter
    side, it fits in the image, it starts at the edge along the shorter
    side, and along the longer side the margin after it is the margin
    before it or one pixel more.  For any other size no crop is asked,
    only a resize to width 512. *)
Theorem avatar_crop_inside (input : Avatar.PickResult) :
  let w := Avatar.width input in
  let h := Avatar.height input in
  (0 < w -> 0 < h ->
   exists x y size,
     Avatar.actions input = [Avatar.Crop x y size size; Avatar.Resize 512 (Some 512)] /\
     size = Z.min w h /\
     0 <= x /\ 0 <= y /\ x + size <= w /\ y + size <= h /\
     (x = 0 \/ y = 0) /\
     0 <= (w - size - x) - x <= 1 /\
     0 <= (h - size - y) - y <= 1) /\
  (w <= 0 \/ h <= 0 -> Avatar.actions input = [Avatar.Resize 512 None]).
Proof.
  intros w h. unfold Avatar.actions. fold w h. split.
  - intros Hw Hh.
    destruct (Z.eqb_spec w 0); [lia|]. destruct (Z.eqb_spec h 0); [lia|].
    destruct (Z.leb_spec w 0); [lia|]. destruct (Z.leb_spec h 0); [lia|].
    simpl. eexists _, _, _. split; [reflexivity|]. split; [reflexivity|].
    destruct (Z.min_spec w h) as [[Hlt ->]|[Hle ->]].
    + pose proof (Z.div_mod (h - w) 2 ltac:(lia)) as Hy.
      pose proof (Z.mod_pos_bound (h - w) 2 ltac:(lia)) as Hym.
      rewrite Z.sub_diag. change (0 / 2) with 0.
      rewrite (Z.max_r 0 ((h - w) / 2)) by (apply Z.div_pos; lia).
      change (Z.max 0 0) with 0. lia.
    + pose proof (Z.div_mod (w - h) 2 ltac:(lia)) as Hx.
      pose proof (Z.mod_pos_bound (w - h) 2 ltac:(lia)) as Hxm.
      rewrite Z.sub_diag. change (0 / 2) with 0.
      rewrite (Z.max_r 0 ((w - h) / 2)) by (apply Z.div_pos; lia).
      change (Z.max 0 0) with 0. lia.
  - intros Hbad.
    destruct (Z.eqb_spec w 0), (Z.eqb_spec h 0), (Z.leb_spec w 0), (Z.leb_spec h 0);
      simpl; done || lia.
Qed.

(* ===================================================================== *)
(** ** More on the debounce and on the slots *)
(* ===================================================================== *)

Section DebounceMore.
Context `{Platform}.

(** X26: a marker that cannot be used never suppresses.  With the read
    accepted: a marker text that does not parse makes [shouldDebounce]
    return false and stays in place, so that no later signal is
    suppressed either; a document of another direction, or whose date
    does not parse, is replaced by the marker of the signal. *)
Theorem shouldDebounce_unusable_marker (d : Direction) (e : Env) (w : World)
    (raw : string) :
  storage w !! LAST_EVENT_KEY = Some raw -> raw <> "" ->
  rejects e (GetItem LAST_EVENT_KEY) = false ->
  (JSON_parse raw = None -> shouldDebounce d e w = (Normal false, w)) /\
  (forall last,
      JSON_parse raw = Some last ->
      same_direction last d = false \/
      Date_parse (ToString (get_prop last "at")) = None ->
      rejects e (SetItem LAST_EVENT_KEY) = false ->
      shouldDebounce d e w
        = (Normal false, with_marker d (Date_now e Clock_shouldDebounce) w)).
Proof.
  intros Hraw Hne%truthy_true Hget. rewrite shouldDebounce_run, Hget.
  unfold read_marker. rewrite Hraw, Hne. split.
  - by intros ->.
  - intros last -> Hbad ->.
    assert (same_direction last d
              && within_window last (Date_now e Clock_shouldDebounce) = false) as ->.
    { destruct Hbad as [->|Hdate]; [done|].
      unfold within_window. rewrite Hdate. apply andb_false_r. }
    done.
Qed.

(** X27: the slot of an instant is the window of 30 s, counted from the
    epoch, that holds it (also before the epoch); two instants less than
    30 s apart fall in the same slot or in two consecutive ones. *)
Theorem slot_window (t1 t2 : string) (a b : Z) :
  Date_parse t1 = Some a -> Date_parse t2 = Some b ->
  (forall k, slot t1 = Some k <-> 30000 * k <= a < 30000 * (k + 1)) /\
  (a <= b < a + 30000 ->
   exists k, slot t1 = Some k /\ (slot t2 = Some k \/ slot t2 = Some (k + 1))).
Proof.
  intros Ha Hb. unfold slot. rewrite Ha, Hb. unfold DEBOUNCE_SEC.
  change (1000 * 30) with 30000.
  pose proof (Z.div_mod a 30000 ltac:(lia)) as Hda.
  pose proof (Z.mod_pos_bound a 30000 ltac:(lia)) as Hma.
  pose proof (Z.div_mod b 30000 ltac:(lia)) as Hdb.
  pose proof (Z.mod_pos_bound b 30000 ltac:(lia)) as Hmb.
  split.
  - intros k. split.
    + intros [= <-]. lia.
    + intros Hk. f_equal. nia.
  - intros Hnear. exists (a / 30000). split; [done|].
    assert (b / 30000 = a / 30000 \/ b / 30000 = a / 30000 + 1) as [->| ->] by nia;
      auto.
Qed.
End DebounceMore.

(* ===================================================================== *)
(** ** The further theorems on the scenarios *)
(* ===================================================================== *)

Section RunsMore.
Import Scenario Cases.
Local Existing Instance runtime.

Lemma getActiveEventId_never_blank_witness :
  exists r w',
    getActiveEventId (calm evening) (legacy_only " E0 ") = (Normal r, w') /\
    forall id, r = Some id -> id <> "" /\ trim id = id.
Proof. apply (getActiveEventId_never_blank (calm evening) (legacy_only " E0 ")). Defined.

Lemma getActiveEventId_unusable_meta_witness :
  snd (getActiveEventId (calm evening) corrupt_meta) = corrupt_meta /\
  fst (getActiveEventId (calm evening) corrupt_meta)
    = fst (getActiveEventId (calm evening) (without_meta corrupt_meta)) /\
  fst (getActiveEventId (calm evening) corrupt_meta) = Normal (Some "E9").
Proof.
  destruct (getActiveEventId_unusable_meta (calm evening) corrupt_meta) as [Hw Hr].
  - right. exists "not json". split; [vm_compute; reflexivity|].
    right. left. vm_compute. reflexivity.
  - split; [exact Hw|]. split; [exact Hr|]. vm_compute. reflexivity.
Defined.

Lemma setActiveEventMeta_then_read_witness :
  exists w1,
    setActiveEventMeta
      (Some {| eventId := no_break_space +:+ "E1 "; endUtc := Some two_hours_after |})
      (calm evening) blank = (Normal tt, w1) /\
    storage w1 !! ACTIVE_EVENT_KEY = Some "E1" /\
    getActiveEventId (calm (evening + 60000)) w1 = (Normal (Some "E1"), w1).
Proof.
  destruct (setActiveEventMeta_then_read (calm evening) (calm (evening + 60000))
              blank (no_break_space +:+ "E1 ") (Some two_hours_after))
    as (w1 & Hrun & _ & Hlegacy & Hread).
  - vm_compute. discriminate.
  - reflexivity.
  - intros Hraw. vm_compute in Hraw. discriminate Hraw.
  - vm_compute. reflexivity.
  - reflexivity.
  - exists w1. split; [exact Hrun|]. split; [exact (Hlegacy eq_refl)|].
    exact Hread.
Defined.

Lemma setActiveEventId_then_read_witness :
  exists w1,
    setActiveEventId (Some ("E2" +:+ no_break_space)) (calm evening)
      (armed "E1" (Some two_hours_after))
      = (Normal tt, w1) /\
    getActiveEventId (calm (evening + 86400000)) w1 = (Normal (Some "E2"), w1).
Proof.
  destruct (setActiveEventId_then_read (calm evening)
              (armed "E1" (Some two_hours_after)) ("E2" +:+ no_break_space))
    as (w1 & Hrun & _ & Hread).
  - vm_compute. discriminate.
  - reflexivity.
  - reflexivity.
  - right. exists "E1", (Some two_hours_after).
    split; [apply running_persisted|]. split; [vm_compute; discriminate|].
    left. vm_compute. discriminate.
  - intros Hraw. vm_compute in Hraw. discriminate Hraw.
  - vm_compute. reflexivity.
  - exists w1. split; [exact Hrun|]. apply Hread. reflexivity.
Defined.

Lemma GEOFENCE_TASK_error_signal_witness :
  exists w',
    GEOFENCE_TASK error_signal (calm evening) (armed "E1" None)
      = (Normal TaskFailed, w') /\
    storage w' = storage (armed "E1" None) /\
    queue w' = queue (armed "E1" None) /\
    requests w' = requests (armed "E1" None) /\
    geofencing w' = geofencing (armed "E1" None) /\
    (notifications w' = notifications (armed "E1" None) \/
     notifications w'
       = notifications (armed "E1" None)
           ++ [("Geofence task error", "Unknown error")]).
Proof.
  apply (GEOFENCE_TASK_error_signal error_signal (calm evening) (armed "E1" None)
           {| message := None |}).
  reflexivity.
Defined.

Lemma GEOFENCE_TASK_debounced_unchanged_witness :
  snd (GEOFENCE_TASK (signal Enter "venue") (calm (evening + 10000)) after_enter)
  = after_enter.
Proof.
  apply (GEOFENCE_TASK_debounced_unchanged (signal Enter "venue")
           (calm (evening + 10000)) after_enter).
  vm_compute. reflexivity.
Defined.

Lemma first_enter_run :
  GEOFENCE_TASK (signal Enter "venue") (calm evening) (armed "E1" None)
  = (Normal (Recorded (record "E1" "venue" ENTER evening) true), after_enter).
Proof. vm_compute. reflexivity. Defined.

Lemma offline_enter_run :
  GEOFENCE_TASK (signal Enter "venue")
    (backend (Rejected NetworkError) (Rejected NetworkError) evening)
    (armed "E1" (Some two_hours_after))
  = (Normal (Recorded (record "E1" "venue" ENTER evening) false), after_offline_enter).
Proof. vm_compute. reflexivity. Defined.

Lemma GEOFENCE_TASK_record_witness :
  event_id (record "E1" "venue" ENTER evening) <> "" /\
  idem (record "E1" "venue" ENTER evening)
    = makeIdem "E1" (Some "venue") ENTER (toISOString evening).
Proof.
  destruct (GEOFENCE_TASK_record (signal Enter "venue") (calm evening)
              (armed "E1" None) after_enter (record "E1" "venue" ENTER evening) true
              first_enter_run)
    as (Hid & _ & _ & _ & _ & _ & _ & Hidem).
  split; [exact Hid|exact Hidem].
Defined.

Lemma GEOFENCE_TASK_context_first_witness :
  fst (getActiveEventId (calm evening) (armed "E1" None)) = Normal (Some "E1") /\
  exists p rest,
    event_id p = "E1" /\ region_id p = Some "event:OTHER" /\
    requests (snd (GEOFENCE_TASK (signal Enter "event:OTHER") (calm evening)
                     (armed "E1" None)))
      = requests (armed "E1" None) ++ Rpc p :: rest.
Proof.
  assert (fst (getActiveEventId (calm evening) (armed "E1" None)) = Normal (Some "E1"))
    as Hctx by (vm_compute; reflexivity).
  split; [exact Hctx|].
  assert (GEOFENCE_TASK (signal Enter "event:OTHER") (calm evening) (armed "E1" None)
          = (Normal (Recorded (record "E1" "event:OTHER" ENTER evening) true),
             snd (GEOFENCE_TASK (signal Enter "event:OTHER") (calm evening)
                    (armed "E1" None))))
    as Hrun by (vm_compute; reflexivity).
  destruct (GEOFENCE_TASK_context_first (signal Enter "event:OTHER") (calm evening)
              (armed "E1" None) _ "E1" _ eq_refl Hctx Hrun)
    as [[Hd _]|(p & ok & rest & _ & Hid & _ & Hregion & Hsent)].
  - discriminate Hd.
  - exists p, rest. split; [exact Hid|]. split; [exact Hregion|exact Hsent].
Defined.

Lemma GEOFENCE_TASK_region_fallback_witness :
  fst (getActiveEventId (calm evening) blank) = Normal None /\
  exists p sent,
    event_id p = "E7" /\
    requests (snd (GEOFENCE_TASK
                     (signal Enter ("event:" +:+ (no_break_space +:+ "E7 ")))
                     (calm evening) blank))
      = requests blank ++ Rpc p :: sent.
Proof.
  assert (fst (getActiveEventId (calm evening) blank) = Normal None)
    as Hctx by (vm_compute; reflexivity).
  split; [exact Hctx|].
  assert (trim (no_break_space +:+ "E7 ") = "E7") as Htrim by (vm_compute; reflexivity).
  assert (GEOFENCE_TASK (signal Enter ("event:" +:+ (no_break_space +:+ "E7 ")))
            (calm evening) blank
          = (Normal (Recorded
                       (record "E7" ("event:" +:+ (no_break_space +:+ "E7 "))
                          ENTER evening) true),
             snd (GEOFENCE_TASK (signal Enter ("event:" +:+ (no_break_space +:+ "E7 ")))
                    (calm evening) blank)))
    as Hrun by (vm_compute; reflexivity).
  assert (trim (no_break_space +:+ "E7 ") <> "") as Hsome by (rewrite Htrim; discriminate).
  destruct (GEOFENCE_TASK_region_fallback
              (signal Enter ("event:" +:+ (no_break_space +:+ "E7 ")))
              (calm evening) blank _ (no_break_space +:+ "E7 ") _
              eq_refl Hctx eq_refl Hsome Hrun)
    as [[Hd _]|(p & ok & sent & _ & Hid & _ & _ & Hsent)].
  - discriminate Hd.
  - exists p, sent. split; [by rewrite Hid|exact Hsent].
Defined.


Lemma GEOFENCE_TASK_queue_invariant_witness :
  queue after_offline_enter = [record "E1" "venue" ENTER evening] /\
  Forall (fun q => event_id q <> "") (queue after_offline_enter).
Proof.
  split; [vm_compute; reflexivity|].
  apply (GEOFENCE_TASK_queue_invariant (signal Enter "venue")
           (backend (Rejected NetworkError) (Rejected NetworkError) evening)
           (armed "E1" (Some two_hours_after)) after_offline_enter
           (Recorded (record "E1" "venue" ENTER evening) false)).
  - vm_compute. constructor.
  - exact offline_enter_run.
Defined.

Lemma GEOFENCE_TASK_never_arms_witness :
  (storage after_enter !! ACTIVE_EVENT_META_KEY
     = storage (armed "E1" None) !! ACTIVE_EVENT_META_KEY \/
   storage after_enter !! ACTIVE_EVENT_META_KEY = None) /\
  (storage after_enter !! ACTIVE_EVENT_KEY
     = storage (armed "E1" None) !! ACTIVE_EVENT_KEY \/
   storage after_enter !! ACTIVE_EVENT_KEY = None) /\
  (geofencing after_enter = true -> geofencing (armed "E1" None) = true).
Proof. apply (GEOFENCE_TASK_never_arms _ _ _ _ _ first_enter_run). Defined.

Lemma GEOFENCE_TASK_auto_off_witness :
  let w' := snd (GEOFENCE_TASK (signal Enter "venue") (calm evening)
                   (armed "E1" (Some an_hour_before))) in
  geofencing (armed "E1" (Some an_hour_before)) = true /\
  storage w' !! ACTIVE_EVENT_META_KEY = None /\
  storage w' !! ACTIVE_EVENT_KEY = None /\
  geofencing w' = false.
Proof.
  intros w'. split; [reflexivity|].
  assert (GEOFENCE_TASK (signal Enter "venue") (calm evening)
            (armed "E1" (Some an_hour_before)) = (Normal NoEvent, w'))
    as Hrun by (vm_compute; reflexivity).
  apply (GEOFENCE_TASK_auto_off (signal Enter "venue") (calm evening)
           (armed "E1" (Some an_hour_before)) w' "E1" an_hour_before
           (evening - 3600000) NoEvent eq_refl expired_persisted);
    first [exact Hrun | vm_compute; first [reflexivity | discriminate]].
Defined.

Lemma notify_best_effort_witness :
  notifications (snd (notify "Geofence ENTER" "event=E1" (permission_check_fails evening)
                        blank))
  = [("Geofence ENTER", "event=E1")].
Proof.
  destruct (notify_best_effort "Geofence ENTER" "event=E1"
              (permission_check_fails evening) blank)
    as (w' & Hrun & _ & _ & _ & _ & Hsent & _).
  rewrite Hrun. simpl snd. apply Hsent; [reflexivity|discriminate|reflexivity].
Defined.

Lemma stopGeofencing_spec_witness :
  exists w',
    stopGeofencing (calm evening) (armed "E1" None) = (Normal tt, w') /\
    geofencing (armed "E1" None) = true /\
    geofencing w' = false /\
    hasGeofencingStarted (calm evening) w' = (Normal false, w').
Proof.
  destruct (stopGeofencing_spec (calm evening) (armed "E1" None))
    as (w' & Hrun & _ & _ & _ & Hoff).
  destruct (Hoff eq_refl eq_refl) as [Hg Hlater].
  exists w'. split; [exact Hrun|]. split; [reflexivity|]. split; [exact Hg|].
  apply Hlater.
Defined.

Lemma startGeofencing_without_permission_witness :
  startGeofencing background_denied ["venue"] (calm evening) blank = (Throw, blank).
Proof.
  apply (startGeofencing_without_permission background_denied ["venue"]).
  right. right. split; [reflexivity|]. right. split; [reflexivity|].
  right. exists Denied. split; [reflexivity|discriminate].
Defined.


Lemma startGeofencing_rejected_witness :
  exists w',
    startGeofencing start_rejected ["venue"] (calm evening) (armed "E1" None)
      = (Throw, w') /\
    geofencing (armed "E1" None) = true /\
    geofencing w' = false.
Proof.
  destruct (startGeofencing_rejected start_rejected ["venue"] (calm evening)
              (armed "E1" None) eq_refl (or_introl eq_refl) eq_refl)
    as (w' & Hrun & _ & _ & _ & Hoff).
  exists w'. split; [exact Hrun|]. split; [reflexivity|]. apply Hoff; reflexivity.
Defined.

Lemma production_ignores_override_witness :
  DevRole.devSwitchEnabled production_build = false /\
  DevRole.setRoleOverride production_build (Some DevRole.organizer) signed_in
    (calm evening) blank = (Normal signed_in, blank) /\
  DevRole.useEffectiveRole production_build
    (DevRole.set_roleOverride (Some DevRole.organizer) signed_in) = DevRole.attendee.
Proof.
  destruct (production_ignores_override production_build " production " eq_refl)
    as [Hoff Hall].
  - vm_compute. reflexivity.
  - split; [exact Hoff|]. split.
    + apply (Hall signed_in (Some DevRole.organizer) (calm evening) blank).
    + apply (Hall (DevRole.set_roleOverride (Some DevRole.organizer) signed_in)
               None (calm evening) blank).
Defined.

Lemma override_takes_effect_witness :
  exists st' w',
    DevRole.setRoleOverride dev_build (Some DevRole.organizer) signed_in
      (failing writes_fail evening) blank = (Normal st', w') /\
    DevRole.useEffectiveRole dev_build st' = DevRole.organizer /\
    DevRole.serverRole st' = DevRole.serverRole signed_in /\
    DevRole.emitted st' = DevRole.emitted signed_in ++ [DevRole.organizer].
Proof.
  apply (proj1 (override_takes_effect dev_build signed_in
                  (failing writes_fail evening) blank
                  ltac:(vm_compute; reflexivity))).
Defined.

Lemma override_restored_witness :
  exists st2 w2,
    DevRole.restoreDevRoleOverride dev_build signed_in (calm evening)
      (snd (DevRole.setRoleOverride dev_build (Some DevRole.organizer) signed_in
              (calm evening) blank))
    = (Normal st2, w2) /\
    DevRole.roleOverride st2 = Some DevRole.organizer /\
    DevRole.useEffectiveRole dev_build st2 = DevRole.organizer.
Proof.
  apply (override_restored dev_build DevRole.organizer signed_in signed_in
           (fst (match DevRole.setRoleOverride dev_build (Some DevRole.organizer)
                         signed_in (calm evening) blank with
                 | (Normal st, w) => (st, w)
                 | (Throw, w) => (signed_in, w)
                 end))
           (calm evening) (calm evening) blank).
  - vm_compute. reflexivity.
  - reflexivity.
  - reflexivity.
  - vm_compute. reflexivity.
Defined.

Lemma restore_falls_back_to_legacy_witness :
  (exists st' w',
      DevRole.restoreDevRoleOverride dev_build signed_in (calm evening) legacy_role
        = (Normal st', w') /\
      DevRole.roleOverride st' = Some DevRole.organizer /\
      storage w' !! DevRole.STORAGE_KEY = Some "organizer") /\
  DevRole.restoreDevRoleOverride dev_build signed_in (calm evening) blank
    = (Normal signed_in, blank) /\
  DevRole.restoreDevRoleOverride dev_build signed_in (failing reads_fail evening)
      legacy_role
    = (Normal signed_in, legacy_role).
Proof.
  assert (DevRole.devSwitchEnabled dev_build = true) as Hon by (vm_compute; reflexivity).
  split; [|split].
  - destruct (proj1 (proj1 (restore_falls_back_to_legacy dev_build signed_in
                              (calm evening) legacy_role Hon)
                       eq_refl eq_refl ltac:(vm_compute; reflexivity))
                DevRole.organizer ltac:(vm_compute; reflexivity))
      as (st' & w' & Hrun & Hrole & Hkey).
    exists st', w'. split; [exact Hrun|]. split; [exact Hrole|]. apply Hkey. reflexivity.
  - apply (proj2 (proj1 (restore_falls_back_to_legacy dev_build signed_in
                           (calm evening) blank Hon)
                    eq_refl eq_refl ltac:(vm_compute; reflexivity))).
    vm_compute. reflexivity.
  - apply (proj2 (restore_falls_back_to_legacy dev_build signed_in
                    (failing reads_fail evening) legacy_role Hon)).
    reflexivity.
Defined.

Lemma override_keys_written_together_witness :
  (storage (snd (DevRole.setRoleOverride dev_build (Some DevRole.organizer) signed_in
                   (calm evening) blank)) !! DevRole.STORAGE_KEY = Some "organizer" /\
   storage (snd (DevRole.setRoleOverride dev_build (Some DevRole.organizer) signed_in
                   (calm evening) blank)) !! DevRole.LEGACY_ROLE_KEY = Some "organizer") /\
  (storage (snd (DevRole.setRoleOverride dev_build None signed_in (calm evening)
                   legacy_role)) !! DevRole.STORAGE_KEY = None /\
   storage (snd (DevRole.setRoleOverride dev_build None signed_in (calm evening)
                   legacy_role)) !! DevRole.LEGACY_ROLE_KEY = None) /\
  exists st',
    DevRole.setRoleOverride dev_build (Some DevRole.organizer) signed_in
      (failing writes_fail evening) legacy_role = (Normal st', legacy_role) /\
    DevRole.roleOverride st' = Some DevRole.organizer.
Proof.
  assert (DevRole.devSwitchEnabled dev_build = true) as Hon by (vm_compute; reflexivity).
  split; [|split].
  - apply (proj1 (override_keys_written_together dev_build signed_in (calm evening)
                    blank Hon) DevRole.organizer); reflexivity.
  - apply (proj1 (proj2 (override_keys_written_together dev_build signed_in
                           (calm evening) legacy_role Hon))); reflexivity.
  - apply (proj2 (proj2 (override_keys_written_together dev_build signed_in
                           (failing writes_fail evening) legacy_role Hon))
             DevRole.organizer).
    reflexivity.
Defined.

Lemma avatar_crop_inside_witness :
  Avatar.actions landscape
  = [Avatar.Crop 200 0 800 800; Avatar.Resize 512 (Some 512)] /\
  exists x y size,
    Avatar.actions landscape
      = [Avatar.Crop x y size size; Avatar.Resize 512 (Some 512)] /\
    x + size <= 1201 /\ y + size <= 800 /\
    0 <= (1201 - size - x) - x <= 1.
Proof.
  split; [reflexivity|].
  destruct (proj1 (avatar_crop_inside landscape) ltac:(reflexivity) ltac:(reflexivity))
    as (x & y & size & Hact & _ & _ & _ & Hx & Hy & _ & Hmx & _).
  exists x, y, size. split; [exact Hact|]. split; [exact Hx|]. split; [exact Hy|exact Hmx].
Defined.

Lemma shouldDebounce_unusable_marker_witness :
  shouldDebounce ENTER (calm evening) corrupt_marker = (Normal false, corrupt_marker).
Proof.
  apply (proj1 (shouldDebounce_unusable_marker ENTER (calm evening) corrupt_marker
                  "not json" ltac:(vm_compute; reflexivity) ltac:(discriminate)
                  eq_refl)).
  vm_compute. reflexivity.
Defined.

Lemma slot_window_witness :
  slot "2024-11-02T20:00:29.999Z" = Some 57685920 /\
  exists k,
    slot "2024-11-02T20:00:29.999Z" = Some k /\
    (slot "2024-11-02T20:00:30.000Z" = Some k \/
     slot "2024-11-02T20:00:30.000Z" = Some (k + 1)).
Proof.
  assert (Date_parse "2024-11-02T20:00:29.999Z" = Some (evening + 29999))
    as Ha by (vm_compute; reflexivity).
  assert (Date_parse "2024-11-02T20:00:30.000Z" = Some (evening + 30000))
    as Hb by (vm_compute; reflexivity).
  destruct (slot_window "2024-11-02T20:00:29.999Z" "2024-11-02T20:00:30.000Z"
              (evening + 29999) (evening + 30000) Ha Hb)
    as [Hslot Hnear].
  split.
  - apply Hslot. unfold evening. lia.
  - apply Hnear. unfold evening. lia.
Defined.
End RunsMore.
